(** * f1_tire_deg: lap cleaning, stint summary, degradation fit, pit table

    A shallow embedding of [scripts/01_fetch_data.py] and
    [scripts/02_analyze_stints.py].

    Modelling conventions.
    - A pandas DataFrame is a list of labelled rows together with its
      column header (name and dtype).  The row label is the pandas index
      label; [.loc] selects by label, as in the source.
    - A duration column (timedelta64[ns]) holds [option Z] nanoseconds,
      [None] being NaT / NA.
    - float64 arithmetic on lap times in seconds is idealised as exact
      rational arithmetic in [Q]; a missing float (NaN) is [None].
    - A Python [str] is a Rocq [string] whose characters are the code
      points 0..255.
    - Exceptions are values of [exn]; code that may raise returns
      [result]. *)

From Stdlib Require Import List ZArith QArith Qround String Ascii Bool Lia Lqa.
From Stdlib Require Import Permutation Sorted DecimalString.
Import ListNotations.

Local Close Scope Q_scope.
Local Open Scope string_scope.
Local Open Scope list_scope.

(* ------------------------------------------------------------------ *)
(** ** Exceptions and the error monad *)

Inductive exn : Type :=
| FileNotFoundError (msg : string)
| AttributeError (msg : string)
| KeyError (key : string)
| OtherError (cls msg : string).

(** [str(e)] as used by [print(f"error: {e}")]; a [KeyError] prints the
    repr of its key. *)
Definition exn_str (e : exn) : string :=
  match e with
  | FileNotFoundError m => m
  | AttributeError m => m
  | KeyError k => "'" ++ k ++ "'"
  | OtherError _ m => m
  end.

Inductive result (A : Type) : Type :=
| Ok (a : A)
| Raise (e : exn).

Arguments Ok {A} a.
Arguments Raise {A} e.

Definition bind {A B : Type} (m : result A) (k : A -> result B) : result B :=
  match m with
  | Ok a => k a
  | Raise e => Raise e
  end.

Notation "x <- m ;; k" := (bind m (fun x => k))
  (at level 61, m at next level, right associativity).

(* ------------------------------------------------------------------ *)
(** ** Generic list helpers *)

Section ListHelpers.
Context {A : Type}.

Fixpoint insert_by (leb : A -> A -> bool) (x : A) (l : list A) : list A :=
  match l with
  | [] => [x]
  | y :: t => if leb x y then x :: y :: t else y :: insert_by leb x t
  end.

(** A stable sort: equal elements keep their order of appearance. *)
Fixpoint sort_by (leb : A -> A -> bool) (l : list A) : list A :=
  match l with
  | [] => []
  | x :: t => insert_by leb x (sort_by leb t)
  end.

Fixpoint mem_by (eqb : A -> A -> bool) (x : A) (l : list A) : bool :=
  match l with
  | [] => false
  | y :: t => eqb x y || mem_by eqb x t
  end.

(** Distinct values in order of first appearance ([unique()]). *)
Fixpoint unique_by (eqb : A -> A -> bool) (l : list A) : list A :=
  match l with
  | [] => []
  | x :: t => x :: filter (fun y => negb (eqb y x)) (unique_by eqb t)
  end.

(** Boolean-mask selection: positions where the mask is [true]. *)
Fixpoint select_mask (mask : list bool) (l : list A) : list A :=
  match mask, l with
  | b :: m, x :: t => if b then x :: select_mask m t else select_mask m t
  | _, _ => []
  end.
End ListHelpers.

Definition option_eqb {A : Type} (eqb : A -> A -> bool) (x y : option A) : bool :=
  match x, y with
  | Some a, Some b => eqb a b
  | None, None => true
  | _, _ => false
  end.

(** Ascending order with missing values last ([na_position='last']). *)
Definition option_leb {A : Type} (leb : A -> A -> bool) (x y : option A) : bool :=
  match x, y with
  | Some a, Some b => leb a b
  | Some _, None => true
  | None, Some _ => false
  | None, None => true
  end.

Definition isSome {A : Type} (x : option A) : bool :=
  match x with Some _ => true | None => false end.

Definition isNone {A : Type} (x : option A) : bool := negb (isSome x).

(* ------------------------------------------------------------------ *)
(** ** Cells, rows and frames *)

(** A cell of the [TrackStatus] column as [read_csv] can deliver it: missing,
    an integer, a float64 holding an integer of magnitude below 10^16
    (which Python prints as the integer followed by [.0]), or a string. *)
Inductive cell : Type :=
| NA
| CInt (z : Z)
| CFloat (z : Z)
| CStr (s : string).

Definition cell_isna (c : cell) : bool :=
  match c with NA => true | _ => false end.

Definition str_of_Z (z : Z) : string := NilZero.string_of_int (Z.to_int z).

(** [astype(str)] on one cell. *)
Definition astype_str (c : cell) : string :=
  match c with
  | NA => "<NA>"
  | CInt z => str_of_Z z
  | CFloat z => str_of_Z z ++ ".0"
  | CStr s => s
  end.

(** [str.isspace] on the code points 0..255. *)
Definition isspace (a : ascii) : bool :=
  let n := nat_of_ascii a in
  (((9 <=? n) && (n <=? 13)) || ((28 <=? n) && (n <=? 32))
   || (n =? 133) || (n =? 160))%nat.

Fixpoint lstrip (s : string) : string :=
  match s with
  | String a t => if isspace a then lstrip t else s
  | EmptyString => EmptyString
  end.

Fixpoint rstrip (s : string) : string :=
  match s with
  | String a t =>
      match rstrip t with
      | EmptyString => if isspace a then EmptyString else String a EmptyString
      | t' => String a t'
      end
  | EmptyString => EmptyString
  end.

(** [str.strip()] *)
Definition strip (s : string) : string := rstrip (lstrip s).

Inductive dtype : Type :=
| object_
| float64
| int64
| bool_
| timedelta64.

(** [dtype.kind] *)
Definition kind (t : dtype) : ascii :=
  match t with
  | object_ => "O"
  | float64 => "f"
  | int64 => "i"
  | bool_ => "b"
  | timedelta64 => "m"
  end%char.

Fixpoint char_in (a : ascii) (s : string) : bool :=
  match s with
  | String b t => Ascii.eqb a b || char_in a t
  | EmptyString => false
  end.

(** One row of the lap table.  [LapTime_s] is the derived column the
    cleaner adds. *)
Record Lap : Type := mkLap {
  Driver : option string;
  Team : option string;
  LapNumber : option Z;
  LapTime : option Z;
  Compound : option string;
  Stint : option Z;
  TyreLife : option Q;
  PitInTime : option Z;
  PitOutTime : option Z;
  TrackStatus : cell;
  FreshTyre : option bool;
  Time : option Z;
  LapTime_s : option Q
}.

Definition Row : Type := (Z * Lap)%type.

Record DataFrame : Type := mkDF {
  columns : list (string * dtype);
  rows : list Row
}.

Definition index (df : DataFrame) : list Z := map fst (rows df).

Definition has_column (c : string) (df : DataFrame) : bool :=
  existsb (fun cd => String.eqb c (fst cd)) (columns df).

Fixpoint lookup_dtype (c : string) (cs : list (string * dtype)) : option dtype :=
  match cs with
  | [] => None
  | (n, t) :: rest => if String.eqb c n then Some t else lookup_dtype c rest
  end.

Fixpoint set_dtype (c : string) (t : dtype) (cs : list (string * dtype))
  : list (string * dtype) :=
  match cs with
  | [] => [(c, t)]
  | (n, u) :: rest => if String.eqb c n then (n, t) :: rest
                      else (n, u) :: set_dtype c t rest
  end.

(** A Series as the code sees it: its dtype and its values in row order. *)
Record Series (A : Type) : Type := mkSeries {
  s_dtype : dtype;
  s_values : list A
}.

Arguments mkSeries {A} _ _.
Arguments s_dtype {A} _.
Arguments s_values {A} _.

(** [df[c]]: a [KeyError] when the column is absent. *)
Definition column {A : Type} (c : string) (f : Lap -> A) (df : DataFrame)
  : result (Series A) :=
  match lookup_dtype c (columns df) with
  | Some t => Ok (mkSeries t (map (fun r => f (snd r)) (rows df)))
  | None => Raise (KeyError c)
  end.

(** [df.loc[mask]] with a boolean mask computed from [df] itself. *)
Definition loc_mask (df : DataFrame) (mask : list bool) : DataFrame :=
  mkDF (columns df) (select_mask mask (rows df)).

(** [df.loc[labels]] with a list of labels: for each requested label, in
    the order requested, every row carrying it. *)
Definition loc_labels (df : DataFrame) (labels : list Z) : DataFrame :=
  mkDF (columns df)
       (flat_map (fun l => filter (fun r => Z.eqb (fst r) l) (rows df)) labels).

(** [a.intersection(b)]: the distinct labels of [a] that occur in [b], in
    the order of [a]. *)
Definition index_intersection (a b : list Z) : list Z :=
  filter (fun l => mem_by Z.eqb l b) (unique_by Z.eqb a).

Fixpoint map2 {A B C : Type} (f : A -> B -> C) (l : list A) (m : list B) : list C :=
  match l, m with
  | x :: l', y :: m' => f x y :: map2 f l' m'
  | _, _ => []
  end.

(** Field updates of a row. *)
Definition with_LapTime_s (v : option Q) (r : Lap) : Lap :=
  mkLap (Driver r) (Team r) (LapNumber r) (LapTime r) (Compound r) (Stint r)
        (TyreLife r) (PitInTime r) (PitOutTime r) (TrackStatus r)
        (FreshTyre r) (Time r) v.

Definition with_TyreLife (v : option Q) (r : Lap) : Lap :=
  mkLap (Driver r) (Team r) (LapNumber r) (LapTime r) (Compound r) (Stint r)
        v (PitInTime r) (PitOutTime r) (TrackStatus r)
        (FreshTyre r) (Time r) (LapTime_s r).

(** The value of column [c] replaced by the missing value; a name that is
    not a field of [Lap] leaves the row as it is. *)
Definition set_missing (c : string) (r : Lap) : Lap :=
  if String.eqb c "Driver" then
    mkLap None (Team r) (LapNumber r) (LapTime r) (Compound r) (Stint r)
          (TyreLife r) (PitInTime r) (PitOutTime r) (TrackStatus r)
          (FreshTyre r) (Time r) (LapTime_s r)
  else if String.eqb c "Team" then
    mkLap (Driver r) None (LapNumber r) (LapTime r) (Compound r) (Stint r)
          (TyreLife r) (PitInTime r) (PitOutTime r) (TrackStatus r)
          (FreshTyre r) (Time r) (LapTime_s r)
  else if String.eqb c "LapNumber" then
    mkLap (Driver r) (Team r) None (LapTime r) (Compound r) (Stint r)
          (TyreLife r) (PitInTime r) (PitOutTime r) (TrackStatus r)
          (FreshTyre r) (Time r) (LapTime_s r)
  else if String.eqb c "LapTime" then
    mkLap (Driver r) (Team r) (LapNumber r) None (Compound r) (Stint r)
          (TyreLife r) (PitInTime r) (PitOutTime r) (TrackStatus r)
          (FreshTyre r) (Time r) (LapTime_s r)
  else if String.eqb c "Compound" then
    mkLap (Driver r) (Team r) (LapNumber r) (LapTime r) None (Stint r)
          (TyreLife r) (PitInTime r) (PitOutTime r) (TrackStatus r)
          (FreshTyre r) (Time r) (LapTime_s r)
  else if String.eqb c "Stint" then
    mkLap (Driver r) (Team r) (LapNumber r) (LapTime r) (Compound r) None
          (TyreLife r) (PitInTime r) (PitOutTime r) (TrackStatus r)
          (FreshTyre r) (Time r) (LapTime_s r)
  else if String.eqb c "TyreLife" then with_TyreLife None r
  else if String.eqb c "PitInTime" then
    mkLap (Driver r) (Team r) (LapNumber r) (LapTime r) (Compound r) (Stint r)
          (TyreLife r) None (PitOutTime r) (TrackStatus r)
          (FreshTyre r) (Time r) (LapTime_s r)
  else if String.eqb c "PitOutTime" then
    mkLap (Driver r) (Team r) (LapNumber r) (LapTime r) (Compound r) (Stint r)
          (TyreLife r) (PitInTime r) None (TrackStatus r)
          (FreshTyre r) (Time r) (LapTime_s r)
  else if String.eqb c "TrackStatus" then
    mkLap (Driver r) (Team r) (LapNumber r) (LapTime r) (Compound r) (Stint r)
          (TyreLife r) (PitInTime r) (PitOutTime r) NA
          (FreshTyre r) (Time r) (LapTime_s r)
  else r.

(** [df[c] = pd.NA]: an object column holding the missing value in every
    row. *)
Definition assign_NA (c : string) (df : DataFrame) : DataFrame :=
  mkDF (set_dtype c object_ (columns df))
       (map (fun r => (fst r, set_missing c (snd r))) (rows df)).

(** [df["LapTime_s"] = s] and [df["TyreLife"] = s], the series coming from
    [df] itself (same rows, same order). *)
Definition assign_LapTime_s (df : DataFrame) (s : Series (option Q)) : DataFrame :=
  mkDF (set_dtype "LapTime_s" (s_dtype s) (columns df))
       (map2 (fun r v => (fst r, with_LapTime_s v (snd r))) (rows df) (s_values s)).

Definition assign_TyreLife (df : DataFrame) (s : Series (option Q)) : DataFrame :=
  mkDF (set_dtype "TyreLife" (s_dtype s) (columns df))
       (map2 (fun r v => (fst r, with_TyreLife v (snd r))) (rows df) (s_values s)).

(* ------------------------------------------------------------------ *)
(** ** Numerics *)

(** [Timedelta.total_seconds()]: nanoseconds to seconds. *)
Definition total_seconds (ns : Z) : Q := Qmake ns 1000000000.

(** [.dt.total_seconds()]: the [.dt] accessor exists only on a
    datetime-like column. *)
Definition dt_total_seconds (s : Series (option Z)) : result (Series (option Q)) :=
  match s_dtype s with
  | timedelta64 =>
      Ok (mkSeries float64 (map (option_map total_seconds) (s_values s)))
  | _ => Raise (AttributeError "Can only use .dt accessor with datetimelike values")
  end.

Definition nthQ (l : list Q) (i : Z) : Q := nth (Z.to_nat i) l 0%Q.

(** numpy's [_lerp]: [a + (b - a) * t], recomputed from [b] when
    [t >= 0.5]. *)
Definition lerp (a b t : Q) : Q :=
  if Qle_bool (1 # 2) t then (b - (b - a) * (1 - t))%Q
  else (a + (b - a) * t)%Q.

(** [np.percentile(a, q)] with the default method (linear): the virtual index
    [(n - 1) * q / 100] into the sorted sample, interpolated between its two
    neighbours; an index at or above [n - 1] yields the last element. *)
Definition percentile (a : list Q) (q : Q) : Q :=
  let arr := sort_by Qle_bool a in
  let n := Z.of_nat (List.length arr) in
  let virtual_index := (inject_Z (n - 1) * (q / 100))%Q in
  let previous_index := Qfloor virtual_index in
  if Qle_bool (inject_Z (n - 1)) virtual_index then nthQ arr (n - 1)
  else lerp (nthQ arr previous_index) (nthQ arr (previous_index + 1))
            (virtual_index - inject_Z previous_index)%Q.

(* ------------------------------------------------------------------ *)
(** ** scripts/02_analyze_stints.py: the row filters *)

(** [is_green(track_status)]: element-wise on the column. *)
Definition is_green (track_status : Series cell) : list bool :=
  let s := map (fun c => strip (astype_str c)) (s_values track_status) in
  map2 orb (map cell_isna (s_values track_status))
           (map (fun v => String.eqb v "1") s).

Definition drop_in_out (df : DataFrame) : result DataFrame :=
  po <- column "PitOutTime" PitOutTime df ;;
  pi <- column "PitInTime" PitInTime df ;;
  Ok (loc_mask df (map2 andb (map isNone (s_values po)) (map isNone (s_values pi)))).

(** [groupby(key)] iterated: the distinct keys in ascending order, each
    with its rows in frame order. *)
Definition groupby {K : Type} (eqb leb : K -> K -> bool) (key : Lap -> K)
    (rs : list Row) : list (K * list Row) :=
  map (fun k => (k, filter (fun r => eqb (key (snd r)) k) rs))
      (sort_by leb (unique_by eqb (map (fun r => key (snd r)) rs))).

Definition key_eqb : option string -> option string -> bool := option_eqb String.eqb.
Definition key_leb : option string -> option string -> bool := option_leb String.leb.

(** [g.dropna(subset=["LapTime_s"])] *)
Definition dropna_LapTime_s (g : list Row) : list Row :=
  filter (fun r => isSome (LapTime_s (snd r))) g.

(** The non-missing values of [LapTime_s] of a group. *)
Definition lap_seconds (g : list Row) : list Q :=
  flat_map (fun r => match LapTime_s (snd r) with Some v => [v] | None => [] end) g.

Definition fence_of (gt : list Row) : Q :=
  let q1 := percentile (lap_seconds gt) 25 in
  let q3 := percentile (lap_seconds gt) 75 in
  (q3 + (3 # 2) * (q3 - q1))%Q.

Definition le_fence (fence : Q) (r : Row) : bool :=
  match LapTime_s (snd r) with
  | Some v => Qle_bool v fence
  | None => false
  end.

(** One turn of the loop over driver groups: what is appended to
    [keep_idx] (nothing for a group without a valid lap time). *)
Definition keep_of_group (g : list Row) : list (list Z) :=
  match dropna_LapTime_s g with
  | [] => []
  | gt => [map fst (filter (le_fence (fence_of gt)) gt)]
  end.

Definition per_driver_pace_filter (df : DataFrame) : result DataFrame :=
  lt <- column "LapTime" LapTime df ;;
  secs <- dt_total_seconds lt ;;
  let x := assign_LapTime_s df secs in
  drv <- column "Driver" Driver x ;;
  let keep_idx :=
    flat_map (fun kg => keep_of_group (snd kg))
             (groupby key_eqb key_leb Driver (rows x)) in
  let keep :=
    match keep_idx with
    | [] => index x
    | _ => index_intersection (index x) (List.concat keep_idx)
    end in
  Ok (loc_labels x keep).

(* ------------------------------------------------------------------ *)
(** ** scripts/02_analyze_stints.py: clean_laps *)

Definition need : list string :=
  ["Driver"; "Team"; "LapNumber"; "LapTime"; "Compound"; "Stint"; "TyreLife";
   "PitInTime"; "PitOutTime"; "TrackStatus"].

(** [pd.to_numeric(s, errors="coerce")].  Values of the column are carried
    already parsed (a cell that is no number is [None]), so only the dtype
    changes. *)
Definition to_numeric (s : Series (option Q)) : Series (option Q) :=
  mkSeries float64 (s_values s).

(** One turn of the loop over [need]. *)
Definition ensure_column (d : DataFrame) (c : string) : DataFrame :=
  if has_column c d then d else assign_NA c d.

Definition synthesize (df : DataFrame) : DataFrame :=
  fold_left ensure_column need df.

Definition clean_laps (df0 : DataFrame) : result DataFrame :=
  let df := synthesize df0 in
  lt <- column "LapTime" LapTime df ;;
  let df := loc_mask df (map isSome (s_values lt)) in
  ts <- column "TrackStatus" TrackStatus df ;;
  let df := loc_mask df (is_green ts) in
  df <- drop_in_out df ;;
  df <- per_driver_pace_filter df ;;
  tl <- column "TyreLife" TyreLife df ;;
  let df := if char_in (kind (s_dtype tl)) "fi" then df
            else assign_TyreLife df (to_numeric tl) in
  lt <- column "LapTime" LapTime df ;;
  secs <- dt_total_seconds lt ;;
  Ok (assign_LapTime_s df secs).

(* ------------------------------------------------------------------ *)
(** ** scripts/02_analyze_stints.py: stint_summary *)

Record StintRow : Type := mkStint {
  st_Driver : option string;
  st_Stint : option Z;
  st_Compound : option string;
  laps : Z;
  start_lap : option Z;
  end_lap : option Z;
  mean_pace_s : option Q;
  median_pace_s : option Q
}.

Definition StintKey : Type := (option string * option Z * option string)%type.

Definition stint_key (r : Lap) : StintKey := (Driver r, Stint r, Compound r).

Definition stint_key_eqb (a b : StintKey) : bool :=
  let '(d1, s1, c1) := a in
  let '(d2, s2, c2) := b in
  key_eqb d1 d2 && option_eqb Z.eqb s1 s2 && key_eqb c1 c2.

(** Lexicographic order on the three keys, a missing key after every
    present one. *)
Definition stint_key_leb (a b : StintKey) : bool :=
  let '(d1, s1, c1) := a in
  let '(d2, s2, c2) := b in
  if key_eqb d1 d2 then
    if option_eqb Z.eqb s1 s2 then key_leb c1 c2
    else option_leb Z.leb s1 s2
  else key_leb d1 d2.

(** The non-missing values of a column of a group. *)
Definition present {A : Type} (f : Lap -> option A) (g : list Row) : list A :=
  flat_map (fun r => match f (snd r) with Some v => [v] | None => [] end) g.

(** The aggregations; each skips missing values, and all but [count]
    are missing on a group without values. *)
Definition agg_count {A : Type} (vs : list A) : Z := Z.of_nat (List.length vs).

Definition agg_min (vs : list Z) : option Z :=
  match vs with
  | [] => None
  | v :: t => Some (fold_left Z.min t v)
  end.

Definition agg_max (vs : list Z) : option Z :=
  match vs with
  | [] => None
  | v :: t => Some (fold_left Z.max t v)
  end.

Definition Qsum (vs : list Q) : Q := fold_left Qplus vs 0%Q.

Definition agg_mean (vs : list Q) : option Q :=
  match vs with
  | [] => None
  | _ => Some (Qsum vs / inject_Z (Z.of_nat (List.length vs)))%Q
  end.

Definition agg_median (vs : list Q) : option Q :=
  match vs with
  | [] => None
  | _ =>
      let s := sort_by Qle_bool vs in
      let n := List.length s in
      if Nat.even n
      then Some ((nth (n / 2 - 1) s 0%Q + nth (n / 2) s 0%Q) / 2)%Q
      else Some (nth (n / 2) s 0%Q)
  end.

Definition summarize (kg : StintKey * list Row) : StintRow :=
  let '(d, s, c) := fst kg in
  let g := snd kg in
  mkStint d s c
          (agg_count (present LapNumber g))
          (agg_min (present LapNumber g))
          (agg_max (present LapNumber g))
          (agg_mean (present LapTime_s g))
          (agg_median (present LapTime_s g)).

(** [sort_values(["Driver", "Stint"])] *)
Definition driver_stint_leb (a b : StintRow) : bool :=
  if key_eqb (st_Driver a) (st_Driver b)
  then option_leb Z.leb (st_Stint a) (st_Stint b)
  else key_leb (st_Driver a) (st_Driver b).

(** [df.groupby(by)] and the aggregation look their columns up by name. *)
Definition require_columns (cs : list string) (df : DataFrame) : result unit :=
  fold_left (fun acc c => _ <- acc ;;
                          if has_column c df then Ok tt else Raise (KeyError c))
            cs (Ok tt).

Definition stint_summary (df : DataFrame) : result (list StintRow) :=
  _ <- require_columns ["Driver"; "Stint"; "Compound"; "LapNumber"; "LapTime_s"] df ;;
  let g := groupby stint_key_eqb stint_key_leb stint_key (rows df) in
  let out := map summarize g in
  Ok (sort_by driver_stint_leb out).

(* ------------------------------------------------------------------ *)
(** ** scripts/02_analyze_stints.py: simple_deg_fit, read_laps, main *)

Record FitRow : Type := mkFit {
  f_Compound : string;
  intercept_s : Q;
  slope_s_per_lap : Q;
  n : Z;
  rmse_s : Q
}.

(** What [main] writes with [to_csv]. *)
Inductive table : Type :=
| CleanLaps (df : DataFrame)
| StintSummary (st : list StintRow)
| DegFit (deg : list FitRow).

(** The process as [main] changes it: the two output streams and the
    files written, each in order. *)
Record Proc : Type := mkProc {
  stdout : list string;
  stderr : list string;
  files : list (string * table)
}.

Definition IO (A : Type) : Type := Proc -> result A * Proc.

Definition io_ret {A : Type} (a : A) : IO A := fun p => (Ok a, p).

Definition io_bind {A B : Type} (m : IO A) (k : A -> IO B) : IO B :=
  fun p => match m p with
           | (Ok a, p') => k a p'
           | (Raise e, p') => (Raise e, p')
           end.

Definition io_lift {A : Type} (r : result A) : IO A := fun p => (r, p).

Notation "x <~ m ;; k" := (io_bind m (fun x => k))
  (at level 61, m at next level, right associativity).

Definition print (line : string) : IO unit :=
  fun p => (Ok tt, mkProc (stdout p ++ [line]) (stderr p) (files p)).

Definition print_stderr (line : string) : Proc -> Proc :=
  fun p => mkProc (stdout p) (stderr p ++ [line]) (files p).

(** What the job finds outside the process: the outcome of creating the
    output directory, whether the raw lap file exists, what [read_csv]
    returns for it, and the outcome of each [to_csv]. *)
Record World : Type := mkWorld {
  mkdir_out : option exn;
  raw_exists : bool;
  read_csv : result DataFrame;
  to_csv_fails : string -> option exn
}.

Definition to_csv (w : World) (name : string) (t : table) : IO unit :=
  fun p => match to_csv_fails w name with
           | Some e => (Raise e, p)
           | None => (Ok tt, mkProc (stdout p) (stderr p) (files p ++ [(name, t)]))
           end.

(** [pd.to_timedelta(df[col], errors="coerce")] assigned back: durations
    are carried already parsed (an unparsable cell is [None]), so only
    the dtype changes. *)
Definition to_timedelta_col (df : DataFrame) (col : string) : DataFrame :=
  if has_column col df
  then mkDF (set_dtype col timedelta64 (columns df)) (rows df)
  else df.

Definition read_laps (w : World) : result DataFrame :=
  if negb (raw_exists w)
  then Raise (FileNotFoundError "raw laps not found; run scripts/01_fetch_data.py first")
  else
    df <- read_csv w ;;
    Ok (fold_left to_timedelta_col ["LapTime"; "Time"; "PitInTime"; "PitOutTime"] df).

Definition eqbQ_dedup (vs : list Q) : list Q := unique_by Qeq_bool vs.

(** [Series.nunique()] on a column without missing values. *)
Definition nunique (vs : list Q) : nat := List.length (eqbQ_dedup vs).

Definition fit_leb (a b : FitRow) : bool := String.leb (f_Compound a) (f_Compound b).

Section Numerics.
(** Library numerics the claims do not depend on: [np.polyfit(x, y, 1)]
    returning slope and intercept, [np.sqrt], and fixed-point
    formatting [f"{v:.Nf}"]. *)
Variable polyfit1 : list Q -> list Q -> Q * Q.
Variable sqrt : Q -> Q.
Variable format_f : nat -> Q -> string.

Definition fit_group (comp : string) (g : list Row) : FitRow :=
  let x := present TyreLife g in
  let y := present LapTime_s g in
  let '(b, a) := polyfit1 x y in
  let yhat := map (fun xi => a + b * xi)%Q x in
  let sq := map2 (fun yi yh => (yi - yh) * (yi - yh))%Q y yhat in
  let rmse := sqrt (Qsum sq / inject_Z (Z.of_nat (List.length sq)))%Q in
  mkFit comp a b (Z.of_nat (List.length g)) rmse.

(** One turn of the loop over compound groups: what is appended to
    [results]. *)
Definition fit_of_group (kg : option string * list Row) : list FitRow :=
  match fst kg with
  | None => []
  | Some comp =>
      let g := snd kg in
      if (List.length g <? 20)%nat || (nunique (present TyreLife g) <? 3)%nat
      then []
      else [fit_group comp g]
  end.

(** [df.dropna(subset=["LapTime_s", "TyreLife", "Compound"])] *)
Definition dropna_fit (rs : list Row) : list Row :=
  filter (fun r => isSome (LapTime_s (snd r)) && isSome (TyreLife (snd r))
                   && isSome (Compound (snd r))) rs.

Definition simple_deg_fit (df : DataFrame) : result (list FitRow) :=
  _ <- require_columns ["LapTime_s"; "TyreLife"; "Compound"] df ;;
  let z := dropna_fit (rows df) in
  let results :=
    flat_map fit_of_group (groupby key_eqb key_leb Compound z) in
  match results with
  | [] => Raise (KeyError "Compound")
  | _ => Ok (sort_by fit_leb results)
  end.

Definition len_str {A : Type} (l : list A) : string :=
  str_of_Z (Z.of_nat (List.length l)).

Definition fit_line (r : FitRow) : string :=
  "  " ++ f_Compound r ++ ": slope " ++ format_f 4 (slope_s_per_lap r)
  ++ " s/lap-age, rmse " ++ format_f 3 (rmse_s r) ++ ", n=" ++ str_of_Z (n r).

Fixpoint print_all (ls : list string) : IO unit :=
  match ls with
  | [] => io_ret tt
  | l :: t => _ <~ print l ;; print_all t
  end.

(** The body of [main]'s [try]. *)
Definition job (w : World) : IO unit :=
  _ <~ io_lift (match mkdir_out w with Some e => Raise e | None => Ok tt end) ;;
  raw <~ io_lift (read_laps w) ;;
  cl <~ io_lift (clean_laps raw) ;;
  st <~ io_lift (stint_summary cl) ;;
  deg <~ io_lift (simple_deg_fit cl) ;;
  _ <~ to_csv w "clean_laps_hun_2022.csv" (CleanLaps cl) ;;
  _ <~ to_csv w "stint_summary_hun_2022.csv" (StintSummary st) ;;
  _ <~ to_csv w "deg_compound_fit_hun_2022.csv" (DegFit deg) ;;
  _ <~ print ("ok: clean laps -> data/processed/clean_laps_hun_2022.csv ["
              ++ len_str (rows cl) ++ " rows]") ;;
  _ <~ print ("ok: stint summary -> data/processed/stint_summary_hun_2022.csv ["
              ++ len_str st ++ " rows]") ;;
  _ <~ print "ok: degradation fit -> data/processed/deg_compound_fit_hun_2022.csv" ;;
  print_all (map fit_line deg).

(** [main]: the process after the run and its exit status. *)
Definition main (w : World) : Proc * Z :=
  match job w (mkProc [] [] []) with
  | (Ok _, p) => (p, 0%Z)
  | (Raise e, p) => (print_stderr ("error: " ++ exn_str e) p, 1%Z)
  end.
End Numerics.

(* ------------------------------------------------------------------ *)
(** ** scripts/01_fetch_data.py: pit_table_from_laps *)

(** One row of the pit-stop table, after the renaming of [LapNumber],
    [PitInTime] and [PitOutTime].  A field whose column is not listed in
    [pit_columns] is not part of the table. *)
Record PitStop : Type := mkPit {
  p_Driver : option string;
  p_Team : option string;
  Stop : option Z;
  InLap : option Z;
  InTime : option Z;
  OutTime : option Z;
  p_Stint : option Z;
  p_Compound : option string;
  p_TyreLife : option Q;
  p_FreshTyre : option bool;
  p_Time : option Z;
  p_LapTime : option Z
}.

Record PitTable : Type := mkPitTable {
  pit_columns : list string;
  pit_rows : list (Z * PitStop)
}.

Definition pit_cols : list string :=
  ["Driver"; "Team"; "LapNumber"; "PitInTime"; "PitOutTime";
   "Stint"; "Compound"; "TyreLife"; "FreshTyre"; "Time"; "LapTime"].

Definition rename_col (c : string) : string :=
  if String.eqb c "LapNumber" then "InLap"
  else if String.eqb c "PitInTime" then "InTime"
  else if String.eqb c "PitOutTime" then "OutTime"
  else c.

Definition str_in (c : string) (cs : list string) : bool := mem_by String.eqb c cs.

(** The first name of [cs] that is no column of [names] raises. *)
Fixpoint require_names (cs names : list string) : result unit :=
  match cs with
  | [] => Ok tt
  | c :: t => if str_in c names then require_names t names else Raise (KeyError c)
  end.

(** [sort_values(["Driver", "InLap"])]: ascending, missing values last. *)
Definition pit_leb (a b : Row) : bool :=
  if key_eqb (Driver (snd a)) (Driver (snd b))
  then option_leb Z.leb (LapNumber (snd a)) (LapNumber (snd b))
  else key_leb (Driver (snd a)) (Driver (snd b)).

(** [groupby("Driver").cumcount()]: for each row the number of earlier rows
    of its driver; missing for a row without driver. *)
Fixpoint cumcount (seen ks : list (option string)) : list (option Z) :=
  match ks with
  | [] => []
  | k :: t =>
      match k with
      | None => None
      | Some _ => Some (Z.of_nat (List.length (filter (key_eqb k) seen)))
      end :: cumcount (k :: seen) t
  end.

Definition mk_pit (r : Row) (stop : option Z) : Z * PitStop :=
  (fst r,
   mkPit (Driver (snd r)) (Team (snd r)) stop (LapNumber (snd r))
         (PitInTime (snd r)) (PitOutTime (snd r)) (Stint (snd r))
         (Compound (snd r)) (TyreLife (snd r)) (FreshTyre (snd r))
         (Time (snd r)) (LapTime (snd r))).

Definition pit_order : list string :=
  ["Driver"; "Team"; "Stop"; "InLap"; "InTime"; "OutTime"].

Definition pit_table_from_laps (laps : DataFrame) : result PitTable :=
  let cols := filter (fun c => has_column c laps) pit_cols in
  pit_in <-
    match lookup_dtype "PitInTime" (columns laps) with
    | Some t => Ok (mkSeries t (map (fun r => PitInTime (snd r)) (rows laps)))
    | None => Raise (AttributeError "'NoneType' object has no attribute 'notna'")
    end ;;
  let pitlaps := select_mask (map isSome (s_values pit_in)) (rows laps) in
  let names := map rename_col cols in
  _ <- require_names ["Driver"; "InLap"] names ;;
  let sorted := sort_by pit_leb pitlaps in
  let stop :=
    map (option_map (fun c => c + 1)%Z)
        (cumcount [] (map (fun r => Driver (snd r)) sorted)) in
  let names := names ++ ["Stop"] in
  let order :=
    pit_order ++ filter (fun c => negb (str_in c pit_order)) names in
  _ <- require_names order names ;;
  Ok (mkPitTable order (map2 mk_pit sorted stop)).

(* ------------------------------------------------------------------ *)
(** ** The pace filter in the words of the specification *)

(** Linear interpolation in a sorted sample [s] at the real position [h]. *)
Definition interp (s : list Q) (h : Q) : Q :=
  let i := Qfloor h in
  (nthQ s i + (h - inject_Z i) * (nthQ s (i + 1) - nthQ s i))%Q.

(** The quantile of order [p] by linear interpolation on the sorted
    sample. *)
Definition quantile_linear (sample : list Q) (p : Q) : Q :=
  let s := sort_by Qle_bool sample in
  interp s (inject_Z (Z.of_nat (List.length s) - 1) * p)%Q.

(** Tukey's upper fence: Q3 + 1.5 * (Q3 - Q1). *)
Definition tukey_fence (sample : list Q) : Q :=
  let q1 := quantile_linear sample (1 # 4) in
  let q3 := quantile_linear sample (3 # 4) in
  (q3 + (3 # 2) * (q3 - q1))%Q.

(** The lap times in seconds of driver [d], rows without lap time
    dropped. *)
Definition driver_times (rs : list Row) (d : option string) : list Q :=
  flat_map (fun r =>
              if key_eqb (Driver (snd r)) d
              then match LapTime (snd r) with
                   | Some t => [total_seconds t]
                   | None => []
                   end
              else []) rs.

(** A row is within the fence of its own driver. *)
Definition within_fence (rs : list Row) (r : Row) : bool :=
  match LapTime (snd r) with
  | Some t => Qle_bool (total_seconds t)
                       (tukey_fence (driver_times rs (Driver (snd r))))
  | None => false
  end.

(** A row with its derived [LapTime_s]. *)
Definition add_seconds (r : Row) : Row :=
  (fst r, with_LapTime_s (option_map total_seconds (LapTime (snd r))) (snd r)).

Definition driver_rows (d : option string) (rs : list Row) : list Row :=
  filter (fun r => key_eqb (Driver (snd r)) d) rs.

(** The list [keep_idx] the loop of [per_driver_pace_filter] builds over
    the rows [xr] of [x], and the frame [x] itself. *)
Definition pace_keep_idx (xr : list Row) : list (list Z) :=
  flat_map (fun kg => keep_of_group (snd kg))
           (groupby key_eqb key_leb Driver xr).

Definition with_seconds (df : DataFrame) : DataFrame :=
  mkDF (set_dtype "LapTime_s" float64 (columns df)) (map add_seconds (rows df)).

(** A row of [x] passes the fence its own group computes. *)
Definition group_keep (xr : list Row) (r : Row) : bool :=
  le_fence (fence_of (dropna_LapTime_s (driver_rows (Driver (snd r)) xr))) r.

(** ** The row filters of [clean_laps] as predicates on one row *)

(** Green flag: the status is missing, or its trimmed string form is
    ["1"]. *)
Definition green_row (r : Row) : bool :=
  cell_isna (TrackStatus (snd r))
  || String.eqb (strip (astype_str (TrackStatus (snd r)))) "1".

(** Neither an in-lap nor an out-lap. *)
Definition no_pit_row (r : Row) : bool :=
  isNone (PitOutTime (snd r)) && isNone (PitInTime (snd r)).

Definition timed_row (r : Row) : bool := isSome (LapTime (snd r)).

(** The rows that reach the pace filter. *)
Definition candidate_rows (df : DataFrame) : list Row :=
  filter no_pit_row (filter green_row (filter timed_row (rows (synthesize df)))).

(** A status cell that counts as green. *)
Definition green_status (c : cell) : Prop :=
  c = NA \/ strip (astype_str c) = "1".

(** ** Per-driver totals of the stint summary *)

Definition Zsum (l : list Z) : Z := fold_right Z.add 0%Z l.

(** The sum of the [laps] column over the summary rows of driver [d]. *)
Definition laps_of_driver (d : option string) (st : list StintRow) : Z :=
  Zsum (map laps (filter (fun s => key_eqb (st_Driver s) d) st)).

Definition has_lap_number (r : Row) : bool := isSome (LapNumber (snd r)).

Definition stint_columns : list string :=
  ["Driver"; "Stint"; "Compound"; "LapNumber"; "LapTime_s"].

(** ** Compound groups of the degradation fit *)

(** The rows of compound [comp] that have lap time, tyre age and
    compound. *)
Definition compound_group (rs : list Row) (comp : string) : list Row :=
  filter (fun r => key_eqb (Compound (snd r)) (Some comp)) (dropna_fit rs).

(** At least 20 rows and at least 3 distinct tyre ages. *)
Definition qualifies (rs : list Row) (comp : string) : bool :=
  (20 <=? List.length (compound_group rs comp))%nat
  && (3 <=? nunique (present TyreLife (compound_group rs comp)))%nat.

Definition fit_columns : list string := ["LapTime_s"; "TyreLife"; "Compound"].

(** ** The messages of [main] *)

Definition raw_not_found : string :=
  "raw laps not found; run scripts/01_fetch_data.py first".

(** The process after the handler printed [e] on a run that had written
    nothing yet. *)
Definition failed_with (e : exn) : Proc * Z :=
  (mkProc [] [("error: " ++ exn_str e)%string] [], 1%Z).

(** ** The pit-stop table read per driver *)

(** The order of [sort_values(["Driver", "InLap"])] on rows of the pit
    table. *)
Definition pit_stop_leb (p q : Z * PitStop) : bool :=
  if key_eqb (p_Driver (snd p)) (p_Driver (snd q))
  then option_leb Z.leb (InLap (snd p)) (InLap (snd q))
  else key_leb (p_Driver (snd p)) (p_Driver (snd q)).

Definition in_lap_row (r : Row) : bool := isSome (PitInTime (snd r)).

(** The rows of the pit table of driver [d], in table order. *)
Definition stops_of_driver (d : string) (pt : PitTable) : list (Z * PitStop) :=
  filter (fun p => key_eqb (p_Driver (snd p)) (Some d)) (pit_rows pt).

Definition pit_required : list string :=
  ["Driver"; "Team"; "LapNumber"; "PitInTime"; "PitOutTime"].

(** How many of the keys seen so far are driver [d]. *)
Definition seen_count (d : string) (seen : list (option string)) : nat :=
  List.length (filter (key_eqb (Some d)) seen).

(** The last position of a sample. *)
Definition last_index (s : list Q) : Z := (Z.of_nat (List.length s) - 1)%Z.

(** What the group of key [k] adds to the lap total of driver [d], and what
    one row adds to it. *)
Definition share (d : option string) (rs : list Row) (k : StintKey) : Z :=
  if key_eqb (fst (fst k)) d
  then Z.of_nat (List.length
                   (present LapNumber
                      (filter (fun r => stint_key_eqb (stint_key (snd r)) k) rs)))
  else 0%Z.

Definition unit_share (d : option string) (r : Row) (k : StintKey) : Z :=
  if stint_key_eqb (stint_key (snd r)) k
  then (if key_eqb (fst (fst k)) d && has_lap_number r then 1 else 0)%Z
  else 0%Z.

From Stdlib Require DecimalZ.

(* ------------------------------------------------------------------ *)
(** ** Further vocabulary for the properties of the cleaning job *)

Definition dt_error : exn :=
  AttributeError "Can only use .dt accessor with datetimelike values".

(** The field of column [c] of a row is the missing value ([c] one of the
    columns of [need]). *)
Definition field_missing (c : string) (r : Lap) : bool :=
  if String.eqb c "Driver" then isNone (Driver r)
  else if String.eqb c "Team" then isNone (Team r)
  else if String.eqb c "LapNumber" then isNone (LapNumber r)
  else if String.eqb c "LapTime" then isNone (LapTime r)
  else if String.eqb c "Compound" then isNone (Compound r)
  else if String.eqb c "Stint" then isNone (Stint r)
  else if String.eqb c "TyreLife" then isNone (TyreLife r)
  else if String.eqb c "PitInTime" then isNone (PitInTime r)
  else if String.eqb c "PitOutTime" then isNone (PitOutTime r)
  else if String.eqb c "TrackStatus" then cell_isna (TrackStatus r)
  else false.

(** The lap times in seconds of driver [d] that a table holds. *)
Definition timed_laps (d : option string) (rs : list Row) : list Row :=
  filter timed_row (driver_rows d rs).

(** The columns [read_laps] turns into durations. *)
Definition duration_columns : list string :=
  ["LapTime"; "Time"; "PitInTime"; "PitOutTime"].

(** No character of the string is white space. *)
Fixpoint no_space (s : string) : bool :=
  match s with
  | EmptyString => true
  | String a t => negb (isspace a) && no_space t
  end.

(** What [is_green] answers for one cell, by the kind of cell. *)
Definition green_cell (c : cell) : bool :=
  match c with
  | NA => true
  | CInt z => Z.eqb z 1
  | CFloat _ => false
  | CStr s => String.eqb (strip s) "1"
  end.

(** The grouping key a summary row stands for. *)
Definition row_key (s : StintRow) : StintKey :=
  (st_Driver s, st_Stint s, st_Compound s).

(** The rows of a table that fall in the group of a summary row. *)
Definition group_of (s : StintRow) (rs : list Row) : list Row :=
  filter (fun r => stint_key_eqb (stint_key (snd r)) (row_key s)) rs.

(** The names of the three files [main] writes, in the order it writes
    them. *)
Definition output_names : list string :=
  ["clean_laps_hun_2022.csv"; "stint_summary_hun_2022.csv";
   "deg_compound_fit_hun_2022.csv"].

(** The columns the pit-stop table carries along when the lap table has
    them. *)
Definition pit_optional : list string :=
  ["Stint"; "Compound"; "TyreLife"; "FreshTyre"; "Time"; "LapTime"].

Definition none_notna : exn :=
  AttributeError "'NoneType' object has no attribute 'notna'".

(** A row of the pit table without its stop number. *)
Definition erase_stop (p : Z * PitStop) : Z * PitStop :=
  (fst p,
   mkPit (p_Driver (snd p)) (p_Team (snd p)) None (InLap (snd p))
         (InTime (snd p)) (OutTime (snd p)) (p_Stint (snd p))
         (p_Compound (snd p)) (p_TyreLife (snd p)) (p_FreshTyre (snd p))
         (p_Time (snd p)) (p_LapTime (snd p))).

(* ------------------------------------------------------------------ *)
(** ** scripts/01_fetch_data.py: ensure_paths, load_race, main *)

(** What the fetch job writes with [to_csv]. *)
Inductive raw_table : Type :=
| RawLaps (laps : DataFrame)
| PitStops (pits : PitTable).

Record FetchProc : Type := mkFetchProc {
  f_stdout : list string;
  f_stderr : list string;
  f_files : list (string * raw_table)
}.

(** What the fetch job finds outside the process: the outcome of creating
    the cache and the output directory, what the timing provider returns as
    [session.laps] for a year, an event and a session code (or the exception
    of enabling the cache, getting or loading the session), and the outcome
    of each [to_csv]. *)
Record FetchWorld : Type := mkFetchWorld {
  mkdir_cache : option exn;
  mkdir_raw : option exn;
  provider : Z -> string -> string -> result DataFrame;
  fetch_to_csv_fails : string -> option exn
}.

Definition FIO (A : Type) : Type := FetchProc -> result A * FetchProc.

Definition fio_bind {A B : Type} (m : FIO A) (k : A -> FIO B) : FIO B :=
  fun p => match m p with
           | (Ok a, p') => k a p'
           | (Raise e, p') => (Raise e, p')
           end.

Definition fio_lift {A : Type} (r : result A) : FIO A := fun p => (r, p).

Notation "x <~~ m ;; k" := (fio_bind m (fun x => k))
  (at level 61, m at next level, right associativity).

Definition fetch_print (line : string) : FIO unit :=
  fun p => (Ok tt, mkFetchProc (f_stdout p ++ [line]) (f_stderr p) (f_files p)).

Definition fetch_to_csv (w : FetchWorld) (name : string) (t : raw_table)
  : FIO unit :=
  fun p => match fetch_to_csv_fails w name with
           | Some e => (Raise e, p)
           | None => (Ok tt,
                      mkFetchProc (f_stdout p) (f_stderr p)
                                  (f_files p ++ [(name, t)]))
           end.

(** [ensure_paths]: the cache directory first, then the output directory. *)
Definition ensure_paths (w : FetchWorld) : result unit :=
  match mkdir_cache w with
  | Some e => Raise e
  | None => match mkdir_raw w with
            | Some e => Raise e
            | None => Ok tt
            end
  end.

(** [load_race(year, grand_prix, session_code, cache)] followed by
    [session.laps]. *)
Definition load_race (w : FetchWorld) (year : Z) (grand_prix session_code : string)
  : result DataFrame :=
  provider w year grand_prix session_code.

Section FetchJob.
(** The text of the [TypeError] Python raises when the driver names hold a
    missing value ([sorted] cannot compare it with a string, [join] cannot
    join it). *)
Variable type_error_text : list (option string) -> string.

(** [", ".join(sorted(laps["Driver"].unique()))] *)
Definition driver_names (laps : DataFrame) : result string :=
  s <- column "Driver" Driver laps ;;
  let u := unique_by key_eqb (s_values s) in
  if forallb isSome u
  then Ok (String.concat ", "
             (sort_by String.leb
                (flat_map (fun d => match d with Some v => [v] | None => [] end) u)))
  else Raise (OtherError "TypeError" (type_error_text u)).

(** The body of the fetcher's [try]. *)
Definition fetch_job (w : FetchWorld) : FIO unit :=
  _ <~~ fio_lift (ensure_paths w) ;;
  laps <~~ fio_lift (load_race w 2022 "Hungary" "R") ;;
  _ <~~ fetch_to_csv w "laps_hun_2022.csv" (RawLaps laps) ;;
  pits <~~ fio_lift (pit_table_from_laps laps) ;;
  _ <~~ fetch_to_csv w "pitstops_hun_2022.csv" (PitStops pits) ;;
  drivers <~~ fio_lift (driver_names laps) ;;
  _ <~~ fetch_print "ok: 2022 Hungarian GP (Race) loaded" ;;
  _ <~~ fetch_print ("ok: laps -> data/raw/laps_hun_2022.csv ["
                     ++ str_of_Z (Z.of_nat (List.length (rows laps))) ++ " rows]") ;;
  _ <~~ fetch_print "ok: pits -> data/raw/pitstops_hun_2022.csv" ;;
  _ <~~ fetch_print ("ok: drivers -> " ++ drivers) ;;
  fetch_print "cache: fastf1_cache".

(** The fetcher's [main]: the process after the run and its exit status. *)
Definition fetch_main (w : FetchWorld) : FetchProc * Z :=
  match fetch_job w (mkFetchProc [] [] []) with
  | (Ok _, p) => (p, 0%Z)
  | (Raise e, p) =>
      (mkFetchProc (f_stdout p) (f_stderr p ++ [("error: " ++ exn_str e)%string])
                   (f_files p), 1%Z)
  end.
End FetchJob.

Definition fetch_names : list string :=
  ["laps_hun_2022.csv"; "pitstops_hun_2022.csv"].

(* ------------------------------------------------------------------ *)
(** ** Sample tables *)

(** The header of a raw lap file as [read_laps] returns it. *)
Definition lap_columns : list (string * dtype) :=
  [("Time", timedelta64); ("Driver", object_); ("LapTime", timedelta64);
   ("LapNumber", float64); ("Stint", float64); ("PitOutTime", timedelta64);
   ("PitInTime", timedelta64); ("Compound", object_); ("TyreLife", float64);
   ("FreshTyre", bool_); ("Team", object_); ("TrackStatus", int64)].

(** A green-flag racing lap: driver, team, lap number, lap time in
    milliseconds, tyre age. *)
Definition racing_lap (d team : string) (lap ms age : Z) : Lap :=
  mkLap (Some d) (Some team) (Some lap) (Some (ms * 1000000)%Z) (Some "SOFT")
        (Some 1%Z) (Some (inject_Z age)) None None (CInt 1) (Some true)
        None None.

(** The same lap without lap time. *)
Definition untimed_lap (d team : string) (lap : Z) : Lap :=
  mkLap (Some d) (Some team) (Some lap) None (Some "SOFT")
        (Some 1%Z) (Some (inject_Z lap)) None None (CInt 1) (Some true)
        None None.

(** Four laps of VER, the last one far off the pace, and one lap of HAM
    without lap time. *)
Definition laps_with_outlier : DataFrame :=
  mkDF lap_columns
       [(0%Z, racing_lap "VER" "Red Bull" 1 80000 1);
        (1%Z, racing_lap "VER" "Red Bull" 2 81000 2);
        (2%Z, racing_lap "VER" "Red Bull" 3 82000 3);
        (3%Z, racing_lap "VER" "Red Bull" 4 200000 4);
        (4%Z, untimed_lap "HAM" "Mercedes" 1)].

(** A table in which no row has a lap time. *)
Definition laps_untimed : DataFrame :=
  mkDF lap_columns
       [(0%Z, untimed_lap "HAM" "Mercedes" 1);
        (1%Z, untimed_lap "VER" "Red Bull" 1)].

Definition one_untimed_lap : DataFrame :=
  mkDF lap_columns [(0%Z, untimed_lap "HAM" "Mercedes" 1)].

(** A lap under the given track status and pit times. *)
Definition lap_with (d : string) (lap ms : Z) (status : cell)
    (pit_in pit_out : option Z) : Lap :=
  mkLap (Some d) (Some "Red Bull") (Some lap) (Some (ms * 1000000)%Z)
        (Some "MEDIUM") (Some 2%Z) (Some (inject_Z lap)) pit_in pit_out status
        (Some false) None None.

(** Laps under green, under safety car (status 4), with a padded status
    string, with a float status, an in-lap and an out-lap. *)
Definition laps_mixed : DataFrame :=
  mkDF lap_columns
       [(0%Z, lap_with "VER" 10 80000 (CInt 1) None None);
        (1%Z, lap_with "VER" 11 95000 (CInt 4) None None);
        (2%Z, lap_with "VER" 12 80500 (CStr " 1 ") None None);
        (3%Z, lap_with "VER" 13 80700 (CFloat 1) None None);
        (4%Z, lap_with "VER" 14 84000 (CInt 1) (Some 4000000000000%Z) None);
        (5%Z, lap_with "VER" 15 99000 (CInt 1) None (Some 4020000000000%Z));
        (6%Z, lap_with "VER" 16 80900 NA None None)].

(** A raw lap table whose file has no [LapTime] column. *)
Definition laps_without_LapTime : DataFrame :=
  mkDF [("Driver", object_); ("LapNumber", float64)]
       [(0%Z, untimed_lap "VER" "Red Bull" 1);
        (1%Z, untimed_lap "VER" "Red Bull" 2)].

(** A raw lap table whose file has no [LapNumber] column. *)
Definition laps_without_LapNumber : DataFrame :=
  mkDF [("Driver", object_); ("LapTime", timedelta64); ("Stint", float64)]
       [(0%Z, racing_lap "VER" "Red Bull" 1 80000 1)].

(** A cleaned table: the cleaning of [laps_with_outlier]. *)
Definition cleaned_laps : DataFrame :=
  match clean_laps laps_with_outlier with
  | Ok cl => cl
  | Raise _ => mkDF [] []
  end.

(** A stint of [k] consecutive green laps of VER on one set of soft tyres,
    each a tenth slower than the one before. *)
Definition soft_stint (k : nat) : list Row :=
  map (fun i => (Z.of_nat i,
                 racing_lap "VER" "Red Bull" (Z.of_nat i + 1)
                            (80000 + 100 * Z.of_nat i) (Z.of_nat i + 1)))
      (seq 0 k).

Definition nineteen_laps : DataFrame := mkDF lap_columns (soft_stint 19).

Definition twenty_laps : DataFrame := mkDF lap_columns (soft_stint 20).

Definition cleaned_twenty : DataFrame :=
  match clean_laps twenty_laps with
  | Ok cl => cl
  | Raise _ => mkDF [] []
  end.

(** A run in which the raw lap file is absent, and one in which it holds
    [nineteen_laps]; every other outside step succeeds. *)
Definition world_without_raw : World :=
  mkWorld None false (Raise (OtherError "OSError" "unreadable")) (fun _ => None).

Definition world_nineteen : World :=
  mkWorld None true (Ok nineteen_laps) (fun _ => None).

(** Stand-ins for the library numerics, for runs on sample data. *)
Definition no_fit (x y : list Q) : Q * Q := (0%Q, 0%Q).
Definition no_sqrt (v : Q) : Q := v.
Definition no_format (digits : nat) (v : Q) : string := "".

(** A race with three stops of VER and two of HAM, listed out of order. *)
Definition laps_with_pits : DataFrame :=
  mkDF lap_columns
       [(0%Z, lap_with "VER" 30 84000 (CInt 1) (Some 2500000000000%Z) None);
        (1%Z, lap_with "HAM" 12 85000 (CInt 1) (Some 1000000000000%Z) None);
        (2%Z, lap_with "VER" 10 84500 (CInt 1) (Some 900000000000%Z) None);
        (3%Z, lap_with "VER" 11 99000 (CInt 1) None (Some 920000000000%Z));
        (4%Z, lap_with "HAM" 40 85500 (CInt 1) (Some 3300000000000%Z) None);
        (5%Z, lap_with "VER" 50 84200 (CInt 1) (Some 4100000000000%Z) None)].

(** Three timed laps of one driver, the last one very slow. *)
Definition three_laps : DataFrame :=
  mkDF lap_columns
       [(0%Z, racing_lap "ALO" "Alpine" 1 81000 1);
        (1%Z, racing_lap "ALO" "Alpine" 2 80500 2);
        (2%Z, racing_lap "ALO" "Alpine" 3 300000 3)].

(** A raw file with [LapTime] and text-typed [TyreLife], and nothing
    else. *)
Definition laps_two_columns : DataFrame :=
  mkDF [("LapTime", timedelta64); ("TyreLife", object_)]
       [(0%Z, racing_lap "VER" "Red Bull" 1 80000 1);
        (1%Z, racing_lap "VER" "Red Bull" 2 80100 2)].

(** A run whose raw file parses to [laps_mixed] with durations still held
    as text columns. *)
Definition csv_columns : list (string * dtype) :=
  [("Time", object_); ("Driver", object_); ("LapTime", object_);
   ("LapNumber", float64); ("Stint", float64); ("PitOutTime", object_);
   ("PitInTime", object_); ("Compound", object_); ("TyreLife", float64);
   ("FreshTyre", bool_); ("Team", object_); ("TrackStatus", int64)].

Definition world_mixed : World :=
  mkWorld None true (Ok (mkDF csv_columns (rows laps_mixed))) (fun _ => None).

(** The stint summary of [cleaned_laps] and its first row. *)
Definition cleaned_summary : list StintRow :=
  match stint_summary cleaned_laps with
  | Ok st => st
  | Raise _ => []
  end.

Definition first_stint : StintRow :=
  hd (mkStint None None None 0 None None None None) cleaned_summary.

(** A run over [twenty_laps] in which every outside step succeeds. *)
Definition world_twenty : World :=
  mkWorld None true (Ok twenty_laps) (fun _ => None).

(** A lap table with the five columns the pit table needs and two of the
    optional ones. *)
Definition laps_few_columns : DataFrame :=
  mkDF [("Driver", object_); ("LapNumber", float64); ("Compound", object_);
        ("PitInTime", timedelta64); ("PitOutTime", timedelta64);
        ("Team", object_); ("LapTime", timedelta64)]
       (rows laps_with_pits).

(** A provider that knows the 2022 Hungarian race only. *)
Definition hungary_2022 (laps : DataFrame) (year : Z) (gp code : string)
  : result DataFrame :=
  if Z.eqb year 2022 && String.eqb gp "Hungary" && String.eqb code "R"
  then Ok laps
  else Raise (OtherError "ValueError" "no such session").

Definition fetch_world (laps : DataFrame) : FetchWorld :=
  mkFetchWorld None None (hungary_2022 laps) (fun _ => None).

Definition no_text (u : list (option string)) : string := "".

(** Lap tables from the provider: one without the pit-in column, one with a
    lap whose driver is missing. *)
Definition laps_no_pit_in : DataFrame :=
  mkDF [("Driver", object_); ("Team", object_); ("LapNumber", float64);
        ("PitOutTime", timedelta64)]
       (rows laps_with_pits).

Definition laps_nameless : DataFrame :=
  mkDF lap_columns
       (rows laps_with_pits
        ++ [(6%Z, mkLap None None (Some 3%Z) None None None None None None NA
                        None None None)]).

(* ================================================================== *)
(** * Properties *)

(** ** Lists: masks, sorting, distinct values *)

Lemma bind_ok {A B : Type} (m : result A) (k : A -> result B) (b : B) :
  bind m k = Ok b -> exists a, m = Ok a /\ k a = Ok b.
Proof.
  destruct m as [a|e]; simpl; intros H; [exists a; auto | discriminate].
Qed.

Lemma select_mask_map {A : Type} (f : A -> bool) (l : list A) :
  select_mask (map f l) l = filter f l.
Proof.
  induction l as [|x t IH]; simpl; [reflexivity|].
  rewrite IH. reflexivity.
Qed.

Lemma map2_map_map {A B C D : Type} (h : B -> C -> D) (f : A -> B) (g : A -> C)
    (l : list A) :
  map2 h (map f l) (map g l) = map (fun x => h (f x) (g x)) l.
Proof.
  induction l as [|x t IH]; simpl; [reflexivity|]. now rewrite IH.
Qed.

Lemma map2_map_r {A B C : Type} (h : A -> B -> C) (g : A -> B) (l : list A) :
  map2 h l (map g l) = map (fun x => h x (g x)) l.
Proof.
  induction l as [|x t IH]; simpl; [reflexivity|]. now rewrite IH.
Qed.

Lemma filter_map_comm {A B : Type} (f : B -> bool) (g : A -> B) (l : list A) :
  filter f (map g l) = map g (filter (fun x => f (g x)) l).
Proof.
  induction l as [|x t IH]; simpl; [reflexivity|].
  destruct (f (g x)); simpl; now rewrite IH.
Qed.

Lemma filter_ext_In {A : Type} (f g : A -> bool) (l : list A) :
  (forall x, In x l -> f x = g x) -> filter f l = filter g l.
Proof.
  induction l as [|x t IH]; simpl; intros H; [reflexivity|].
  rewrite (H x (or_introl eq_refl)), IH; auto.
Qed.

Lemma filter_filter {A : Type} (f g : A -> bool) (l : list A) :
  filter f (filter g l) = filter (fun x => g x && f x) l.
Proof.
  induction l as [|x t IH]; simpl; [reflexivity|].
  destruct (g x); simpl; [destruct (f x)|]; now rewrite IH.
Qed.

Section SortFacts.
Context {A : Type} (leb : A -> A -> bool).

Lemma insert_by_perm (x : A) (l : list A) :
  Permutation (insert_by leb x l) (x :: l).
Proof.
  induction l as [|y t IH]; simpl; [apply Permutation_refl|].
  destruct (leb x y); [apply Permutation_refl|].
  eapply perm_trans; [apply perm_skip, IH | apply perm_swap].
Qed.

Lemma sort_by_perm (l : list A) : Permutation (sort_by leb l) l.
Proof.
  induction l as [|x t IH]; simpl; [apply perm_nil|].
  eapply perm_trans; [apply insert_by_perm | apply perm_skip, IH].
Qed.

Lemma sort_by_In (x : A) (l : list A) : In x (sort_by leb l) <-> In x l.
Proof.
  split; apply Permutation_in;
    [apply sort_by_perm | apply Permutation_sym, sort_by_perm].
Qed.

Lemma sort_by_length (l : list A) : List.length (sort_by leb l) = List.length l.
Proof. apply Permutation_length, sort_by_perm. Qed.

Lemma sort_by_NoDup (l : list A) : NoDup l -> NoDup (sort_by leb l).
Proof.
  intros H. eapply Permutation_NoDup; [apply Permutation_sym, sort_by_perm | exact H].
Qed.

Hypothesis leb_total : forall x y, leb x y = false -> leb y x = true.
Hypothesis leb_trans : forall x y z, leb x y = true -> leb y z = true -> leb x z = true.

Lemma insert_by_sorted (x : A) (l : list A) :
  StronglySorted (fun a b => leb a b = true) l ->
  StronglySorted (fun a b => leb a b = true) (insert_by leb x l).
Proof.
  induction 1 as [|y t Hs IH Hall]; simpl.
  - constructor; constructor.
  - destruct (leb x y) eqn:E.
    + constructor; [constructor; assumption|].
      constructor; [exact E|].
      rewrite Forall_forall in *. intros z Hz. eapply leb_trans; eauto.
    + constructor; [exact IH|].
      rewrite Forall_forall in *. intros z Hz.
      apply (Permutation_in _ (insert_by_perm x t)) in Hz.
      destruct Hz as [<-|Hz]; auto.
Qed.

Lemma sort_by_sorted (l : list A) :
  StronglySorted (fun a b => leb a b = true) (sort_by leb l).
Proof.
  induction l as [|x t IH]; simpl; [constructor|].
  apply insert_by_sorted, IH.
Qed.
End SortFacts.

Section UniqueFacts.
Context {A : Type} (eqb : A -> A -> bool).
Hypothesis eqb_eq : forall x y, eqb x y = true <-> x = y.

Lemma mem_by_In (x : A) (l : list A) : mem_by eqb x l = true <-> In x l.
Proof.
  induction l as [|y t IH]; simpl; [split; [discriminate|tauto]|].
  rewrite orb_true_iff, IH, eqb_eq. split; intros [H|H]; auto.
Qed.

Lemma unique_by_In (x : A) (l : list A) : In x (unique_by eqb l) <-> In x l.
Proof.
  induction l as [|y t IH]; simpl; [tauto|].
  rewrite filter_In, IH, negb_true_iff.
  split.
  - intros [H|[H _]]; auto.
  - intros [H|H]; auto.
    destruct (eqb x y) eqn:E; [left; symmetry; now apply eqb_eq | right; auto].
Qed.

Lemma unique_by_NoDup (l : list A) : NoDup (unique_by eqb l).
Proof.
  induction l as [|y t IH]; simpl; [constructor|].
  constructor.
  - rewrite filter_In, negb_true_iff. intros [_ H].
    assert (eqb y y = true) by now apply eqb_eq. congruence.
  - now apply NoDup_filter.
Qed.

Lemma unique_by_id (l : list A) : NoDup l -> unique_by eqb l = l.
Proof.
  induction 1 as [|y t Hn Hd IH]; simpl; [reflexivity|].
  rewrite IH. f_equal.
  rewrite <- (filter_ext_In (fun _ => true)).
  - clear. induction t; simpl; congruence.
  - intros z Hz. symmetry. apply negb_true_iff.
    destruct (eqb z y) eqn:E; [|reflexivity].
    apply eqb_eq in E. subst. contradiction.
Qed.
End UniqueFacts.

Lemma key_eqb_eq (x y : option string) : key_eqb x y = true <-> x = y.
Proof.
  destruct x as [a|], y as [b|]; simpl; try (split; congruence).
  rewrite String.eqb_eq. split; congruence.
Qed.

Lemma key_eqb_refl (x : option string) : key_eqb x x = true.
Proof. now apply key_eqb_eq. Qed.

Lemma optZ_eqb_eq (x y : option Z) : option_eqb Z.eqb x y = true <-> x = y.
Proof.
  destruct x as [a|], y as [b|]; simpl; try (split; congruence).
  rewrite Z.eqb_eq. split; congruence.
Qed.

(** Selecting by a list of labels a frame whose labels are distinct is a
    filter on the rows. *)
Lemma loc_labels_filter (P : Z -> bool) (rs : list Row) :
  NoDup (map fst rs) ->
  flat_map (fun l => filter (fun r => Z.eqb (fst r) l) rs) (filter P (map fst rs))
  = filter (fun r => P (fst r)) rs.
Proof.
  intros Hnd.
  assert (G : forall pre, (forall r, In r pre -> In r rs) -> NoDup (map fst pre) ->
              flat_map (fun l => filter (fun r => Z.eqb (fst r) l) rs)
                       (filter P (map fst pre))
              = filter (fun r => P (fst r)) pre); [|apply G; auto].
  induction pre as [|r t IH]; simpl; intros Hin Hp; [reflexivity|].
  inversion Hp as [|? ? Hnot Hp']; subst.
  assert (E : filter (fun r0 => Z.eqb (fst r0) (fst r)) rs = [r]).
  { clear IH Hnot Hp Hp'. assert (Hr : In r rs) by (apply Hin; now left).
    clear Hin. induction rs as [|a rs' IHr]; [destruct Hr|].
    simpl in Hnd. inversion Hnd as [|? ? Ha Hnd']; subst. simpl.
    destruct Hr as [->|Hr].
    - rewrite Z.eqb_refl. f_equal.
      rewrite <- (filter_ext_In (fun _ => false)).
      + clear. induction rs'; simpl; auto.
      + intros z Hz. symmetry. apply Z.eqb_neq. intros Heq.
        apply Ha. rewrite <- Heq. now apply in_map.
    - destruct (Z.eqb (fst a) (fst r)) eqn:E.
      + apply Z.eqb_eq in E. exfalso. apply Ha. rewrite E. now apply in_map.
      + now apply IHr. }
  destruct (P (fst r)); simpl; [rewrite E; simpl; f_equal|]; apply IH; auto.
Qed.

(** ** Quantiles of a sorted sample *)

Lemma Qle_bool_false (x y : Q) : Qle_bool x y = false -> (y < x)%Q.
Proof.
  intros H. apply Qnot_le_lt. intros C. apply Qle_bool_iff in C. congruence.
Qed.

Lemma Qle_bool_total (x y : Q) : Qle_bool x y = false -> Qle_bool y x = true.
Proof. intros H. apply Qle_bool_iff, Qlt_le_weak, Qle_bool_false, H. Qed.

Lemma Qle_bool_trans (x y z : Q) :
  Qle_bool x y = true -> Qle_bool y z = true -> Qle_bool x z = true.
Proof. rewrite !Qle_bool_iff. apply Qle_trans. Qed.

Lemma sort_Q_sorted (l : list Q) :
  StronglySorted (fun a b => Qle_bool a b = true) (sort_by Qle_bool l).
Proof. apply sort_by_sorted; [apply Qle_bool_total | apply Qle_bool_trans]. Qed.

Lemma nth_sorted (s : list Q) :
  StronglySorted (fun a b => Qle_bool a b = true) s ->
  forall i j, (i <= j < List.length s)%nat -> (nth i s 0 <= nth j s 0)%Q.
Proof.
  induction 1 as [|x t Hs IH Hall]; intros i j [Hij Hj]; simpl in *; [lia|].
  destruct i as [|i], j as [|j]; try lia.
  - apply Qle_refl.
  - rewrite Forall_forall in Hall. apply Qle_bool_iff, Hall, nth_In. lia.
  - apply IH. lia.
Qed.

Lemma nthQ_sorted (s : list Q) (i j : Z) :
  StronglySorted (fun a b => Qle_bool a b = true) s ->
  (0 <= i <= j)%Z -> (j < Z.of_nat (List.length s))%Z ->
  (nthQ s i <= nthQ s j)%Q.
Proof.
  intros Hs Hij Hj. unfold nthQ. apply nth_sorted; [exact Hs|]. lia.
Qed.

Section Interp.
Variable s : list Q.
Hypothesis s_sorted : StronglySorted (fun a b => Qle_bool a b = true) s.

Lemma floor_in_range (h : Q) :
  (0 <= h)%Q -> (h <= inject_Z (last_index s))%Q -> (0 <= Qfloor h <= last_index s)%Z.
Proof.
  intros H0 H1. split.
  - change 0%Z with (Qfloor 0). now apply Qfloor_resp_le.
  - rewrite <- (Qfloor_Z (last_index s)). now apply Qfloor_resp_le.
Qed.

Lemma frac_range (h : Q) : (0 <= h - inject_Z (Qfloor h) < 1)%Q.
Proof.
  pose proof (Qfloor_le h) as L. pose proof (Qlt_floor h) as U.
  rewrite inject_Z_plus in U. change (inject_Z 1) with 1%Q in U.
  split; lra.
Qed.

(** At the last position the interpolation weight vanishes. *)
Lemma frac_at_last (h : Q) :
  (h <= inject_Z (last_index s))%Q -> Qfloor h = last_index s -> (h - inject_Z (Qfloor h) == 0)%Q.
Proof.
  intros H1 E. pose proof (Qfloor_le h) as L. rewrite E in *. lra.
Qed.

Lemma interp_lower (h : Q) :
  (0 <= h)%Q -> (h <= inject_Z (last_index s))%Q -> (nthQ s (Qfloor h) <= interp s h)%Q.
Proof.
  intros H0 H1. unfold interp.
  destruct (floor_in_range h H0 H1) as [Hi0 Hi1].
  destruct (frac_range h) as [Ht0 Ht1].
  destruct (Z.eq_dec (Qfloor h) (last_index s)) as [E|NE].
  - rewrite (frac_at_last h H1 E). lra.
  - assert (Hab : (nthQ s (Qfloor h) <= nthQ s (Qfloor h + 1))%Q)
      by (apply nthQ_sorted; [exact s_sorted | lia | unfold last_index in *; lia]).
    assert (0 <= (h - inject_Z (Qfloor h))
                 * (nthQ s (Qfloor h + 1) - nthQ s (Qfloor h)))%Q
      by (apply Qmult_le_0_compat; lra).
    lra.
Qed.

Lemma interp_upper (h : Q) :
  (0 <= h)%Q -> (h <= inject_Z (last_index s))%Q -> (Qfloor h < last_index s)%Z ->
  (interp s h <= nthQ s (Qfloor h + 1))%Q.
Proof.
  intros H0 H1 Hlt. unfold interp.
  destruct (floor_in_range h H0 H1) as [Hi0 Hi1].
  destruct (frac_range h) as [Ht0 Ht1].
  assert (Hab : (nthQ s (Qfloor h) <= nthQ s (Qfloor h + 1))%Q)
    by (apply nthQ_sorted; [exact s_sorted | lia | unfold last_index in *; lia]).
  assert (0 <= (1 - (h - inject_Z (Qfloor h)))
               * (nthQ s (Qfloor h + 1) - nthQ s (Qfloor h)))%Q
    by (apply Qmult_le_0_compat; lra).
  lra.
Qed.

Lemma interp_ge_head (h : Q) :
  (0 <= h)%Q -> (h <= inject_Z (last_index s))%Q -> (nthQ s 0 <= interp s h)%Q.
Proof.
  intros H0 H1. destruct (floor_in_range h H0 H1) as [Hi0 Hi1].
  eapply Qle_trans; [|apply interp_lower; assumption].
  apply nthQ_sorted; [exact s_sorted | lia | unfold last_index in *; lia].
Qed.

Lemma interp_mono (h h' : Q) :
  (0 <= h)%Q -> (h <= h')%Q -> (h' <= inject_Z (last_index s))%Q ->
  (interp s h <= interp s h')%Q.
Proof.
  intros H0 Hh H1.
  assert (H0' : (0 <= h')%Q) by lra.
  assert (H1' : (h <= inject_Z (last_index s))%Q) by lra.
  destruct (floor_in_range h H0 H1') as [Hi0 Hi1].
  destruct (floor_in_range h' H0' H1) as [Hj0 Hj1].
  pose proof (Qfloor_resp_le h h' Hh) as Hfl.
  destruct (Z.eq_dec (Qfloor h) (Qfloor h')) as [E|NE].
  - unfold interp. rewrite <- E.
    destruct (Z.eq_dec (Qfloor h) (last_index s)) as [El|NEl].
    + rewrite (frac_at_last h H1' El).
      assert (E' : Qfloor h' = last_index s) by congruence.
      pose proof (frac_at_last h' H1 E') as F. rewrite <- E in F.
      rewrite F. lra.
    + assert (Hab : (nthQ s (Qfloor h) <= nthQ s (Qfloor h + 1))%Q)
        by (apply nthQ_sorted; [exact s_sorted | lia | unfold last_index in *; lia]).
      assert (0 <= (h' - h) * (nthQ s (Qfloor h + 1) - nthQ s (Qfloor h)))%Q
        by (apply Qmult_le_0_compat; lra).
      lra.
  - apply Qle_trans with (nthQ s (Qfloor h + 1)).
    + apply interp_upper; auto. lia.
    + apply Qle_trans with (nthQ s (Qfloor h')).
      * apply nthQ_sorted; [exact s_sorted | lia | unfold last_index in *; lia].
      * apply interp_lower; auto.
Qed.
End Interp.

(** [np.percentile] computes the quantile by linear interpolation. *)
Lemma percentile_quantile (a : list Q) (q p : Q) :
  a <> [] -> (0 <= q)%Q -> (q <= 100)%Q -> (p == q / 100)%Q ->
  (percentile a q == quantile_linear a p)%Q.
Proof.
  intros Ha Hq0 Hq1 Hp. unfold percentile, quantile_linear, interp.
  set (s := sort_by Qle_bool a).
  assert (Hn : (1 <= Z.of_nat (List.length s))%Z).
  { unfold s. rewrite sort_by_length. destruct a; [congruence|simpl; lia]. }
  set (m := (Z.of_nat (List.length s) - 1)%Z) in *.
  assert (Hm : (0 <= inject_Z m)%Q).
  { change 0%Q with (inject_Z 0). rewrite <- Zle_Qle. unfold m. lia. }
  assert (Hh : (inject_Z m * p == inject_Z m * (q / 100))%Q) by now rewrite Hp.
  rewrite (Qfloor_comp _ _ Hh).
  set (h := (inject_Z m * (q / 100))%Q) in *.
  assert (Hle : (h <= inject_Z m)%Q).
  { unfold h. assert (q / 100 <= 1)%Q by (apply Qle_shift_div_r; lra).
    assert (0 <= inject_Z m * (1 - q / 100))%Q by (apply Qmult_le_0_compat; lra).
    lra. }
  destruct (Qle_bool (inject_Z m) h) eqn:E.
  - apply Qle_bool_iff in E.
    assert (Eh : (h == inject_Z m)%Q) by lra.
    rewrite (Qfloor_comp _ _ Eh), Qfloor_Z. rewrite Hh, Eh. ring.
  - unfold lerp. rewrite Hh.
    destruct (Qle_bool (1 # 2) (h - inject_Z (Qfloor h))); ring.
Qed.

Lemma quantile_mono (a : list Q) (p p' : Q) :
  a <> [] -> (0 <= p)%Q -> (p <= p')%Q -> (p' <= 1)%Q ->
  (quantile_linear a p <= quantile_linear a p')%Q.
Proof.
  intros Ha H0 Hpp H1. unfold quantile_linear.
  set (s := sort_by Qle_bool a).
  assert (Hn : (1 <= Z.of_nat (List.length s))%Z).
  { unfold s. rewrite sort_by_length. destruct a; [congruence|simpl; lia]. }
  set (m := (Z.of_nat (List.length s) - 1)%Z) in *.
  assert (Hm : (0 <= inject_Z m)%Q).
  { change 0%Q with (inject_Z 0). rewrite <- Zle_Qle. unfold m. lia. }
  apply interp_mono.
  - apply sort_Q_sorted.
  - apply Qmult_le_0_compat; lra.
  - assert (0 <= inject_Z m * (p' - p))%Q by (apply Qmult_le_0_compat; lra). lra.
  - unfold last_index. fold s. fold m. assert (0 <= inject_Z m * (1 - p'))%Q by (apply Qmult_le_0_compat; lra).
    lra.
Qed.

Lemma quantile_ge_head (a : list Q) (p : Q) :
  a <> [] -> (0 <= p)%Q -> (p <= 1)%Q ->
  (nthQ (sort_by Qle_bool a) 0 <= quantile_linear a p)%Q.
Proof.
  intros Ha H0 H1. unfold quantile_linear.
  set (s := sort_by Qle_bool a).
  assert (Hn : (1 <= Z.of_nat (List.length s))%Z).
  { unfold s. rewrite sort_by_length. destruct a; [congruence|simpl; lia]. }
  set (m := (Z.of_nat (List.length s) - 1)%Z) in *.
  assert (Hm : (0 <= inject_Z m)%Q).
  { change 0%Q with (inject_Z 0). rewrite <- Zle_Qle. unfold m. lia. }
  apply interp_ge_head.
  - apply sort_Q_sorted.
  - apply Qmult_le_0_compat; lra.
  - unfold last_index. fold s. fold m. assert (0 <= inject_Z m * (1 - p))%Q by (apply Qmult_le_0_compat; lra).
    lra.
Qed.

(** The smallest value of a sample never exceeds its Tukey fence. *)
Lemma head_le_tukey_fence (a : list Q) :
  a <> [] -> (nthQ (sort_by Qle_bool a) 0 <= tukey_fence a)%Q.
Proof.
  intros Ha. unfold tukey_fence.
  pose proof (quantile_ge_head a (3 # 4) Ha) as H3.
  pose proof (quantile_mono a (1 # 4) (3 # 4) Ha) as H13.
  assert (0 <= 3 # 4)%Q by lra. assert (3 # 4 <= 1)%Q by lra.
  assert (0 <= 1 # 4)%Q by lra. assert (1 # 4 <= 3 # 4)%Q by lra.
  specialize (H3 ltac:(assumption) ltac:(assumption)).
  specialize (H13 ltac:(assumption) ltac:(assumption) ltac:(assumption)).
  lra.
Qed.

(** The code's fence is Tukey's fence of the group's lap times. *)
Lemma fence_of_tukey (gt : list Row) :
  lap_seconds gt <> [] -> (fence_of gt == tukey_fence (lap_seconds gt))%Q.
Proof.
  intros Hne. unfold fence_of, tukey_fence.
  assert (E1 : (percentile (lap_seconds gt) 25
                == quantile_linear (lap_seconds gt) (1 # 4))%Q)
    by (apply percentile_quantile; [assumption | lra | lra | reflexivity]).
  assert (E3 : (percentile (lap_seconds gt) 75
                == quantile_linear (lap_seconds gt) (3 # 4))%Q)
    by (apply percentile_quantile; [assumption | lra | lra | reflexivity]).
  cbv zeta. rewrite E1, E3. reflexivity.
Qed.

(** ** The per-driver pace filter *)

Lemma lookup_set_dtype_other (c c' : string) (t : dtype) (cs : list (string * dtype)) :
  c <> c' -> lookup_dtype c (set_dtype c' t cs) = lookup_dtype c cs.
Proof.
  intros Hne. induction cs as [|[n u] rest IH]; simpl.
  - destruct (String.eqb_spec c c'); [contradiction|reflexivity].
  - destruct (String.eqb_spec c' n) as [->|Hn]; simpl.
    + destruct (String.eqb_spec c n); [contradiction|reflexivity].
    + now rewrite IH.
Qed.

Lemma lookup_set_dtype_same (c : string) (t : dtype) (cs : list (string * dtype)) :
  lookup_dtype c (set_dtype c t cs) = Some t.
Proof.
  induction cs as [|[n u] rest IH]; simpl.
  - now rewrite String.eqb_refl.
  - destruct (String.eqb_spec c n) as [->|Hn]; simpl.
    + now rewrite String.eqb_refl.
    + destruct (String.eqb_spec c n); [contradiction|exact IH].
Qed.

Lemma has_column_lookup (c : string) (df : DataFrame) :
  has_column c df = true <-> exists t, lookup_dtype c (columns df) = Some t.
Proof.
  unfold has_column. induction (columns df) as [|[n u] rest IH]; simpl.
  - split; [discriminate | intros [t H]; discriminate].
  - destruct (String.eqb c n); simpl; [split; eauto | exact IH].
Qed.

Lemma has_column_false_lookup (c : string) (df : DataFrame) :
  has_column c df = false <-> lookup_dtype c (columns df) = None.
Proof.
  unfold has_column. induction (columns df) as [|[n u] rest IH]; simpl.
  - tauto.
  - destruct (String.eqb c n); simpl; [split; discriminate | exact IH].
Qed.

Lemma Qle_bool_compat_r (v x y : Q) : (x == y)%Q -> Qle_bool v x = Qle_bool v y.
Proof.
  intros E. destruct (Qle_bool v x) eqn:A, (Qle_bool v y) eqn:B; auto.
  - apply Qle_bool_iff in A. rewrite E in A. apply Qle_bool_iff in A. congruence.
  - apply Qle_bool_iff in B. rewrite <- E in B. apply Qle_bool_iff in B. congruence.
Qed.

Lemma NoDup_label_inj (rs : list Row) (r r' : Row) :
  NoDup (map fst rs) -> In r rs -> In r' rs -> fst r = fst r' -> r = r'.
Proof.
  induction rs as [|a t IH]; simpl; intros Hnd Hr Hr' E; [destruct Hr|].
  inversion Hnd as [|? ? Ha Hnd']; subst.
  destruct Hr as [->|Hr], Hr' as [->|Hr']; auto.
  - exfalso. apply Ha. rewrite E. now apply in_map.
  - exfalso. apply Ha. rewrite <- E. now apply in_map.
Qed.

Lemma add_seconds_fst (rs : list Row) : map fst (map add_seconds rs) = map fst rs.
Proof. rewrite map_map. reflexivity. Qed.

(** The frame [x] of the filter: the input with [LapTime_s] filled in. *)
Lemma assign_seconds_eq (df : DataFrame) :
  assign_LapTime_s df
    (mkSeries float64
       (map (option_map total_seconds) (map (fun r => LapTime (snd r)) (rows df))))
  = with_seconds df.
Proof.
  unfold assign_LapTime_s, with_seconds. simpl. f_equal.
  rewrite map_map. rewrite map2_map_r. reflexivity.
Qed.

Lemma groupby_keys_In {K : Type} (eqb leb : K -> K -> bool) (key : Lap -> K)
    (rs : list Row) (kg : K * list Row) :
  (forall x y, eqb x y = true <-> x = y) ->
  In kg (groupby eqb leb key rs) <->
  (exists r, In r rs /\ key (snd r) = fst kg)
  /\ snd kg = filter (fun r => eqb (key (snd r)) (fst kg)) rs.
Proof.
  intros Heq. unfold groupby. rewrite in_map_iff. split.
  - intros [k [<- Hk]]. simpl. split; [|reflexivity].
    apply sort_by_In in Hk. apply (proj1 (unique_by_In eqb Heq _ _)) in Hk.
    apply in_map_iff in Hk. destruct Hk as [r [E Hr]]. eauto.
  - intros [[r [Hr E]] Hs]. exists (fst kg). split.
    + destruct kg as [k g]. simpl in *. now subst.
    + apply sort_by_In. apply (proj2 (unique_by_In eqb Heq _ _)).
      apply in_map_iff. eauto.
Qed.

Lemma keep_of_group_In (g : list Row) (l : Z) :
  In l (List.concat (keep_of_group g)) <->
  exists r, In r g /\ fst r = l
            /\ le_fence (fence_of (dropna_LapTime_s g)) r = true.
Proof.
  unfold keep_of_group.
  destruct (dropna_LapTime_s g) as [|a gt] eqn:E.
  - simpl. split; [tauto|]. intros [r [Hr [_ Hk]]].
    unfold le_fence in Hk. destruct (LapTime_s (snd r)) eqn:Es; [|discriminate].
    assert (Hin : In r (dropna_LapTime_s g))
      by (apply filter_In; split; [exact Hr | now rewrite Es]).
    rewrite E in Hin. destruct Hin.
  - rewrite <- E. simpl. rewrite app_nil_r, in_map_iff. split.
    + intros [r [El Hr]]. apply filter_In in Hr. destruct Hr as [Hr Hk].
      apply filter_In in Hr. destruct Hr as [Hr _]. eauto.
    + intros [r [Hr [El Hk]]]. exists r. split; [exact El|].
      apply filter_In. split; [|exact Hk].
      apply filter_In. split; [exact Hr|].
      unfold le_fence in Hk. destruct (LapTime_s (snd r)); [reflexivity|discriminate].
Qed.

Lemma concat_flat_map_In {A B : Type} (f : A -> list (list B)) (l : list A) (b : B) :
  In b (List.concat (flat_map f l)) <-> exists a, In a l /\ In b (List.concat (f a)).
Proof.
  induction l as [|x t IH]; simpl.
  - split; [tauto | intros [a [[] _]]].
  - rewrite concat_app, in_app_iff, IH. split.
    + intros [H|[a [Ha Hb]]]; eauto.
    + intros [a [[->|Ha] Hb]]; eauto.
Qed.

(** A label is collected in [keep_idx] exactly when some row carrying it
    passes the fence of its own driver group. *)
Lemma pace_keep_idx_In (xr : list Row) (l : Z) :
  In l (List.concat (pace_keep_idx xr)) <->
  exists r, In r xr /\ fst r = l /\ group_keep xr r = true.
Proof.
  unfold pace_keep_idx. rewrite concat_flat_map_In. split.
  - intros [[k g] [Hkg Hl]].
    apply (groupby_keys_In _ _ _ _ _ key_eqb_eq) in Hkg. simpl in Hkg.
    destruct Hkg as [_ ->]. simpl in Hl.
    apply keep_of_group_In in Hl. destruct Hl as [r [Hr [El Hk]]].
    apply filter_In in Hr. destruct Hr as [Hr Hd]. apply key_eqb_eq in Hd.
    exists r. repeat split; auto. unfold group_keep, driver_rows. now rewrite Hd.
  - intros [r [Hr [El Hk]]].
    exists (Driver (snd r), driver_rows (Driver (snd r)) xr). split.
    + apply (groupby_keys_In _ _ _ _ _ key_eqb_eq). simpl. split; eauto.
    + simpl. apply keep_of_group_In. exists r. repeat split; auto.
      apply filter_In. split; [exact Hr | apply key_eqb_refl].
Qed.

(** [keep_idx] stays empty exactly when no row has a lap time. *)
Lemma pace_keep_idx_nil (xr : list Row) :
  pace_keep_idx xr = [] <-> forall r, In r xr -> LapTime_s (snd r) = None.
Proof.
  unfold pace_keep_idx. split.
  - intros E r Hr. destruct (LapTime_s (snd r)) eqn:Es; [exfalso|reflexivity].
    assert (Hkg : In (Driver (snd r), driver_rows (Driver (snd r)) xr)
                     (groupby key_eqb key_leb Driver xr))
      by (apply (groupby_keys_In _ _ _ _ _ key_eqb_eq); simpl; split; eauto).
    assert (Hsub : forall x, In x (keep_of_group (driver_rows (Driver (snd r)) xr)) ->
                             False).
    { intros x Hx.
      assert (In x (flat_map (fun kg => keep_of_group (snd kg))
                             (groupby key_eqb key_leb Driver xr)))
        by (apply in_flat_map; eexists; split; [exact Hkg | exact Hx]).
      rewrite E in H. destruct H. }
    unfold keep_of_group in Hsub.
    destruct (dropna_LapTime_s (driver_rows (Driver (snd r)) xr)) as [|a gt] eqn:Eg.
    + assert (Hin : In r (dropna_LapTime_s (driver_rows (Driver (snd r)) xr))).
      { apply filter_In. split; [|now rewrite Es].
        apply filter_In. split; [exact Hr | apply key_eqb_refl]. }
      rewrite Eg in Hin. destruct Hin.
    + eapply Hsub. left. reflexivity.
  - intros Hall.
    destruct (flat_map _ _) as [|x t] eqn:E; [reflexivity|exfalso].
    assert (Hx : In x (flat_map (fun kg => keep_of_group (snd kg))
                                (groupby key_eqb key_leb Driver xr)))
      by (rewrite E; now left).
    apply in_flat_map in Hx. destruct Hx as [[k g] [Hkg Hx]].
    apply (groupby_keys_In _ _ _ _ _ key_eqb_eq) in Hkg. simpl in Hkg, Hx.
    destruct Hkg as [_ ->]. unfold keep_of_group in Hx.
    destruct (dropna_LapTime_s _) as [|a gt] eqn:Eg; [destruct Hx|].
    assert (Ha : In a (dropna_LapTime_s
                         (filter (fun r => key_eqb (Driver (snd r)) k) xr)))
      by (rewrite Eg; now left).
    apply filter_In in Ha. destruct Ha as [Ha Hs].
    apply filter_In in Ha. destruct Ha as [Ha _].
    rewrite (Hall a Ha) in Hs. discriminate.
Qed.

(** What the filter computes once its two columns are there. *)
Lemma per_driver_pace_filter_eq (df : DataFrame) :
  lookup_dtype "LapTime" (columns df) = Some timedelta64 ->
  has_column "Driver" df = true ->
  per_driver_pace_filter df =
  Ok (loc_labels (with_seconds df)
        match pace_keep_idx (map add_seconds (rows df)) with
        | [] => index (with_seconds df)
        | _ => index_intersection (index (with_seconds df))
                 (List.concat (pace_keep_idx (map add_seconds (rows df))))
        end).
Proof.
  intros Hlt Hd. unfold per_driver_pace_filter, column.
  rewrite Hlt. cbn [bind]. unfold dt_total_seconds. cbn [bind s_dtype s_values].
  rewrite assign_seconds_eq.
  apply has_column_lookup in Hd. destruct Hd as [t Ht].
  assert (E : lookup_dtype "Driver" (columns (with_seconds df)) = Some t).
  { unfold with_seconds. cbn [columns].
    rewrite lookup_set_dtype_other; [exact Ht | discriminate]. }
  rewrite E. cbn [bind]. reflexivity.
Qed.

Lemma lap_seconds_driver_times (rs : list Row) (d : option string) :
  lap_seconds (dropna_LapTime_s (driver_rows d (map add_seconds rs)))
  = driver_times rs d.
Proof.
  unfold lap_seconds, dropna_LapTime_s, driver_rows, driver_times.
  induction rs as [|r t IH]; simpl; [reflexivity|].
  destruct (key_eqb (Driver (snd r)) d); simpl; [|exact IH].
  destruct (LapTime (snd r)) eqn:E; simpl; rewrite ?E; simpl;
    [now rewrite IH | exact IH].
Qed.

Lemma driver_times_In (rs : list Row) (r : Row) (t : Z) :
  In r rs -> LapTime (snd r) = Some t ->
  In (total_seconds t) (driver_times rs (Driver (snd r))).
Proof.
  intros Hr Ht. unfold driver_times. apply in_flat_map. exists r.
  split; [exact Hr|]. rewrite key_eqb_refl, Ht. now left.
Qed.

(** On the rows of [x] the group's own test is the test against Tukey's
    fence of the driver's lap times. *)
Lemma group_keep_within_fence (rs : list Row) (r : Row) :
  In r rs ->
  group_keep (map add_seconds rs) (add_seconds r) = within_fence rs r.
Proof.
  intros Hr. unfold group_keep, within_fence, le_fence. simpl.
  destruct (LapTime (snd r)) as [t|] eqn:Et; simpl; [|reflexivity].
  apply Qle_bool_compat_r.
  rewrite <- lap_seconds_driver_times. apply fence_of_tukey.
  rewrite lap_seconds_driver_times.
  intros E. pose proof (driver_times_In rs r t Hr Et) as Hin.
  rewrite E in Hin. destruct Hin.
Qed.

Lemma loc_labels_In (rs : list Row) (labels : list Z) (r : Row) :
  In r rs -> In (fst r) labels ->
  In r (flat_map (fun l => filter (fun r0 => Z.eqb (fst r0) l) rs) labels).
Proof.
  intros Hr Hl. apply in_flat_map. exists (fst r). split; [exact Hl|].
  apply filter_In. split; [exact Hr | apply Z.eqb_refl].
Qed.

Lemma filter_true {A : Type} (l : list A) : filter (fun _ => true) l = l.
Proof. induction l; simpl; congruence. Qed.

(** With distinct labels and at least one lap time, the rows selected are
    those within the fence of their driver. *)
Lemma pace_filter_rows (df : DataFrame) (out : DataFrame) :
  NoDup (index df) ->
  (exists r, In r (rows df) /\ LapTime (snd r) <> None) ->
  lookup_dtype "LapTime" (columns df) = Some timedelta64 ->
  has_column "Driver" df = true ->
  per_driver_pace_filter df = Ok out ->
  rows out = map add_seconds (filter (within_fence (rows df)) (rows df)).
Proof.
  intros Hnd [r0 [Hr0 Ht0]] Hlt Hd Hrun.
  rewrite (per_driver_pace_filter_eq df Hlt Hd) in Hrun.
  injection Hrun as <-.
  set (rs := rows df) in *. set (xr := map add_seconds rs).
  assert (Hne : pace_keep_idx xr <> []).
  { intros E. apply Ht0.
    pose proof (proj1 (pace_keep_idx_nil xr) E (add_seconds r0)) as H.
    simpl in H. destruct (LapTime (snd r0)); [|reflexivity].
    discriminate H. unfold xr. now apply in_map. }
  destruct (pace_keep_idx xr) as [|k0 ks] eqn:Ek; [congruence|]. rewrite <- Ek.
  unfold loc_labels, index_intersection, index, with_seconds. cbn [rows].
  fold rs. fold xr.
  assert (Hndx : NoDup (map fst xr))
    by (unfold xr; rewrite add_seconds_fst; exact Hnd).
  rewrite (unique_by_id Z.eqb Z.eqb_eq _ Hndx).
  rewrite (loc_labels_filter
             (fun l => mem_by Z.eqb l (List.concat (pace_keep_idx xr))) xr Hndx).
  rewrite (filter_ext_In _ (group_keep xr)).
  - unfold xr at 2. rewrite filter_map_comm. f_equal.
    apply filter_ext_In. intros r Hr. now apply group_keep_within_fence.
  - intros r Hr.
    destruct (group_keep xr r) eqn:Eg.
    + apply (mem_by_In Z.eqb Z.eqb_eq), pace_keep_idx_In. eauto.
    + destruct (mem_by Z.eqb (fst r) (List.concat (pace_keep_idx xr))) eqn:Em;
        [|reflexivity].
      apply (mem_by_In Z.eqb Z.eqb_eq), pace_keep_idx_In in Em.
      destruct Em as [r' [Hr' [El Hk]]].
      assert (r' = r) by (eapply NoDup_label_inj; eauto). subst. congruence.
Qed.

(** Without any lap time the filter falls back to the whole index. *)
Lemma pace_filter_rows_untimed (df : DataFrame) (out : DataFrame) :
  NoDup (index df) ->
  (forall r, In r (rows df) -> LapTime (snd r) = None) ->
  lookup_dtype "LapTime" (columns df) = Some timedelta64 ->
  has_column "Driver" df = true ->
  per_driver_pace_filter df = Ok out ->
  rows out = map add_seconds (rows df).
Proof.
  intros Hnd Hall Hlt Hd Hrun.
  rewrite (per_driver_pace_filter_eq df Hlt Hd) in Hrun.
  injection Hrun as <-.
  assert (E : pace_keep_idx (map add_seconds (rows df)) = []).
  { apply pace_keep_idx_nil. intros r Hr. apply in_map_iff in Hr.
    destruct Hr as [r0 [<- Hr0]]. simpl. now rewrite (Hall r0 Hr0). }
  rewrite E. unfold loc_labels, index, with_seconds. cbn [rows].
  assert (Hndx : NoDup (map fst (map add_seconds (rows df))))
    by (rewrite add_seconds_fst; exact Hnd).
  pose proof (loc_labels_filter (fun _ => true) _ Hndx) as L.
  rewrite !filter_true in L. exact L.
Qed.

Lemma driver_times_own_rows (rs : list Row) (d : option string) :
  driver_times (driver_rows d rs) d = driver_times rs d.
Proof.
  unfold driver_times, driver_rows.
  induction rs as [|r t IH]; simpl; [reflexivity|].
  destruct (key_eqb (Driver (snd r)) d) eqn:E; simpl; [rewrite E, IH|]; auto.
Qed.

Lemma driver_rows_within_fence (rs : list Row) (d : option string) :
  driver_rows d (map add_seconds (filter (within_fence rs) rs))
  = map add_seconds
      (filter (within_fence (driver_rows d rs)) (driver_rows d rs)).
Proof.
  unfold driver_rows at 1. rewrite filter_map_comm.
  rewrite filter_filter. unfold driver_rows at 2. rewrite filter_filter.
  apply f_equal. apply filter_ext_In. intros r _. simpl.
  destruct (key_eqb (Driver (snd r)) d) eqn:E; simpl.
  - apply key_eqb_eq in E. unfold within_fence. rewrite E.
    rewrite driver_times_own_rows. apply andb_true_r.
  - apply andb_false_r.
Qed.

Lemma sorted_head_min (a : list Q) (v : Q) :
  In v a -> (nthQ (sort_by Qle_bool a) 0 <= v)%Q.
Proof.
  intros Hv. apply (sort_by_In Qle_bool) in Hv.
  destruct (In_nth _ _ 0%Q Hv) as [j [Hj <-]].
  unfold nthQ. apply nth_sorted; [apply sort_Q_sorted | simpl; lia].
Qed.

Lemma sorted_head_In (a : list Q) :
  a <> [] -> In (nthQ (sort_by Qle_bool a) 0) a.
Proof.
  intros Ha. apply (sort_by_In Qle_bool). unfold nthQ. apply nth_In.
  rewrite sort_by_length. destruct a; [congruence | simpl; lia].
Qed.

Lemma driver_times_inv (rs : list Row) (d : option string) (v : Q) :
  In v (driver_times rs d) ->
  exists r t, In r rs /\ Driver (snd r) = d /\ LapTime (snd r) = Some t
              /\ v = total_seconds t.
Proof.
  unfold driver_times. rewrite in_flat_map. intros [r [Hr Hv]].
  destruct (key_eqb (Driver (snd r)) d) eqn:E; [|destruct Hv].
  apply key_eqb_eq in E.
  destruct (LapTime (snd r)) as [t|] eqn:Et; [|destruct Hv].
  destruct Hv as [<-|[]]. eauto 6.
Qed.

(* ------------------------------------------------------------------ *)
(** ** Claims on the pace filter *)

(** C1 (as stated, refuted): on a table whose only row has no lap time the
    filter returns that row, although no row there has a lap time within a
    fence. *)
Lemma pace_filter_returns_untimed_row :
  exists out,
    per_driver_pace_filter one_untimed_lap = Ok out
    /\ rows out <> map add_seconds
                     (filter (within_fence (rows one_untimed_lap))
                             (rows one_untimed_lap)).
Proof.
  eexists. split; [vm_compute; reflexivity|]. vm_compute. discriminate.
Qed.

(** C1 (amended): on a lap table with distinct row labels in which some row
    has a lap time, the filter returns exactly the rows whose lap time in
    seconds is at most Q3 + 1.5 * (Q3 - Q1) of the lap times of their own
    driver (rows without lap time dropped, Q1 and Q3 by linear interpolation
    on the sorted sample), each with its [LapTime_s]; and the rows returned
    for a driver depend on that driver's rows only. *)
Theorem pace_filter_keeps_within_fence (df : DataFrame) :
  lookup_dtype "LapTime" (columns df) = Some timedelta64 ->
  has_column "Driver" df = true ->
  NoDup (index df) ->
  (exists r, In r (rows df) /\ LapTime (snd r) <> None) ->
  exists out,
    per_driver_pace_filter df = Ok out
    /\ rows out = map add_seconds (filter (within_fence (rows df)) (rows df))
    /\ forall d,
        driver_rows d (rows out)
        = map add_seconds
            (filter (within_fence (driver_rows d (rows df)))
                    (driver_rows d (rows df))).
Proof.
  intros Hlt Hd Hnd Hex.
  pose proof (per_driver_pace_filter_eq df Hlt Hd) as Hrun.
  eexists. split; [exact Hrun|].
  pose proof (pace_filter_rows df _ Hnd Hex Hlt Hd Hrun) as Hrows.
  split; [exact Hrows|].
  intros d. rewrite Hrows. apply driver_rows_within_fence.
Qed.

Lemma pace_filter_keeps_within_fence_witness :
  exists out,
    per_driver_pace_filter laps_with_outlier = Ok out
    /\ rows out = map add_seconds
                    (filter (within_fence (rows laps_with_outlier))
                            (rows laps_with_outlier))
    /\ forall d,
        driver_rows d (rows out)
        = map add_seconds
            (filter (within_fence (driver_rows d (rows laps_with_outlier)))
                    (driver_rows d (rows laps_with_outlier))).
Proof.
  apply (pace_filter_keeps_within_fence laps_with_outlier).
  - reflexivity.
  - reflexivity.
  - repeat constructor; simpl; intuition discriminate.
  - exists (0%Z, racing_lap "VER" "Red Bull" 1 80000 1).
    split; [simpl; auto | discriminate].
Defined.

(** C6 (as stated, refuted): when every driver has only missing lap times,
    the filter still returns rows of those drivers. *)
Lemma pace_filter_untimed_drivers_kept :
  (forall r, In r (rows laps_untimed) -> LapTime (snd r) = None)
  /\ exists out r,
      per_driver_pace_filter laps_untimed = Ok out
      /\ In r (rows out) /\ Driver (snd r) = Some "HAM".
Proof.
  split.
  - intros r [<-|[<-|[]]]; reflexivity.
  - eexists. eexists. split; [vm_compute; reflexivity|].
    split; [left; reflexivity | reflexivity].
Qed.

(** C6 (amended): on a lap table with distinct row labels, a driver all of
    whose rows lack a lap time contributes no row to the output as soon as
    some row of the table has a lap time, and no error is raised; when no
    row of the table has a lap time, the filter returns every row. *)
Theorem pace_filter_skips_untimed_driver (df : DataFrame) (d : option string) :
  lookup_dtype "LapTime" (columns df) = Some timedelta64 ->
  has_column "Driver" df = true ->
  NoDup (index df) ->
  (forall r, In r (rows df) -> Driver (snd r) = d -> LapTime (snd r) = None) ->
  exists out,
    per_driver_pace_filter df = Ok out
    /\ ((exists r, In r (rows df) /\ LapTime (snd r) <> None) ->
        driver_rows d (rows out) = [])
    /\ ((forall r, In r (rows df) -> LapTime (snd r) = None) ->
        rows out = map add_seconds (rows df)).
Proof.
  intros Hlt Hd Hnd Hmiss.
  pose proof (per_driver_pace_filter_eq df Hlt Hd) as Hrun.
  eexists. split; [exact Hrun|]. split.
  - intros Hex.
    rewrite (pace_filter_rows df _ Hnd Hex Hlt Hd Hrun).
    rewrite driver_rows_within_fence.
    rewrite <- (filter_ext_In (fun _ => false)).
    + clear. induction (driver_rows d (rows df)); simpl; auto.
    + intros r Hr. apply filter_In in Hr. destruct Hr as [Hr Hk].
      apply key_eqb_eq in Hk. unfold within_fence.
      now rewrite (Hmiss r Hr Hk).
  - intros Hall. exact (pace_filter_rows_untimed df _ Hnd Hall Hlt Hd Hrun).
Qed.

Lemma pace_filter_skips_untimed_driver_witness :
  exists out,
    per_driver_pace_filter laps_with_outlier = Ok out
    /\ ((exists r, In r (rows laps_with_outlier) /\ LapTime (snd r) <> None) ->
        driver_rows (Some "HAM") (rows out) = [])
    /\ ((forall r, In r (rows laps_with_outlier) -> LapTime (snd r) = None) ->
        rows out = map add_seconds (rows laps_with_outlier)).
Proof.
  apply (pace_filter_skips_untimed_driver laps_with_outlier (Some "HAM")).
  - reflexivity.
  - reflexivity.
  - repeat constructor; simpl; intuition discriminate.
  - intros r [<-|[<-|[<-|[<-|[<-|[]]]]]]; simpl; intros H;
      first [discriminate H | reflexivity].
Defined.

(** C10: whenever a driver has a row with a lap time, the filter succeeds
    and its output holds a row of that driver; the smallest lap time of the
    driver is at most the fence the filter computes for the driver's
    group. *)
Theorem pace_filter_keeps_a_lap_per_driver (df : DataFrame) (r : Row) (t : Z) :
  lookup_dtype "LapTime" (columns df) = Some timedelta64 ->
  has_column "Driver" df = true ->
  In r (rows df) ->
  LapTime (snd r) = Some t ->
  exists out,
    per_driver_pace_filter df = Ok out
    /\ (exists r', In r' (rows out) /\ Driver (snd r') = Driver (snd r))
    /\ exists m,
        In m (driver_times (rows df) (Driver (snd r)))
        /\ (forall v, In v (driver_times (rows df) (Driver (snd r))) -> (m <= v)%Q)
        /\ (m <= fence_of (dropna_LapTime_s
                             (driver_rows (Driver (snd r))
                                          (map add_seconds (rows df)))))%Q.
Proof.
  intros Hlt Hd Hr Ht.
  pose proof (per_driver_pace_filter_eq df Hlt Hd) as Hrun.
  eexists. split; [exact Hrun|].
  set (rs := rows df) in *. set (d := Driver (snd r)).
  set (xr := map add_seconds rs).
  assert (Hne : driver_times rs d <> []).
  { intros E. pose proof (driver_times_In rs r t Hr Ht) as Hin.
    fold d in Hin. rewrite E in Hin. destruct Hin. }
  set (m := nthQ (sort_by Qle_bool (driver_times rs d)) 0).
  assert (Hm : In m (driver_times rs d)) by now apply sorted_head_In.
  assert (Hfence : (m <= tukey_fence (driver_times rs d))%Q)
    by now apply head_le_tukey_fence.
  destruct (driver_times_inv rs d m Hm) as [r0 [t0 [Hr0 [Hd0 [Ht0 Em]]]]].
  assert (Hkeep : group_keep xr (add_seconds r0) = true).
  { unfold xr. rewrite (group_keep_within_fence rs r0 Hr0).
    unfold within_fence. rewrite Ht0, Hd0, <- Em. now apply Qle_bool_iff. }
  assert (Hx0 : In (add_seconds r0) xr) by (unfold xr; now apply in_map).
  split; [|].
  - exists (add_seconds r0). split; [|exact Hd0].
    assert (Hk : In (fst (add_seconds r0)) (List.concat (pace_keep_idx xr)))
      by (apply pace_keep_idx_In; eauto).
    unfold loc_labels, with_seconds. cbn [rows]. fold rs. fold xr.
    apply loc_labels_In; [exact Hx0|].
    destruct (pace_keep_idx xr) as [|k0 ks] eqn:Ek; [destruct Hk|].
    rewrite <- Ek in *. unfold index_intersection, index. cbn [rows].
    apply filter_In. split.
    + apply (unique_by_In Z.eqb Z.eqb_eq). now apply in_map.
    + now apply (mem_by_In Z.eqb Z.eqb_eq).
  - exists m. split; [exact Hm|]. split.
    + intros v Hv. now apply sorted_head_min.
    + fold xr. rewrite fence_of_tukey; unfold xr;
        rewrite lap_seconds_driver_times; assumption.
Qed.

Lemma pace_filter_keeps_a_lap_per_driver_witness :
  exists out,
    per_driver_pace_filter laps_with_outlier = Ok out
    /\ (exists r', In r' (rows out) /\ Driver (snd r') = Some "VER")
    /\ exists m,
        In m (driver_times (rows laps_with_outlier) (Some "VER"))
        /\ (forall v, In v (driver_times (rows laps_with_outlier) (Some "VER"))
                      -> (m <= v)%Q)
        /\ (m <= fence_of (dropna_LapTime_s
                             (driver_rows (Some "VER")
                                (map add_seconds (rows laps_with_outlier)))))%Q.
Proof.
  apply (pace_filter_keeps_a_lap_per_driver laps_with_outlier
           (3%Z, racing_lap "VER" "Red Bull" 4 200000 4) 200000000000%Z).
  - reflexivity.
  - reflexivity.
  - simpl. auto.
  - reflexivity.
Defined.

(** ** The cleaning pipeline *)

Lemma lookup_ensure_column (c c' : string) (d : DataFrame) :
  lookup_dtype c (columns (ensure_column d c'))
  = if String.eqb c c'
    then match lookup_dtype c (columns d) with
         | Some t => Some t
         | None => Some object_
         end
    else lookup_dtype c (columns d).
Proof.
  unfold ensure_column. destruct (has_column c' d) eqn:H.
  - destruct (String.eqb_spec c c') as [->|Hne]; [|reflexivity].
    apply has_column_lookup in H. destruct H as [t ->]. reflexivity.
  - unfold assign_NA. cbn [columns].
    destruct (String.eqb_spec c c') as [->|Hne].
    + apply has_column_false_lookup in H. rewrite H.
      apply lookup_set_dtype_same.
    + now apply lookup_set_dtype_other.
Qed.

Lemma lookup_fold_ensure (c : string) (cs : list string) (d : DataFrame) :
  lookup_dtype c (columns (fold_left ensure_column cs d))
  = match lookup_dtype c (columns d) with
    | Some t => Some t
    | None => if str_in c cs then Some object_ else None
    end.
Proof.
  revert d. induction cs as [|c' cs IH]; intros d; simpl.
  - destruct (lookup_dtype c (columns d)); reflexivity.
  - rewrite IH, lookup_ensure_column. unfold str_in. cbn [mem_by].
    destruct (String.eqb c c'); simpl;
      destruct (lookup_dtype c (columns d)); reflexivity.
Qed.

(** After the synthesis every needed column is there: with its own dtype
    when the input had it, as an object column otherwise. *)
Lemma lookup_synthesize (c : string) (df : DataFrame) :
  str_in c need = true ->
  lookup_dtype c (columns (synthesize df))
  = Some match lookup_dtype c (columns df) with
         | Some t => t
         | None => object_
         end.
Proof.
  intros H. unfold synthesize. rewrite lookup_fold_ensure, H.
  destruct (lookup_dtype c (columns df)); reflexivity.
Qed.

Lemma is_green_rows (t : dtype) (rs : list Row) :
  is_green (mkSeries t (map (fun r => TrackStatus (snd r)) rs))
  = map green_row rs.
Proof.
  unfold is_green. cbn [s_values]. rewrite !map_map.
  rewrite (map2_map_map orb (fun r : Row => cell_isna (TrackStatus (snd r)))
             (fun r : Row => String.eqb (strip (astype_str (TrackStatus (snd r)))) "1")).
  reflexivity.
Qed.

(** [drop_in_out] keeps the rows with neither pit time, in order. *)
Lemma drop_in_out_eq (df : DataFrame) :
  has_column "PitOutTime" df = true ->
  has_column "PitInTime" df = true ->
  drop_in_out df = Ok (mkDF (columns df) (filter no_pit_row (rows df))).
Proof.
  intros Ho Hi. apply has_column_lookup in Ho, Hi.
  destruct Ho as [to Ho], Hi as [ti Hi].
  unfold drop_in_out, column. rewrite Ho, Hi. cbn [bind s_values].
  unfold loc_mask. rewrite !map_map.
  rewrite (map2_map_map andb (fun r : Row => isNone (PitOutTime (snd r)))
             (fun r : Row => isNone (PitInTime (snd r)))).
  rewrite (select_mask_map no_pit_row). reflexivity.
Qed.

(** The part of [clean_laps] after the pace filter. *)
Lemma clean_laps_unfold (df0 : DataFrame) :
  clean_laps df0 =
  (df <- per_driver_pace_filter
           (mkDF (columns (synthesize df0)) (candidate_rows df0)) ;;
   tl <- column "TyreLife" TyreLife df ;;
   lt <- column "LapTime" LapTime
           (if char_in (kind (s_dtype tl)) "fi" then df
            else assign_TyreLife df (to_numeric tl)) ;;
   secs <- dt_total_seconds lt ;;
   Ok (assign_LapTime_s
         (if char_in (kind (s_dtype tl)) "fi" then df
          else assign_TyreLife df (to_numeric tl)) secs)).
Proof.
  unfold clean_laps. cbv zeta.
  unfold column at 1. rewrite (lookup_synthesize "LapTime" df0 eq_refl).
  cbn [bind s_values]. rewrite map_map.
  unfold loc_mask at 1 2 3. cbn [columns rows].
  rewrite (select_mask_map timed_row).
  unfold column at 1. cbn [columns rows].
  rewrite (lookup_synthesize "TrackStatus" df0 eq_refl).
  cbn [bind]. rewrite is_green_rows.
  unfold loc_mask. cbn [columns rows].
  rewrite (select_mask_map green_row).
  rewrite drop_in_out_eq.
  - cbn [bind columns rows]. reflexivity.
  - apply has_column_lookup. cbn [columns]. eexists.
    apply (lookup_synthesize "PitOutTime" df0 eq_refl).
  - apply has_column_lookup. cbn [columns]. eexists.
    apply (lookup_synthesize "PitInTime" df0 eq_refl).
Qed.

Lemma column_ok_inv {A : Type} (c : string) (f : Lap -> A) (df : DataFrame)
    (s : Series A) :
  column c f df = Ok s ->
  exists t, lookup_dtype c (columns df) = Some t
            /\ s = mkSeries t (map (fun r => f (snd r)) (rows df)).
Proof.
  unfold column. destruct (lookup_dtype c (columns df)) as [t|]; [|discriminate].
  intros H. injection H as <-. eauto.
Qed.

Lemma dt_total_seconds_ok_inv (s : Series (option Z)) (secs : Series (option Q)) :
  dt_total_seconds s = Ok secs ->
  s_dtype s = timedelta64
  /\ secs = mkSeries float64 (map (option_map total_seconds) (s_values s)).
Proof.
  unfold dt_total_seconds. destruct (s_dtype s); try discriminate.
  intros H. injection H as <-. auto.
Qed.

Lemma pace_filter_ok_inv (df out : DataFrame) :
  per_driver_pace_filter df = Ok out ->
  lookup_dtype "LapTime" (columns df) = Some timedelta64
  /\ has_column "Driver" df = true.
Proof.
  unfold per_driver_pace_filter. intros H.
  apply bind_ok in H. destruct H as [lt [Hlt H]].
  apply bind_ok in H. destruct H as [secs [Hs H]].
  apply bind_ok in H. destruct H as [drv [Hd _]].
  apply column_ok_inv in Hlt. destruct Hlt as [t [Ht ->]].
  apply dt_total_seconds_ok_inv in Hs. cbn [s_dtype s_values] in Hs.
  destruct Hs as [-> ->]. split; [exact Ht|].
  apply column_ok_inv in Hd. destruct Hd as [u [Hu _]].
  unfold assign_LapTime_s in Hu. cbn [columns s_dtype] in Hu.
  rewrite lookup_set_dtype_other in Hu by discriminate.
  apply has_column_lookup. eauto.
Qed.

(** Every row the pace filter returns is a row of its input, with
    [LapTime_s] filled in. *)
Lemma pace_filter_subset (df out : DataFrame) (r : Row) :
  per_driver_pace_filter df = Ok out -> In r (rows out) ->
  exists r0, In r0 (rows df) /\ r = add_seconds r0.
Proof.
  intros H Hr. destruct (pace_filter_ok_inv df out H) as [Hlt Hd].
  rewrite (per_driver_pace_filter_eq df Hlt Hd) in H. injection H as <-.
  unfold loc_labels, with_seconds in Hr. cbn [rows] in Hr.
  apply in_flat_map in Hr. destruct Hr as [l [_ Hr]].
  apply filter_In in Hr. destruct Hr as [Hr _].
  apply in_map_iff in Hr. destruct Hr as [r0 [<- Hr0]]. eauto.
Qed.

Lemma pace_filter_columns (df out : DataFrame) :
  per_driver_pace_filter df = Ok out ->
  columns out = set_dtype "LapTime_s" float64 (columns df).
Proof.
  intros H. destruct (pace_filter_ok_inv df out H) as [Hlt Hd].
  rewrite (per_driver_pace_filter_eq df Hlt Hd) in H. injection H as <-.
  reflexivity.
Qed.

Lemma with_TyreLife_same (r : Lap) : with_TyreLife (TyreLife r) r = r.
Proof. destruct r; reflexivity. Qed.

Lemma assign_TyreLife_rows (df : DataFrame) (t : dtype) :
  rows (assign_TyreLife df
          (to_numeric (mkSeries t (map (fun r => TyreLife (snd r)) (rows df)))))
  = rows df.
Proof.
  unfold assign_TyreLife, to_numeric. cbn [rows s_values].
  rewrite map2_map_r. induction (rows df) as [|[l r] rs IH]; simpl;
    [reflexivity|]. now rewrite with_TyreLife_same, IH.
Qed.

Lemma add_seconds_twice (r : Row) : add_seconds (add_seconds r) = add_seconds r.
Proof. reflexivity. Qed.

(** Every cleaned row is a candidate row with [LapTime_s] filled in. *)
Lemma clean_laps_rows_inv (df0 out : DataFrame) (r : Row) :
  clean_laps df0 = Ok out -> In r (rows out) ->
  exists r0, In r0 (candidate_rows df0) /\ r = add_seconds r0.
Proof.
  rewrite clean_laps_unfold. intros H Hr.
  apply bind_ok in H. destruct H as [df5 [Hp H]].
  apply bind_ok in H. destruct H as [tl [Htl H]].
  apply bind_ok in H. destruct H as [lt [Hlt H]].
  apply bind_ok in H. destruct H as [secs [Hs H]].
  injection H as <-.
  apply column_ok_inv in Htl. destruct Htl as [t [_ ->]].
  apply column_ok_inv in Hlt. destruct Hlt as [u [_ ->]].
  apply dt_total_seconds_ok_inv in Hs. cbn [s_dtype s_values] in Hs.
  destruct Hs as [-> ->].
  rewrite assign_seconds_eq in Hr. unfold with_seconds in Hr. cbn [rows] in Hr.
  apply in_map_iff in Hr. destruct Hr as [r5 [<- Hr5]].
  assert (Hr5' : In r5 (rows df5)).
  { destruct (char_in _ _); [exact Hr5|].
    now rewrite assign_TyreLife_rows in Hr5. }
  destruct (pace_filter_subset _ _ r5 Hp Hr5') as [r0 [Hr0 ->]].
  cbn [rows] in Hr0. exists r0. split; [exact Hr0 | reflexivity].
Qed.

(** [clean_laps] succeeds on every table whose [LapTime] column holds
    durations, whichever other columns are absent. *)
Lemma clean_laps_total (df0 : DataFrame) :
  lookup_dtype "LapTime" (columns df0) = Some timedelta64 ->
  exists out, clean_laps df0 = Ok out.
Proof.
  intros Hlt. rewrite clean_laps_unfold.
  set (c := mkDF (columns (synthesize df0)) (candidate_rows df0)).
  assert (Hc : lookup_dtype "LapTime" (columns c) = Some timedelta64).
  { unfold c. cbn [columns].
    rewrite (lookup_synthesize "LapTime" df0 eq_refl), Hlt. reflexivity. }
  assert (Hd : has_column "Driver" c = true).
  { apply has_column_lookup. unfold c. cbn [columns]. eexists.
    apply (lookup_synthesize "Driver" df0 eq_refl). }
  rewrite (per_driver_pace_filter_eq c Hc Hd). cbn [bind].
  set (keep := match pace_keep_idx _ with [] => _ | _ => _ end).
  unfold column at 1. unfold loc_labels at 1, with_seconds at 1.
  cbn [columns]. rewrite lookup_set_dtype_other by discriminate.
  unfold c at 1. cbn [columns].
  rewrite (lookup_synthesize "TyreLife" df0 eq_refl). cbn [bind s_dtype].
  set (t := match lookup_dtype "TyreLife" (columns df0) with
            | Some t => t | None => object_ end).
  assert (Hl : forall d, columns d = columns (with_seconds c)
                         \/ columns d = set_dtype "TyreLife" float64
                                          (columns (with_seconds c)) ->
                         lookup_dtype "LapTime" (columns d) = Some timedelta64).
  { intros d [E|E]; rewrite E; unfold with_seconds; cbn [columns];
      rewrite ?lookup_set_dtype_other by discriminate; exact Hc. }
  destruct (char_in (kind t) "fi").
  - match goal with
    | |- context [column _ _ ?d] =>
        unfold column; rewrite (Hl d (or_introl eq_refl))
    end.
    cbn [bind]. unfold dt_total_seconds. cbn [s_dtype bind]. eauto.
  - match goal with
    | |- context [column _ _ ?d] =>
        unfold column; rewrite (Hl d (or_intror eq_refl))
    end.
    cbn [bind]. unfold dt_total_seconds. cbn [s_dtype bind]. eauto.
Qed.

(** Without a [LapTime] column the synthesized object column reaches the
    [.dt] accessor of the pace filter, which raises. *)
Lemma clean_laps_needs_LapTime (df0 : DataFrame) :
  has_column "LapTime" df0 = false ->
  clean_laps df0
  = Raise (AttributeError "Can only use .dt accessor with datetimelike values").
Proof.
  intros H. apply has_column_false_lookup in H.
  rewrite clean_laps_unfold. unfold per_driver_pace_filter, column at 1.
  cbn [columns]. rewrite (lookup_synthesize "LapTime" df0 eq_refl), H.
  reflexivity.
Qed.

Lemma green_row_status (r : Row) :
  green_row r = true <-> green_status (TrackStatus (snd r)).
Proof.
  unfold green_row, green_status. rewrite orb_true_iff, String.eqb_eq.
  destruct (TrackStatus (snd r)); simpl; split; intros [H|H]; auto;
    discriminate.
Qed.

Lemma candidate_rows_In (df : DataFrame) (r : Row) :
  In r (candidate_rows df) <->
  In r (rows (synthesize df)) /\ timed_row r = true /\ green_row r = true
  /\ no_pit_row r = true.
Proof. unfold candidate_rows. rewrite !filter_In. tauto. Qed.

Lemma no_pit_row_iff (r : Row) :
  no_pit_row r = true <->
  PitInTime (snd r) = None /\ PitOutTime (snd r) = None.
Proof.
  unfold no_pit_row, isNone, isSome. rewrite andb_true_iff.
  destruct (PitInTime (snd r)), (PitOutTime (snd r)); simpl;
    split; intros [? ?]; split; congruence.
Qed.

(* ------------------------------------------------------------------ *)
(** ** Claims on the row filters and on [clean_laps] *)

(** C3: the green-flag filter keeps a row exactly when its track status is
    missing or its string form, trimmed, is ["1"]; and every row of the
    cleaned table has such a status. *)
Theorem green_flag_filter (df out : DataFrame) :
  (forall ts,
      column "TrackStatus" TrackStatus df = Ok ts ->
      rows (loc_mask df (is_green ts)) = filter green_row (rows df)
      /\ forall r, In r (rows (loc_mask df (is_green ts))) <->
                   In r (rows df) /\ green_status (TrackStatus (snd r)))
  /\ (clean_laps df = Ok out ->
      forall r, In r (rows out) -> green_status (TrackStatus (snd r))).
Proof.
  split.
  - intros ts Hts. apply column_ok_inv in Hts. destruct Hts as [t [_ ->]].
    assert (E : rows (loc_mask df
                        (is_green (mkSeries t (map (fun r => TrackStatus (snd r))
                                                   (rows df)))))
                = filter green_row (rows df)).
    { rewrite is_green_rows. unfold loc_mask. cbn [rows].
      apply select_mask_map. }
    split; [exact E|]. intros r. rewrite E, filter_In, green_row_status.
    tauto.
  - intros H r Hr.
    destruct (clean_laps_rows_inv df out r H Hr) as [r0 [Hr0 ->]].
    apply candidate_rows_In in Hr0. destruct Hr0 as [_ [_ [Hg _]]].
    apply green_row_status in Hg. exact Hg.
Qed.

Lemma green_flag_filter_witness :
  (exists ts,
      column "TrackStatus" TrackStatus laps_mixed = Ok ts
      /\ rows (loc_mask laps_mixed (is_green ts))
         = filter green_row (rows laps_mixed)
      /\ forall r, In r (rows (loc_mask laps_mixed (is_green ts))) <->
                   In r (rows laps_mixed) /\ green_status (TrackStatus (snd r)))
  /\ exists out,
      clean_laps laps_mixed = Ok out
      /\ forall r, In r (rows out) -> green_status (TrackStatus (snd r)).
Proof.
  split.
  - eexists. split; [reflexivity|].
    apply (proj1 (green_flag_filter laps_mixed laps_mixed)). reflexivity.
  - eexists. split; [vm_compute; reflexivity|].
    apply (proj2 (green_flag_filter laps_mixed _)). vm_compute. reflexivity.
Defined.

(** C4: the in/out-lap filter keeps a row exactly when both its pit times
    are missing; and every row of the cleaned table is a row of the
    (column-completed) input that had neither pit time, whatever its track
    status. *)
Theorem in_out_lap_filter (df out : DataFrame) :
  (forall kept,
      drop_in_out df = Ok kept ->
      rows kept = filter no_pit_row (rows df)
      /\ forall r, In r (rows kept) <->
                   In r (rows df)
                   /\ PitInTime (snd r) = None /\ PitOutTime (snd r) = None)
  /\ (clean_laps df = Ok out ->
      forall r, In r (rows out) ->
                PitInTime (snd r) = None /\ PitOutTime (snd r) = None
                /\ exists r0, In r0 (rows (synthesize df))
                              /\ r = add_seconds r0
                              /\ PitInTime (snd r0) = None
                              /\ PitOutTime (snd r0) = None).
Proof.
  split.
  - intros kept H.
    assert (E : rows kept = filter no_pit_row (rows df)).
    { pose proof H as H'. unfold drop_in_out in H'.
      apply bind_ok in H'. destruct H' as [po [Hpo H']].
      apply bind_ok in H'. destruct H' as [pi [Hpi _]].
      apply column_ok_inv in Hpo, Hpi.
      destruct Hpo as [t [Ht _]], Hpi as [u [Hu _]].
      rewrite drop_in_out_eq in H by (apply has_column_lookup; eauto).
      injection H as <-. reflexivity. }
    split; [exact E|]. intros r. rewrite E, filter_In, no_pit_row_iff. tauto.
  - intros H r Hr.
    destruct (clean_laps_rows_inv df out r H Hr) as [r0 [Hr0 ->]].
    apply candidate_rows_In in Hr0. destruct Hr0 as [Hin [_ [_ Hp]]].
    apply no_pit_row_iff in Hp. destruct Hp as [Hi Ho].
    split; [exact Hi|]. split; [exact Ho|]. exists r0. auto.
Qed.

Lemma in_out_lap_filter_witness :
  (exists kept,
      drop_in_out laps_mixed = Ok kept
      /\ rows kept = filter no_pit_row (rows laps_mixed)
      /\ forall r, In r (rows kept) <->
                   In r (rows laps_mixed)
                   /\ PitInTime (snd r) = None /\ PitOutTime (snd r) = None)
  /\ exists out,
      clean_laps laps_mixed = Ok out
      /\ forall r, In r (rows out) ->
                   PitInTime (snd r) = None /\ PitOutTime (snd r) = None
                   /\ exists r0, In r0 (rows (synthesize laps_mixed))
                                 /\ r = add_seconds r0
                                 /\ PitInTime (snd r0) = None
                                 /\ PitOutTime (snd r0) = None.
Proof.
  split.
  - eexists. split; [vm_compute; reflexivity|].
    apply (proj1 (in_out_lap_filter laps_mixed laps_mixed)).
    vm_compute. reflexivity.
  - eexists. split; [vm_compute; reflexivity|].
    apply (proj2 (in_out_lap_filter laps_mixed _)). vm_compute. reflexivity.
Defined.

(** C5: on a raw lap table without [LapTime] column the synthesis does add
    the column as an all-missing object column, yet [clean_laps] does not
    complete: the pace filter raises on the [.dt] accessor of that
    column. *)
Theorem clean_laps_fails_without_LapTime :
  has_column "LapTime" laps_without_LapTime = false
  /\ lookup_dtype "LapTime" (columns (synthesize laps_without_LapTime))
     = Some object_
  /\ (forall r, In r (rows (synthesize laps_without_LapTime)) ->
                LapTime (snd r) = None)
  /\ clean_laps laps_without_LapTime
     = Raise (AttributeError "Can only use .dt accessor with datetimelike values").
Proof.
  split; [reflexivity|]. split; [reflexivity|]. split.
  - intros r [<-|[<-|[]]]; reflexivity.
  - vm_compute. reflexivity.
Qed.

(** ** The stint summary *)

Lemma stint_key_eqb_eq (a b : StintKey) : stint_key_eqb a b = true <-> a = b.
Proof.
  destruct a as [[d1 s1] c1], b as [[d2 s2] c2]. unfold stint_key_eqb.
  rewrite !andb_true_iff, !key_eqb_eq, optZ_eqb_eq.
  split; [intros [[-> ->] ->]; reflexivity | intros H; injection H; auto].
Qed.

Lemma Zsum_app (l m : list Z) : Zsum (l ++ m) = (Zsum l + Zsum m)%Z.
Proof. unfold Zsum. induction l; simpl; lia. Qed.

Lemma Zsum_perm (l m : list Z) : Permutation l m -> Zsum l = Zsum m.
Proof. unfold Zsum. induction 1; simpl; lia. Qed.

Lemma filter_perm {A : Type} (f : A -> bool) (l m : list A) :
  Permutation l m -> Permutation (filter f l) (filter f m).
Proof.
  induction 1 as [|x l m _ IH|x y l|l m n _ IH1 _ IH2]; simpl.
  - constructor.
  - destruct (f x); [now constructor | exact IH].
  - destruct (f x), (f y); try apply Permutation_refl. apply perm_swap.
  - eapply perm_trans; eauto.
Qed.

Lemma laps_of_driver_perm (d : option string) (l m : list StintRow) :
  Permutation l m -> laps_of_driver d l = laps_of_driver d m.
Proof.
  intros H. unfold laps_of_driver. apply Zsum_perm, Permutation_map.
  now apply filter_perm.
Qed.

Section LapCount.
Variable d : option string.

Lemma share_cons (r : Row) (rs : list Row) (k : StintKey) :
  share d (r :: rs) k = (unit_share d r k + share d rs k)%Z.
Proof.
  unfold share, unit_share, has_lap_number, present.
  cbn [filter].
  destruct (stint_key_eqb (stint_key (snd r)) k);
    destruct (key_eqb (fst (fst k)) d); cbn [andb flat_map]; try reflexivity.
  destruct (LapNumber (snd r)); cbn [isSome app List.length]; lia.
Qed.

Lemma Zsum_map_add {A : Type} (f g : A -> Z) (l : list A) :
  Zsum (map (fun x => f x + g x)%Z l) = (Zsum (map f l) + Zsum (map g l))%Z.
Proof. unfold Zsum. induction l; simpl; lia. Qed.

(** Among distinct keys exactly one is the key of a given row. *)
Lemma unit_share_sum (r : Row) (K : list StintKey) :
  NoDup K -> In (stint_key (snd r)) K ->
  Zsum (map (unit_share d r) K)
  = (if key_eqb (Driver (snd r)) d && has_lap_number r then 1 else 0)%Z.
Proof.
  induction 1 as [|k K Hn Hd IH]; intros Hin; [destruct Hin|].
  simpl. unfold Zsum in *. simpl.
  destruct Hin as [E|Hin].
  - subst k. unfold unit_share at 1.
    rewrite (proj2 (stint_key_eqb_eq _ _) eq_refl). simpl.
    assert (Z0 : fold_right Z.add 0%Z (map (unit_share d r) K) = 0%Z).
    { clear IH Hd. induction K as [|k' K IHK]; simpl; [reflexivity|].
      rewrite IHK by (intros C; apply Hn; now right).
      unfold unit_share.
      destruct (stint_key_eqb (stint_key (snd r)) k') eqn:E; [|reflexivity].
      apply stint_key_eqb_eq in E. exfalso. apply Hn. now left. }
    rewrite Z0. lia.
  - rewrite (IH Hin). unfold unit_share at 1.
    destruct (stint_key_eqb (stint_key (snd r)) k) eqn:E; [|lia].
    apply stint_key_eqb_eq in E. subst k. contradiction.
Qed.

Lemma share_sum (K : list StintKey) (rs : list Row) :
  NoDup K -> (forall r, In r rs -> In (stint_key (snd r)) K) ->
  Zsum (map (share d rs) K)
  = Z.of_nat (List.length (filter has_lap_number (driver_rows d rs))).
Proof.
  intros Hn. induction rs as [|r rs IH]; intros Hin.
  - unfold share. simpl. clear. induction K as [|k K IHK]; simpl.
    + reflexivity.
    + unfold Zsum in *. simpl. rewrite IHK.
      destruct (key_eqb (fst (fst k)) d); reflexivity.
  - rewrite (map_ext _ (fun k => unit_share d r k + share d rs k)%Z)
      by (intros k; apply share_cons).
    rewrite Zsum_map_add, unit_share_sum by (auto; apply Hin; now left).
    rewrite IH by (intros r' Hr'; apply Hin; now right).
    unfold driver_rows. cbn [filter].
    destruct (key_eqb (Driver (snd r)) d); cbn [andb filter]; [|lia].
    destruct (has_lap_number r); cbn [List.length]; lia.
Qed.

Lemma laps_of_driver_groups (K : list StintKey) (rs : list Row) :
  laps_of_driver d
    (map summarize
         (map (fun k => (k, filter (fun r => stint_key_eqb (stint_key (snd r)) k) rs))
              K))
  = Zsum (map (share d rs) K).
Proof.
  unfold laps_of_driver. induction K as [|[[kd ks] kc] K IH]; [reflexivity|].
  cbn [map filter summarize fst snd st_Driver]. unfold share at 1.
  cbn [fst]. unfold Zsum in *.
  destruct (key_eqb kd d); cbn [map fold_right laps]; rewrite IH; reflexivity.
Qed.
End LapCount.

Lemma require_columns_ok (cs : list string) (df : DataFrame) :
  (forall c, In c cs -> has_column c df = true) -> require_columns cs df = Ok tt.
Proof.
  unfold require_columns.
  assert (G : forall acc, acc = Ok tt ->
              (forall c, In c cs -> has_column c df = true) ->
              fold_left (fun acc c => _ <- acc ;;
                           if has_column c df then Ok tt else Raise (KeyError c))
                        cs acc = Ok tt); [|now apply G].
  induction cs as [|c cs IH]; intros acc -> H; simpl; [reflexivity|].
  apply IH; [|intros c' Hc'; apply H; now right].
  now rewrite (H c (or_introl eq_refl)).
Qed.

Lemma require_columns_inv (cs : list string) (df : DataFrame) (u : unit) :
  require_columns cs df = Ok u -> forall c, In c cs -> has_column c df = true.
Proof.
  unfold require_columns.
  assert (G : forall acc u,
              fold_left (fun acc c => _ <- acc ;;
                           if has_column c df then Ok tt else Raise (KeyError c))
                        cs acc = Ok u ->
              (exists v, acc = Ok v)
              /\ forall c, In c cs -> has_column c df = true).
  { induction cs as [|c cs IH]; intros acc v H; simpl in *.
    - split; [eauto | intros c []].
    - apply IH in H. destruct H as [[w Hw] Hall].
      destruct acc as [a|e]; [|discriminate]. simpl in Hw.
      split; [eauto|]. intros c' [<-|Hc']; [|auto].
      destruct (has_column c df); [reflexivity|discriminate]. }
  intros H. exact (proj2 (G _ _ H)).
Qed.

(** What [stint_summary] returns once its columns are there. *)
Lemma stint_summary_eq (df : DataFrame) :
  (forall c, In c stint_columns -> has_column c df = true) ->
  stint_summary df
  = Ok (sort_by driver_stint_leb
          (map summarize
               (groupby stint_key_eqb stint_key_leb stint_key (rows df)))).
Proof.
  intros H. unfold stint_summary.
  change ["Driver"; "Stint"; "Compound"; "LapNumber"; "LapTime_s"]
    with stint_columns.
  now rewrite (require_columns_ok _ _ H).
Qed.

Lemma stint_keys_NoDup (rs : list Row) :
  NoDup (sort_by stint_key_leb
           (unique_by stint_key_eqb (map (fun r => stint_key (snd r)) rs))).
Proof. apply sort_by_NoDup, (unique_by_NoDup _ stint_key_eqb_eq). Qed.

Lemma stint_keys_cover (rs : list Row) (r : Row) :
  In r rs ->
  In (stint_key (snd r))
     (sort_by stint_key_leb
        (unique_by stint_key_eqb (map (fun r => stint_key (snd r)) rs))).
Proof.
  intros H. apply sort_by_In. apply (unique_by_In _ stint_key_eqb_eq).
  apply in_map_iff. eauto.
Qed.

(* ------------------------------------------------------------------ *)
(** ** Claim on the stint summary *)

(** C7 (as stated, refuted): a raw table without [LapNumber] column is
    cleaned to one row of VER, and the stint summary of that cleaned table
    counts zero laps for VER. *)
Lemma stint_laps_skip_unnumbered_rows :
  exists cl st,
    clean_laps laps_without_LapNumber = Ok cl
    /\ stint_summary cl = Ok st
    /\ List.length (driver_rows (Some "VER") (rows cl)) = 1%nat
    /\ laps_of_driver (Some "VER") st = 0%Z.
Proof.
  eexists. eexists. split; [vm_compute; reflexivity|].
  split; [vm_compute; reflexivity|]. split; reflexivity.
Qed.

(** C7 (amended): grouping a cleaned-lap table by (driver, stint, compound),
    a missing key value forming a group of its own, gives every row's key a
    summary row, and the lap counts of a driver's groups add up to the number
    of that driver's rows whose lap number is present: to the number of all
    the driver's rows when none of them lacks a lap number. *)
Theorem stint_laps_sum_per_driver (df : DataFrame) (d : option string) :
  (forall c, In c stint_columns -> has_column c df = true) ->
  exists st,
    stint_summary df = Ok st
    /\ (forall r, In r (rows df) ->
          exists s, In s st
                    /\ (st_Driver s, st_Stint s, st_Compound s) = stint_key (snd r))
    /\ laps_of_driver d st
       = Z.of_nat (List.length (filter has_lap_number (driver_rows d (rows df))))
    /\ ((forall r, In r (driver_rows d (rows df)) -> LapNumber (snd r) <> None) ->
        laps_of_driver d st = Z.of_nat (List.length (driver_rows d (rows df)))).
Proof.
  intros Hc. eexists. split; [apply (stint_summary_eq df Hc)|].
  assert (Hsum : laps_of_driver d
                   (sort_by driver_stint_leb
                      (map summarize
                         (groupby stint_key_eqb stint_key_leb stint_key (rows df))))
                 = Z.of_nat (List.length
                               (filter has_lap_number (driver_rows d (rows df))))).
  { rewrite (laps_of_driver_perm d _ _ (sort_by_perm driver_stint_leb _)).
    unfold groupby. rewrite laps_of_driver_groups.
    apply share_sum; [apply stint_keys_NoDup | apply stint_keys_cover]. }
  split; [|split; [exact Hsum|]].
  - intros r Hr.
    exists (summarize (stint_key (snd r),
                       filter (fun r' => stint_key_eqb (stint_key (snd r'))
                                                       (stint_key (snd r)))
                              (rows df))).
    split.
    + apply sort_by_In. apply in_map. unfold groupby.
      apply in_map_iff. eexists. split; [reflexivity|].
      now apply stint_keys_cover.
    + unfold summarize, stint_key. reflexivity.
  - intros Hall. rewrite Hsum. f_equal. f_equal.
    rewrite <- (filter_true (driver_rows d (rows df))) at 2.
    apply filter_ext_In. intros r Hr. unfold has_lap_number.
    specialize (Hall r Hr). destruct (LapNumber (snd r)); [reflexivity|congruence].
Qed.

Lemma stint_laps_sum_per_driver_witness :
  exists st,
    stint_summary cleaned_laps = Ok st
    /\ (forall r, In r (rows cleaned_laps) ->
          exists s, In s st
                    /\ (st_Driver s, st_Stint s, st_Compound s) = stint_key (snd r))
    /\ laps_of_driver (Some "VER") st
       = Z.of_nat (List.length
                     (filter has_lap_number
                             (driver_rows (Some "VER") (rows cleaned_laps))))
    /\ ((forall r, In r (driver_rows (Some "VER") (rows cleaned_laps)) ->
                   LapNumber (snd r) <> None) ->
        laps_of_driver (Some "VER") st
        = Z.of_nat (List.length (driver_rows (Some "VER") (rows cleaned_laps)))).
Proof.
  apply (stint_laps_sum_per_driver cleaned_laps (Some "VER")).
  intros c Hc. simpl in Hc.
  destruct Hc as [<-|[<-|[<-|[<-|[<-|[]]]]]]; vm_compute; reflexivity.
Defined.

(** ** The degradation fit *)

Lemma simple_deg_fit_eq (polyfit1 : list Q -> list Q -> Q * Q) (sqrt : Q -> Q)
    (df : DataFrame) :
  (forall c, In c fit_columns -> has_column c df = true) ->
  simple_deg_fit polyfit1 sqrt df
  = match flat_map (fit_of_group polyfit1 sqrt)
                   (groupby key_eqb key_leb Compound (dropna_fit (rows df))) with
    | [] => Raise (KeyError "Compound")
    | f :: fs =>
        Ok (sort_by fit_leb
              (flat_map (fit_of_group polyfit1 sqrt)
                        (groupby key_eqb key_leb Compound (dropna_fit (rows df)))))
    end.
Proof.
  intros H. unfold simple_deg_fit.
  change ["LapTime_s"; "TyreLife"; "Compound"] with fit_columns.
  rewrite (require_columns_ok _ _ H). cbn [bind].
  destruct (flat_map _ _); reflexivity.
Qed.

Lemma simple_deg_fit_ok_inv (polyfit1 : list Q -> list Q -> Q * Q) (sqrt : Q -> Q)
    (df : DataFrame) (fits : list FitRow) :
  simple_deg_fit polyfit1 sqrt df = Ok fits ->
  fits = sort_by fit_leb
           (flat_map (fit_of_group polyfit1 sqrt)
                     (groupby key_eqb key_leb Compound (dropna_fit (rows df))))
  /\ fits <> [].
Proof.
  intros H. pose proof H as H'. unfold simple_deg_fit in H'.
  apply bind_ok in H'. destruct H' as [u [Hu _]].
  rewrite simple_deg_fit_eq in H by (apply (require_columns_inv _ _ _ Hu)).
  destruct (flat_map _ _) as [|f fs] eqn:E; [discriminate|].
  injection H as <-. split; [reflexivity|].
  intros C. apply (f_equal (@List.length _)) in C.
  rewrite (Permutation_length (insert_by_perm fit_leb f _)) in C.
  discriminate C.
Qed.

Lemma fit_of_group_In (polyfit1 : list Q -> list Q -> Q * Q) (sqrt : Q -> Q)
    (rs : list Row) (k : option string) (f : FitRow) :
  In f (fit_of_group polyfit1 sqrt
          (k, filter (fun r => key_eqb (Compound (snd r)) k) (dropna_fit rs)))
  <-> exists comp, k = Some comp /\ qualifies rs comp = true
                   /\ f = fit_group polyfit1 sqrt comp (compound_group rs comp).
Proof.
  unfold fit_of_group, qualifies. cbn [fst snd].
  destruct k as [comp|].
  - fold (compound_group rs comp).
    rewrite (Nat.ltb_antisym 20 (List.length (compound_group rs comp))).
    rewrite (Nat.ltb_antisym 3 (nunique (present TyreLife (compound_group rs comp)))).
    rewrite <- negb_andb.
    destruct (_ && _) eqn:Eq; cbn [negb In].
    + split.
      * intros [<-|[]]. eauto.
      * intros [c [E [_ ->]]]. injection E as <-. now left.
    + split; [tauto|]. intros [c [E [C _]]]. injection E as <-. congruence.
  - simpl. split; [tauto | intros [c [C _]]; discriminate].
Qed.

Lemma qualifies_has_row (rs : list Row) (comp : string) :
  qualifies rs comp = true ->
  exists r, In r (dropna_fit rs) /\ Compound (snd r) = Some comp.
Proof.
  unfold qualifies. rewrite andb_true_iff, Nat.leb_le. intros [H _].
  destruct (compound_group rs comp) as [|r g] eqn:E; [simpl in H; lia|].
  assert (Hr : In r (compound_group rs comp)) by (rewrite E; now left).
  apply filter_In in Hr. destruct Hr as [Hr Hk]. apply key_eqb_eq in Hk. eauto.
Qed.

(** Whenever the fit returns a table, its rows are the fits of the
    qualifying compounds, one row each. *)
Lemma deg_fit_rows (polyfit1 : list Q -> list Q -> Q * Q) (sqrt : Q -> Q)
    (df : DataFrame) (fits : list FitRow) :
  simple_deg_fit polyfit1 sqrt df = Ok fits ->
  (forall f, In f fits <->
             exists comp, qualifies (rows df) comp = true
                          /\ f = fit_group polyfit1 sqrt comp
                                   (compound_group (rows df) comp))
  /\ NoDup (map f_Compound fits).
Proof.
  intros H. apply simple_deg_fit_ok_inv in H. destruct H as [-> _].
  set (rs := rows df). split.
  - intros f. rewrite sort_by_In, in_flat_map. split.
    + intros [[k g] [Hkg Hf]].
      apply (groupby_keys_In _ _ _ _ _ key_eqb_eq) in Hkg. cbn [fst snd] in Hkg.
      destruct Hkg as [_ ->]. apply fit_of_group_In in Hf.
      destruct Hf as [comp [_ [Hq ->]]]. eauto.
    + intros [comp [Hq ->]].
      exists (Some comp,
              filter (fun r => key_eqb (Compound (snd r)) (Some comp))
                     (dropna_fit rs)).
      split.
      * apply (groupby_keys_In _ _ _ _ _ key_eqb_eq). cbn [fst snd].
        split; [|reflexivity]. apply qualifies_has_row in Hq.
        destruct Hq as [r [Hr Hc]]. eauto.
      * apply fit_of_group_In. eauto.
  - eapply Permutation_NoDup;
      [apply Permutation_map, Permutation_sym, sort_by_perm|].
    unfold groupby. rewrite flat_map_concat_map, map_map.
    rewrite <- flat_map_concat_map.
    assert (Hnd : NoDup (sort_by key_leb
                           (unique_by key_eqb
                              (map (fun r => Compound (snd r)) (dropna_fit rs)))))
      by (apply sort_by_NoDup, (unique_by_NoDup _ key_eqb_eq)).
    induction Hnd as [|k ks Hn Hd IH]; [constructor|].
    cbn [flat_map]. rewrite map_app.
    assert (Hin : forall c ks',
               In c (map f_Compound
                       (flat_map
                          (fun x => fit_of_group polyfit1 sqrt
                             (x, filter (fun r => key_eqb (Compound (snd r)) x)
                                        (dropna_fit rs))) ks')) ->
               In (Some c) ks').
    { intros c ks' Hc. apply in_map_iff in Hc. destruct Hc as [f [<- Hf]].
      apply in_flat_map in Hf. destruct Hf as [k' [Hk' Hf]].
      apply fit_of_group_In in Hf. destruct Hf as [comp [-> [_ ->]]].
      unfold fit_group. destruct (polyfit1 _ _). exact Hk'. }
    apply NoDup_app; [| exact IH |].
    + unfold fit_of_group. cbn [fst snd]. destruct k as [comp|]; [|constructor].
      destruct (_ || _); simpl; repeat constructor; auto.
    + intros c Hc Hc'. apply Hn. apply Hin in Hc'.
      apply in_map_iff in Hc. destruct Hc as [f [<- Hf]].
      apply fit_of_group_In in Hf. destruct Hf as [comp [-> [_ ->]]].
      unfold fit_group in Hc'. destruct (polyfit1 _ _). exact Hc'.
Qed.

(** The fit returns a table as soon as one compound qualifies. *)
Lemma deg_fit_total (polyfit1 : list Q -> list Q -> Q * Q) (sqrt : Q -> Q)
    (df : DataFrame) (comp : string) :
  (forall c, In c fit_columns -> has_column c df = true) ->
  qualifies (rows df) comp = true ->
  exists fits, simple_deg_fit polyfit1 sqrt df = Ok fits.
Proof.
  intros Hc Hq. rewrite (simple_deg_fit_eq _ _ _ Hc).
  destruct (flat_map _ _) as [|f fs] eqn:E; [exfalso|eauto].
  assert (Hin : In (fit_group polyfit1 sqrt comp (compound_group (rows df) comp))
                   (flat_map (fit_of_group polyfit1 sqrt)
                             (groupby key_eqb key_leb Compound
                                      (dropna_fit (rows df))))).
  { apply in_flat_map.
    exists (Some comp,
            filter (fun r => key_eqb (Compound (snd r)) (Some comp))
                   (dropna_fit (rows df))).
    split.
    - apply (groupby_keys_In _ _ _ _ _ key_eqb_eq). cbn [fst snd].
      split; [|reflexivity]. apply qualifies_has_row in Hq.
      destruct Hq as [r [Hr Hk]]. eauto.
    - apply fit_of_group_In. eauto. }
  rewrite E in Hin. destruct Hin.
Qed.

(** Without a qualifying compound the fit raises. *)
Lemma deg_fit_raises (polyfit1 : list Q -> list Q -> Q * Q) (sqrt : Q -> Q)
    (df : DataFrame) :
  (forall c, In c fit_columns -> has_column c df = true) ->
  (forall comp, qualifies (rows df) comp = false) ->
  simple_deg_fit polyfit1 sqrt df = Raise (KeyError "Compound").
Proof.
  intros Hc Hq. rewrite (simple_deg_fit_eq _ _ _ Hc).
  destruct (flat_map _ _) as [|f fs] eqn:E; [reflexivity|exfalso].
  assert (Hin : In f (flat_map (fit_of_group polyfit1 sqrt)
                               (groupby key_eqb key_leb Compound
                                        (dropna_fit (rows df)))))
    by (rewrite E; now left).
  apply in_flat_map in Hin. destruct Hin as [[k g] [Hkg Hf]].
  apply (groupby_keys_In _ _ _ _ _ key_eqb_eq) in Hkg. cbn [fst snd] in Hkg.
  destruct Hkg as [_ ->]. apply fit_of_group_In in Hf.
  destruct Hf as [comp [_ [Hq' _]]]. rewrite Hq in Hq'. discriminate.
Qed.

(* ------------------------------------------------------------------ *)
(** ** Claim on the degradation fit *)

(** C2: a stint of 19 green soft-tyre laps is cleaned to 19 rows, all with
    lap time, tyre age and compound; on that table the degradation fit
    returns no table at all (it raises on sorting the empty result), and
    the job ends with status 1 before any file is written. *)
Theorem deg_fit_raises_on_19_rows
    (polyfit1 : list Q -> list Q -> Q * Q) (sqrt : Q -> Q)
    (format_f : nat -> Q -> string) :
  exists cl,
    clean_laps nineteen_laps = Ok cl
    /\ List.length (compound_group (rows cl) "SOFT") = 19%nat
    /\ simple_deg_fit polyfit1 sqrt cl = Raise (KeyError "Compound")
    /\ main polyfit1 sqrt format_f world_nineteen
       = (mkProc [] ["error: 'Compound'"] [], 1%Z).
Proof.
  eexists. split; [vm_compute; reflexivity|].
  split; [vm_compute; reflexivity|].
  split; vm_compute; reflexivity.
Qed.

(** ** The cleaning job *)

Section Job.
Variable polyfit1 : list Q -> list Q -> Q * Q.
Variable sqrt : Q -> Q.
Variable format_f : nat -> Q -> string.

Lemma main_of_raise (w : World) (e : exn) (p : Proc) :
  job polyfit1 sqrt format_f w (mkProc [] [] []) = (Raise e, p) ->
  main polyfit1 sqrt format_f w = (print_stderr ("error: " ++ exn_str e) p, 1%Z).
Proof. intros H. unfold main. now rewrite H. Qed.

Lemma main_mkdir_fails (w : World) (e : exn) :
  mkdir_out w = Some e -> main polyfit1 sqrt format_f w = failed_with e.
Proof.
  intros H. apply (main_of_raise w e (mkProc [] [] [])). unfold job, io_bind, io_lift.
  now rewrite H.
Qed.

Lemma main_read_laps_fails (w : World) (e : exn) :
  mkdir_out w = None -> read_laps w = Raise e -> main polyfit1 sqrt format_f w = failed_with e.
Proof.
  intros Hm H. apply (main_of_raise w e (mkProc [] [] [])). unfold job, io_bind, io_lift.
  now rewrite Hm, H.
Qed.

Lemma main_clean_laps_fails (w : World) (raw : DataFrame) (e : exn) :
  mkdir_out w = None -> read_laps w = Ok raw -> clean_laps raw = Raise e ->
  main polyfit1 sqrt format_f w = failed_with e.
Proof.
  intros Hm Hr H. apply (main_of_raise w e (mkProc [] [] [])).
  unfold job, io_bind, io_lift.
  now rewrite Hm, Hr, H.
Qed.

Lemma read_laps_absent (w : World) :
  raw_exists w = false -> read_laps w = Raise (FileNotFoundError raw_not_found).
Proof. intros H. unfold read_laps. now rewrite H. Qed.

Lemma main_status (w : World) : snd (main polyfit1 sqrt format_f w) = 0%Z \/ snd (main polyfit1 sqrt format_f w) = 1%Z.
Proof.
  unfold main.
  destruct (job polyfit1 sqrt format_f w (mkProc [] [] [])) as [[u|e] p]; auto.
Qed.

(** C9: when the raw lap file is absent, [read_laps] raises the
    file-not-found error whose message names the fetch script, the job
    ends with status 1, and (the output directory being there) the
    handler prints exactly that message on the error stream; whatever
    exception the job raises, the same handler prints it on the error
    stream and the process ends with status 1. *)
Theorem missing_raw_file_exits_1 (w : World) :
  (raw_exists w = false ->
   read_laps w = Raise (FileNotFoundError raw_not_found)
   /\ (exists pre post : string,
          raw_not_found = (pre ++ "scripts/01_fetch_data.py" ++ post)%string)
   /\ snd (main polyfit1 sqrt format_f w) = 1%Z
   /\ (mkdir_out w = None ->
       main polyfit1 sqrt format_f w
       = (mkProc [] ["error: raw laps not found; run scripts/01_fetch_data.py first"] [],
          1%Z)))
  /\ (forall e p,
         job polyfit1 sqrt format_f w (mkProc [] [] []) = (Raise e, p) ->
         main polyfit1 sqrt format_f w = (print_stderr ("error: " ++ exn_str e) p, 1%Z))
  /\ (forall e, mkdir_out w = Some e -> main polyfit1 sqrt format_f w = failed_with e)
  /\ (forall e, mkdir_out w = None -> read_laps w = Raise e ->
                main polyfit1 sqrt format_f w = failed_with e)
  /\ (forall raw e, mkdir_out w = None -> read_laps w = Ok raw ->
                    clean_laps raw = Raise e -> main polyfit1 sqrt format_f w = failed_with e).
Proof.
  split; [|split; [|split; [|split]]].
  - intros Habs. pose proof (read_laps_absent w Habs) as Hr.
    split; [exact Hr|]. split.
    + exists "raw laps not found; run ", " first". reflexivity.
    + split.
      * destruct (mkdir_out w) as [e|] eqn:Em.
        -- now rewrite (main_mkdir_fails w e Em).
        -- now rewrite (main_read_laps_fails w _ Em Hr).
      * intros Em. now rewrite (main_read_laps_fails w _ Em Hr).
  - apply main_of_raise.
  - apply main_mkdir_fails.
  - apply main_read_laps_fails.
  - apply main_clean_laps_fails.
Qed.
End Job.

Lemma missing_raw_file_exits_1_witness :
  read_laps world_without_raw = Raise (FileNotFoundError raw_not_found)
  /\ main no_fit no_sqrt no_format world_without_raw
     = (mkProc [] ["error: raw laps not found; run scripts/01_fetch_data.py first"] [],
        1%Z).
Proof.
  destruct (missing_raw_file_exits_1 no_fit no_sqrt no_format world_without_raw)
    as [H _].
  destruct (H eq_refl) as [Hr [_ [_ Hm]]].
  split; [exact Hr | exact (Hm eq_refl)].
Defined.

(** ** Order on driver names *)

Lemma ascii_compare_refl (a : ascii) : Ascii.compare a a = Eq.
Proof. unfold Ascii.compare. apply N.compare_refl. Qed.

Lemma ascii_compare_lt_trans (a b c : ascii) :
  Ascii.compare a b = Lt -> Ascii.compare b c = Lt -> Ascii.compare a c = Lt.
Proof.
  unfold Ascii.compare. rewrite !N.compare_lt_iff. apply N.lt_trans.
Qed.

Lemma string_compare_lt_trans (a b c : string) :
  String.compare a b = Lt -> String.compare b c = Lt -> String.compare a c = Lt.
Proof.
  revert b c. induction a as [|x a IH]; intros [|y b] [|z c]; simpl;
    try discriminate; auto.
  destruct (Ascii.compare x y) eqn:Exy; try discriminate.
  - apply Ascii.compare_eq_iff in Exy. subst y.
    destruct (Ascii.compare x z) eqn:Exz; try discriminate; auto.
    apply IH.
  - destruct (Ascii.compare y z) eqn:Eyz; try discriminate.
    + apply Ascii.compare_eq_iff in Eyz. subst z. now rewrite Exy.
    + now rewrite (ascii_compare_lt_trans x y z Exy Eyz).
Qed.

Lemma string_leb_trans (a b c : string) :
  String.leb a b = true -> String.leb b c = true -> String.leb a c = true.
Proof.
  unfold String.leb.
  destruct (String.compare a b) eqn:Eab; try discriminate;
    destruct (String.compare b c) eqn:Ebc; try discriminate; intros _ _.
  - apply String.compare_eq_iff in Eab. rewrite Eab. now rewrite Ebc.
  - apply String.compare_eq_iff in Eab. rewrite Eab. now rewrite Ebc.
  - apply String.compare_eq_iff in Ebc. rewrite <- Ebc. now rewrite Eab.
  - now rewrite (string_compare_lt_trans a b c Eab Ebc).
Qed.

Lemma string_leb_false (a b : string) :
  String.leb a b = false -> String.leb b a = true.
Proof. destruct (String.leb_total a b) as [H|H]; congruence. Qed.

Section OptionOrder.
Context {A : Type} (leb : A -> A -> bool).
Hypothesis leb_total : forall x y, leb x y = false -> leb y x = true.
Hypothesis leb_trans : forall x y z, leb x y = true -> leb y z = true -> leb x z = true.
Hypothesis leb_antisym : forall x y, leb x y = true -> leb y x = true -> x = y.

Lemma option_leb_total (x y : option A) :
  option_leb leb x y = false -> option_leb leb y x = true.
Proof. destruct x, y; simpl; auto. Qed.

Lemma option_leb_trans (x y z : option A) :
  option_leb leb x y = true -> option_leb leb y z = true ->
  option_leb leb x z = true.
Proof. destruct x, y, z; simpl; try discriminate; auto. apply leb_trans. Qed.

Lemma option_leb_antisym (x y : option A) :
  option_leb leb x y = true -> option_leb leb y x = true -> x = y.
Proof.
  destruct x, y; simpl; try discriminate; auto.
  intros H1 H2. f_equal. now apply leb_antisym.
Qed.
End OptionOrder.

Lemma key_leb_false (x y : option string) : key_leb x y = false -> key_leb y x = true.
Proof. apply option_leb_total, string_leb_false. Qed.

Lemma key_leb_trans (x y z : option string) :
  key_leb x y = true -> key_leb y z = true -> key_leb x z = true.
Proof. apply option_leb_trans, string_leb_trans. Qed.

Lemma key_leb_antisym (x y : option string) :
  key_leb x y = true -> key_leb y x = true -> x = y.
Proof. apply option_leb_antisym, String.leb_antisym. Qed.

Lemma optZ_leb_false (x y : option Z) :
  option_leb Z.leb x y = false -> option_leb Z.leb y x = true.
Proof. apply option_leb_total. intros a b. rewrite Z.leb_gt, Z.leb_le. lia. Qed.

Lemma optZ_leb_trans (x y z : option Z) :
  option_leb Z.leb x y = true -> option_leb Z.leb y z = true ->
  option_leb Z.leb x z = true.
Proof. apply option_leb_trans. intros a b c. rewrite !Z.leb_le. lia. Qed.

Lemma key_eqb_sym (x y : option string) : key_eqb x y = key_eqb y x.
Proof.
  destruct (key_eqb x y) eqn:E, (key_eqb y x) eqn:F; auto.
  - apply key_eqb_eq in E. subst. now rewrite key_eqb_refl in F.
  - apply key_eqb_eq in F. subst. now rewrite key_eqb_refl in E.
Qed.

Lemma pit_leb_false (a b : Row) : pit_leb a b = false -> pit_leb b a = true.
Proof.
  unfold pit_leb. rewrite (key_eqb_sym (Driver (snd b))).
  destruct (key_eqb (Driver (snd a)) (Driver (snd b)));
    [apply optZ_leb_false | apply key_leb_false].
Qed.

Lemma pit_leb_trans (a b c : Row) :
  pit_leb a b = true -> pit_leb b c = true -> pit_leb a c = true.
Proof.
  unfold pit_leb.
  destruct (key_eqb (Driver (snd a)) (Driver (snd b))) eqn:Eab.
  - apply key_eqb_eq in Eab. rewrite Eab.
    destruct (key_eqb (Driver (snd b)) (Driver (snd c))); auto.
    apply optZ_leb_trans.
  - destruct (key_eqb (Driver (snd b)) (Driver (snd c))) eqn:Ebc.
    + apply key_eqb_eq in Ebc. rewrite <- Ebc, Eab. auto.
    + intros H1 H2.
      destruct (key_eqb (Driver (snd a)) (Driver (snd c))) eqn:Eac.
      * apply key_eqb_eq in Eac. rewrite <- Eac in H2.
        rewrite (key_leb_antisym _ _ H1 H2), key_eqb_refl in Eab. discriminate.
      * eapply key_leb_trans; eauto.
Qed.

Lemma pit_sorted (rs : list Row) :
  StronglySorted (fun a b => pit_leb a b = true) (sort_by pit_leb rs).
Proof. apply sort_by_sorted; [apply pit_leb_false | apply pit_leb_trans]. Qed.

(** ** The pit-stop table *)

Lemma str_in_In (c : string) (cs : list string) : str_in c cs = true <-> In c cs.
Proof. apply (mem_by_In String.eqb String.eqb_eq). Qed.

Lemma require_names_ok (cs names : list string) :
  (forall c, In c cs -> In c names) -> require_names cs names = Ok tt.
Proof.
  induction cs as [|c cs IH]; intros H; simpl; [reflexivity|].
  rewrite (proj2 (str_in_In c names) (H c (or_introl eq_refl))).
  apply IH. intros c' Hc'. apply H. now right.
Qed.

Lemma select_in_laps (t : dtype) (rs : list Row) :
  select_mask
    (map isSome (s_values (mkSeries t (map (fun r => PitInTime (snd r)) rs)))) rs
  = filter in_lap_row rs.
Proof. cbn [s_values]. rewrite map_map. apply (select_mask_map in_lap_row). Qed.

(** What [pit_table_from_laps] returns once the columns it names are
    there: the in-laps sorted by driver and lap, each with its running
    count. *)
Lemma pit_table_from_laps_eq (laps : DataFrame) :
  (forall c, In c pit_required -> has_column c laps = true) ->
  exists order,
    pit_table_from_laps laps
    = Ok (mkPitTable order
            (map2 mk_pit
               (sort_by pit_leb (filter in_lap_row (rows laps)))
               (map (option_map (fun c => c + 1)%Z)
                    (cumcount []
                       (map (fun r => Driver (snd r))
                            (sort_by pit_leb (filter in_lap_row (rows laps)))))))).
Proof.
  intros H. unfold pit_table_from_laps.
  assert (Hpi : has_column "PitInTime" laps = true)
    by (apply H; unfold pit_required; simpl; auto).
  apply has_column_lookup in Hpi. destruct Hpi as [t Ht]. rewrite Ht.
  cbn [bind]. rewrite select_in_laps.
  set (cols := filter (fun c => has_column c laps) pit_cols).
  assert (Hcols : forall c, In c pit_required -> In (rename_col c) (map rename_col cols)).
  { intros c Hc. apply in_map. unfold cols. apply filter_In. split; [|now apply H].
    unfold pit_required, pit_cols in *. simpl in *. intuition. }
  rewrite (require_names_ok ["Driver"; "InLap"] (map rename_col cols)).
  - cbn [bind]. rewrite require_names_ok; [cbn [bind]; eauto|].
    intros c Hc. apply in_app_iff in Hc. apply in_app_iff.
    destruct Hc as [Hc|Hc].
    + unfold pit_order in Hc. simpl in Hc.
      destruct Hc as [<-|[<-|[<-|[<-|[<-|[<-|[]]]]]]].
      * left. apply (Hcols "Driver"). unfold pit_required. simpl. auto.
      * left. apply (Hcols "Team"). unfold pit_required. simpl. auto.
      * right. now left.
      * left. apply (Hcols "LapNumber"). unfold pit_required. simpl. auto.
      * left. apply (Hcols "PitInTime"). unfold pit_required. simpl. auto.
      * left. apply (Hcols "PitOutTime"). unfold pit_required. simpl. auto 6.
    + apply filter_In in Hc. destruct Hc as [Hc _]. now apply in_app_iff in Hc.
  - intros c [<-|[<-|[]]].
    + apply (Hcols "Driver"). unfold pit_required. simpl. auto.
    + apply (Hcols "LapNumber"). unfold pit_required. simpl. auto.
Qed.

Lemma StronglySorted_filter {A : Type} (R : A -> A -> Prop) (f : A -> bool)
    (l : list A) :
  StronglySorted R l -> StronglySorted R (filter f l).
Proof.
  induction 1 as [|x l Hs IH Hall]; simpl; [constructor|].
  destruct (f x); [|exact IH]. constructor; [exact IH|].
  rewrite Forall_forall in *. intros y Hy. apply filter_In in Hy. apply Hall, Hy.
Qed.

Lemma StronglySorted_nth_error {A : Type} (R : A -> A -> Prop) (l : list A) :
  StronglySorted R l ->
  forall i j x y, (i < j)%nat -> nth_error l i = Some x -> nth_error l j = Some y ->
                  R x y.
Proof.
  induction 1 as [|a l Hs IH Hall]; intros i j x y Hij Hi Hj.
  - destruct i; discriminate.
  - destruct j as [|j]; [lia|]. destruct i as [|i]; simpl in *.
    + injection Hi as <-. rewrite Forall_forall in Hall.
      apply Hall. eapply nth_error_In; eauto.
    + eapply IH; [|eassumption|eassumption]. lia.
Qed.

(** Sorting the rows sorts the table built from them, whatever the
    stop numbers attached. *)
Lemma map2_mk_pit_sorted (rs : list Row) (stops : list (option Z)) :
  StronglySorted (fun a b => pit_leb a b = true) rs ->
  StronglySorted (fun p q => pit_stop_leb p q = true) (map2 mk_pit rs stops).
Proof.
  intros Hs. revert stops. induction Hs as [|r rs Hs IH Hall]; intros stops.
  - destruct stops; constructor.
  - destruct stops as [|s stops]; [constructor|]. simpl.
    constructor; [apply IH|].
    rewrite Forall_forall in *. intros p Hp.
    assert (G : forall l (st : list (option Z)),
               In p (map2 mk_pit l st) -> exists r' s', In r' l /\ p = mk_pit r' s').
    { clear. induction l as [|a l IHl]; intros [|s st] Hp; simpl in Hp;
        try contradiction.
      destruct Hp as [<-|Hp]; [exists a, s; split; [now left | reflexivity]|].
      destruct (IHl st Hp) as [r' [s' [Hr' ->]]]. exists r', s'.
      split; [now right | reflexivity]. }
    destruct (G rs stops Hp) as [r' [s' [Hr' ->]]].
    exact (Hall r' Hr').
Qed.

Lemma cumcount_length (seen ks : list (option string)) :
  List.length (cumcount seen ks) = List.length ks.
Proof.
  revert seen. induction ks as [|k ks IH]; intros seen; simpl; [reflexivity|].
  now rewrite IH.
Qed.

Lemma map2_length_same {A B C : Type} (f : A -> B -> C) (l : list A) (m : list B) :
  List.length m = List.length l -> List.length (map2 f l m) = List.length l.
Proof.
  revert m. induction l as [|x l IH]; intros [|y m] H; simpl in *;
    try reflexivity; try discriminate.
  now rewrite IH by lia.
Qed.

Lemma map2_mk_pit_In (l : list Row) (st : list (option Z)) (p : Z * PitStop) :
  In p (map2 mk_pit l st) -> exists r, In r l /\ p = mk_pit r (Stop (snd p)).
Proof.
  revert st. induction l as [|a l IH]; intros [|s st] Hp; simpl in Hp;
    try contradiction.
  destruct Hp as [<-|Hp].
  - exists a. split; [now left | reflexivity].
  - destruct (IH st Hp) as [r [Hr E]]. exists r. split; [now right | exact E].
Qed.

(** The rows of one driver in the pit table: that driver's in-laps in
    sorted order, numbered from one more than the count seen before. *)
Lemma pit_rows_of_driver (d : string) (rs : list Row) (seen : list (option string)) :
  filter (fun p => key_eqb (p_Driver (snd p)) (Some d))
         (map2 mk_pit rs
               (map (option_map (fun c => c + 1)%Z)
                    (cumcount seen (map (fun r => Driver (snd r)) rs))))
  = map2 mk_pit (driver_rows (Some d) rs)
         (map (fun i => Some (Z.of_nat i + 1)%Z)
              (seq (seen_count d seen) (List.length (driver_rows (Some d) rs)))).
Proof.
  revert seen. induction rs as [|r rs IH]; intros seen; [reflexivity|].
  cbn [map cumcount map2 filter driver_rows mk_pit snd p_Driver].
  destruct (key_eqb (Driver (snd r)) (Some d)) eqn:E.
  - apply key_eqb_eq in E. rewrite E.
    cbn [option_map List.length seq map map2].
    fold (seen_count d seen). f_equal.
    rewrite IH. unfold seen_count at 1. cbn [filter].
    rewrite key_eqb_refl. reflexivity.
  - fold (driver_rows (Some d) rs). rewrite IH.
    unfold seen_count at 1. cbn [filter].
    rewrite key_eqb_sym, E. reflexivity.
Qed.

Lemma map2_mk_pit_stops (l : list Row) (st : list (option Z)) :
  List.length st = List.length l ->
  map (fun p => Stop (snd p)) (map2 mk_pit l st) = st.
Proof.
  revert st. induction l as [|a l IH]; intros [|s st] H; simpl in *;
    try reflexivity; try discriminate.
  now rewrite IH by lia.
Qed.

Lemma map2_seq_In (g : nat -> option Z) (l : list Row) (s : nat)
    (p : Z * PitStop) :
  In p (map2 mk_pit l (map g (seq s (List.length l)))) ->
  exists i x, nth_error l i = Some x /\ p = mk_pit x (g (s + i)%nat).
Proof.
  revert s. induction l as [|a l IH]; intros s Hp; simpl in Hp; [contradiction|].
  destruct Hp as [<-|Hp].
  - exists 0%nat, a. rewrite Nat.add_0_r. auto.
  - destruct (IH (S s) Hp) as [i [x [Hi ->]]]. exists (S i), x.
    rewrite Nat.add_succ_r. auto.
Qed.

Lemma in_laps_of_driver (d : string) (rs : list Row) :
  List.length (driver_rows (Some d) (sort_by pit_leb (filter in_lap_row rs)))
  = List.length (filter in_lap_row (driver_rows (Some d) rs)).
Proof.
  unfold driver_rows.
  rewrite (Permutation_length
             (filter_perm _ _ _ (sort_by_perm pit_leb (filter in_lap_row rs)))).
  rewrite !filter_filter. f_equal. apply filter_ext_In. intros r _.
  apply andb_comm.
Qed.

(* ------------------------------------------------------------------ *)
(** ** Claim on the pit-stop table *)

(** C8: on a lap table carrying the columns the function names, the
    pit-stop table holds the rows with a pit-in time, sorted by (driver,
    in-lap) ascending; the stop numbers of a driver, read in table order,
    are 1, 2, ..., N with N the number of that driver's rows with a pit-in
    time; and among a driver's stops a larger in-lap has a larger stop
    number. *)
Theorem pit_stop_numbers (laps : DataFrame) (d : string) :
  (forall c, In c pit_required -> has_column c laps = true) ->
  exists pt,
    pit_table_from_laps laps = Ok pt
    /\ StronglySorted (fun p q => pit_stop_leb p q = true) (pit_rows pt)
    /\ List.length (pit_rows pt) = List.length (filter in_lap_row (rows laps))
    /\ (forall p, In p (pit_rows pt) ->
          exists r, In r (rows laps) /\ PitInTime (snd r) <> None
                    /\ p = mk_pit r (Stop (snd p)))
    /\ map (fun p => Stop (snd p)) (stops_of_driver d pt)
       = map (fun i => Some (Z.of_nat i))
             (seq 1 (List.length
                       (filter in_lap_row (driver_rows (Some d) (rows laps)))))
    /\ (forall p q a b,
           In p (stops_of_driver d pt) -> In q (stops_of_driver d pt) ->
           InLap (snd p) = Some a -> InLap (snd q) = Some b -> (a < b)%Z ->
           exists s t, Stop (snd p) = Some s /\ Stop (snd q) = Some t
                       /\ (s < t)%Z).
Proof.
  intros Hc. destruct (pit_table_from_laps_eq laps Hc) as [order Hrun].
  eexists. split; [exact Hrun|]. cbn [pit_rows].
  set (sorted := sort_by pit_leb (filter in_lap_row (rows laps))).
  set (stops := map (option_map (fun c => c + 1)%Z)
                    (cumcount [] (map (fun r => Driver (snd r)) sorted))).
  assert (Hlen : List.length stops = List.length sorted)
    by (unfold stops; now rewrite length_map, cumcount_length, length_map).
  assert (Hdrv : stops_of_driver d (mkPitTable order (map2 mk_pit sorted stops))
                 = map2 mk_pit (driver_rows (Some d) sorted)
                        (map (fun i => Some (Z.of_nat i + 1)%Z)
                             (seq 0 (List.length (driver_rows (Some d) sorted)))))
    by (unfold stops_of_driver, stops; cbn [pit_rows];
        apply (pit_rows_of_driver d sorted [])).
  split; [apply map2_mk_pit_sorted, pit_sorted|].
  split.
  { rewrite map2_length_same by exact Hlen. unfold sorted.
    apply sort_by_length. }
  split.
  { intros p Hp. destruct (map2_mk_pit_In _ _ _ Hp) as [r [Hr E]].
    exists r. unfold sorted in Hr. apply (proj1 (sort_by_In pit_leb _ _)) in Hr.
    apply filter_In in Hr.
    destruct Hr as [Hr Hi]. split; [exact Hr|]. split; [|exact E].
    unfold in_lap_row in Hi. destruct (PitInTime (snd r)); [discriminate|].
    discriminate Hi. }
  split.
  { rewrite Hdrv, map2_mk_pit_stops by (now rewrite length_map, length_seq).
    unfold sorted. rewrite in_laps_of_driver.
    rewrite <- seq_shift, map_map. apply map_ext. intros i.
    now rewrite Nat2Z.inj_succ, Z.add_1_r. }
  intros p q a b Hp Hq Ha Hb Hab. rewrite Hdrv in Hp, Hq.
  apply map2_seq_In in Hp, Hq.
  destruct Hp as [i [x [Hi ->]]], Hq as [j [y [Hj ->]]].
  cbn [mk_pit snd InLap Stop] in *.
  exists (Z.of_nat (0 + i) + 1)%Z, (Z.of_nat (0 + j) + 1)%Z.
  split; [reflexivity|]. split; [reflexivity|].
  assert (Hij : (i < j)%nat); [|simpl; lia].
  destruct (Nat.lt_trichotomy i j) as [H|[H|H]]; [exact H| |]; exfalso.
  - subst j. rewrite Hi in Hj. injection Hj as <-. rewrite Ha in Hb.
    injection Hb as <-. lia.
  - assert (Hs : StronglySorted (fun a b => pit_leb a b = true)
                                (driver_rows (Some d) sorted))
      by (apply StronglySorted_filter, pit_sorted).
    pose proof (StronglySorted_nth_error _ _ Hs j i y x H Hj Hi) as Hle.
    apply nth_error_In in Hi, Hj.
    apply filter_In in Hi, Hj. destruct Hi as [_ Hdx], Hj as [_ Hdy].
    apply key_eqb_eq in Hdx, Hdy.
    unfold pit_leb in Hle. rewrite Hdx, Hdy, key_eqb_refl, Ha, Hb in Hle.
    simpl in Hle. apply Z.leb_le in Hle. lia.
Qed.

Lemma pit_stop_numbers_witness :
  exists pt,
    pit_table_from_laps laps_with_pits = Ok pt
    /\ StronglySorted (fun p q => pit_stop_leb p q = true) (pit_rows pt)
    /\ List.length (pit_rows pt)
       = List.length (filter in_lap_row (rows laps_with_pits))
    /\ (forall p, In p (pit_rows pt) ->
          exists r, In r (rows laps_with_pits) /\ PitInTime (snd r) <> None
                    /\ p = mk_pit r (Stop (snd p)))
    /\ map (fun p => Stop (snd p)) (stops_of_driver "VER" pt)
       = map (fun i => Some (Z.of_nat i))
             (seq 1 (List.length
                       (filter in_lap_row
                               (driver_rows (Some "VER") (rows laps_with_pits)))))
    /\ (forall p q a b,
           In p (stops_of_driver "VER" pt) -> In q (stops_of_driver "VER" pt) ->
           InLap (snd p) = Some a -> InLap (snd q) = Some b -> (a < b)%Z ->
           exists s t, Stop (snd p) = Some s /\ Stop (snd q) = Some t
                       /\ (s < t)%Z).
Proof.
  apply (pit_stop_numbers laps_with_pits "VER").
  intros c Hc. unfold pit_required in Hc. simpl in Hc.
  destruct Hc as [<-|[<-|[<-|[<-|[<-|[]]]]]]; reflexivity.
Defined.

(* ================================================================== *)
(** * Further properties of the code *)

(** ** The pace filter: when it returns, and small groups *)

Lemma dtype_eq_dec (t u : dtype) : {t = u} + {t <> u}.
Proof. decide equality. Defined.

Lemma pace_filter_raise_cases (df : DataFrame) :
  (lookup_dtype "LapTime" (columns df) = None ->
   per_driver_pace_filter df = Raise (KeyError "LapTime"))
  /\ (forall t, lookup_dtype "LapTime" (columns df) = Some t -> t <> timedelta64 ->
                per_driver_pace_filter df = Raise dt_error)
  /\ (lookup_dtype "LapTime" (columns df) = Some timedelta64 ->
      has_column "Driver" df = false ->
      per_driver_pace_filter df = Raise (KeyError "Driver")).
Proof.
  unfold per_driver_pace_filter, column. split; [|split].
  - intros ->. reflexivity.
  - intros t -> Ht. cbn [bind]. unfold dt_total_seconds. cbn [s_dtype].
    destruct t; try reflexivity. congruence.
  - intros -> Hd. cbn [bind]. unfold dt_total_seconds. cbn [s_dtype bind].
    apply has_column_false_lookup in Hd.
    unfold assign_LapTime_s. cbn [columns s_dtype].
    rewrite lookup_set_dtype_other by discriminate. rewrite Hd. reflexivity.
Qed.

(** X1: the pace filter returns a table exactly when [LapTime] is a
    duration column and [Driver] is a column; otherwise it raises
    [KeyError] for the missing column or the [.dt] accessor error, and
    nothing else. *)
Theorem pace_filter_returns_iff (df : DataFrame) :
  ((exists out, per_driver_pace_filter df = Ok out) <->
   lookup_dtype "LapTime" (columns df) = Some timedelta64
   /\ has_column "Driver" df = true)
  /\ (forall e, per_driver_pace_filter df = Raise e ->
                e = KeyError "LapTime" \/ e = dt_error \/ e = KeyError "Driver").
Proof.
  destruct (pace_filter_raise_cases df) as [H1 [H2 H3]].
  split.
  - split.
    + intros [out H]. exact (pace_filter_ok_inv df out H).
    + intros [Hlt Hd]. eexists. apply (per_driver_pace_filter_eq df Hlt Hd).
  - intros e He.
    destruct (lookup_dtype "LapTime" (columns df)) as [t|] eqn:El.
    + destruct (dtype_eq_dec t timedelta64) as [->|Hne].
      * destruct (has_column "Driver" df) eqn:Ed.
        -- rewrite (per_driver_pace_filter_eq df El Ed) in He. discriminate.
        -- rewrite (H3 eq_refl eq_refl) in He. injection He as <-. auto.
      * rewrite (H2 t eq_refl Hne) in He. injection He as <-. auto.
    + rewrite (H1 eq_refl) in He. injection He as <-. auto.
Qed.

Lemma pace_filter_returns_iff_witness :
  exists out, per_driver_pace_filter laps_with_outlier = Ok out.
Proof.
  apply (proj2 (proj1 (pace_filter_returns_iff laps_with_outlier))).
  split; reflexivity.
Defined.

(** In a sample of at most three values no value exceeds Tukey's fence. *)
Lemma small_sample_within_fence (a : list Q) (v : Q) :
  (1 <= List.length a <= 3)%nat -> In v a -> (v <= tukey_fence a)%Q.
Proof.
  intros Hn Hv. unfold tukey_fence, quantile_linear, interp.
  set (s := sort_by Qle_bool a).
  assert (Hs : StronglySorted (fun x y => Qle_bool x y = true) s)
    by apply sort_Q_sorted.
  assert (Hl : List.length s = List.length a) by apply sort_by_length.
  assert (Hvs : In v s) by (apply (sort_by_In Qle_bool); exact Hv).
  destruct (In_nth _ _ 0%Q Hvs) as [j [Hj Ej]].
  assert (Hmax : (v <= nth (List.length a - 1) s 0)%Q)
    by (rewrite <- Ej; apply nth_sorted; [exact Hs | lia]).
  rewrite Hl. unfold nthQ.
  destruct (List.length a) as [|[|[|[|n]]]] eqn:En; try lia.
  - change (Qfloor (inject_Z (Z.of_nat 1 - 1) * (3 # 4))) with 0%Z.
    change (Qfloor (inject_Z (Z.of_nat 1 - 1) * (1 # 4))) with 0%Z.
    change (inject_Z (Z.of_nat 1 - 1)) with (0 # 1)%Q.
    change (inject_Z 0) with (0 # 1)%Q.
    change (Z.to_nat 0) with 0%nat in *. change (Z.to_nat (0 + 1)) with 1%nat in *.
    cbn [Nat.sub] in *.
    set (x0 := nth 0 s 0%Q) in *. set (x1 := nth 1 s 0%Q) in *.
    lra.
  - change (Qfloor (inject_Z (Z.of_nat 2 - 1) * (3 # 4))) with 0%Z.
    change (Qfloor (inject_Z (Z.of_nat 2 - 1) * (1 # 4))) with 0%Z.
    change (inject_Z (Z.of_nat 2 - 1)) with (1 # 1)%Q.
    change (inject_Z 0) with (0 # 1)%Q.
    assert (H01 : (nth 0 s 0 <= nth 1 s 0)%Q) by (apply nth_sorted; [exact Hs|lia]).
    change (Z.to_nat 0) with 0%nat in *. change (Z.to_nat (0 + 1)) with 1%nat in *.
    cbn [Nat.sub] in *.
    set (x0 := nth 0 s 0%Q) in *. set (x1 := nth 1 s 0%Q) in *.
    lra.
  - change (Qfloor (inject_Z (Z.of_nat 3 - 1) * (3 # 4))) with 1%Z.
    change (Qfloor (inject_Z (Z.of_nat 3 - 1) * (1 # 4))) with 0%Z.
    change (inject_Z (Z.of_nat 3 - 1)) with (2 # 1)%Q.
    change (inject_Z 0) with (0 # 1)%Q. change (inject_Z 1) with (1 # 1)%Q.
    assert (H01 : (nth 0 s 0 <= nth 1 s 0)%Q) by (apply nth_sorted; [exact Hs|lia]).
    assert (H12 : (nth 1 s 0 <= nth 2 s 0)%Q) by (apply nth_sorted; [exact Hs|lia]).
    change (Z.to_nat 0) with 0%nat in *. change (Z.to_nat (0 + 1)) with 1%nat in *.
    change (Z.to_nat 1) with 1%nat in *. change (Z.to_nat (1 + 1)) with 2%nat in *.
    cbn [Nat.sub] in *.
    set (x0 := nth 0 s 0%Q) in *. set (x1 := nth 1 s 0%Q) in *.
    set (x2 := nth 2 s 0%Q) in *.
    lra.
Qed.

Lemma driver_times_length (rs : list Row) (d : option string) :
  List.length (driver_times rs d) = List.length (timed_laps d rs).
Proof.
  unfold driver_times, timed_laps, driver_rows, timed_row.
  induction rs as [|r rs IH]; [reflexivity|]. cbn [flat_map filter].
  destruct (key_eqb (Driver (snd r)) d); cbn [filter]; [|exact IH].
  destruct (LapTime (snd r)); cbn [isSome app List.length]; now rewrite IH.
Qed.

(** X2: on a table with distinct row labels, a driver with one, two or three
    timed laps loses none of them to the pace filter, however slow they
    are: the filter can only drop laps of a driver with at least four timed
    laps. *)
Theorem pace_filter_keeps_small_groups (df : DataFrame) (d : option string) :
  lookup_dtype "LapTime" (columns df) = Some timedelta64 ->
  has_column "Driver" df = true ->
  NoDup (index df) ->
  (1 <= List.length (timed_laps d (rows df)) <= 3)%nat ->
  exists out,
    per_driver_pace_filter df = Ok out
    /\ driver_rows d (rows out) = map add_seconds (timed_laps d (rows df)).
Proof.
  intros Hlt Hd Hnd Hn.
  pose proof (per_driver_pace_filter_eq df Hlt Hd) as Hrun.
  eexists. split; [exact Hrun|].
  assert (Hex : exists r, In r (rows df) /\ LapTime (snd r) <> None).
  { destruct (timed_laps d (rows df)) as [|r l] eqn:E; [simpl in Hn; lia|].
    assert (Hr : In r (timed_laps d (rows df))) by (rewrite E; now left).
    apply filter_In in Hr. destruct Hr as [Hr Ht].
    apply filter_In in Hr. destruct Hr as [Hr _].
    exists r. split; [exact Hr|]. unfold timed_row in Ht.
    destruct (LapTime (snd r)); [discriminate | discriminate Ht]. }
  rewrite (pace_filter_rows df _ Hnd Hex Hlt Hd Hrun).
  rewrite driver_rows_within_fence. f_equal. unfold timed_laps.
  apply filter_ext_In. intros r Hr.
  pose proof Hr as Hr'. apply filter_In in Hr'. destruct Hr' as [_ Hk].
  apply key_eqb_eq in Hk.
  unfold within_fence, timed_row.
  destruct (LapTime (snd r)) as [t|] eqn:Et; [|reflexivity].
  cbn [isSome]. apply Qle_bool_iff. apply small_sample_within_fence.
  - rewrite Hk, driver_times_own_rows, driver_times_length. exact Hn.
  - now apply driver_times_In.
Qed.

Lemma pace_filter_keeps_small_groups_witness :
  exists out,
    per_driver_pace_filter three_laps = Ok out
    /\ driver_rows (Some "ALO") (rows out)
       = map add_seconds (timed_laps (Some "ALO") (rows three_laps)).
Proof.
  apply (pace_filter_keeps_small_groups three_laps (Some "ALO")).
  - reflexivity.
  - reflexivity.
  - repeat constructor; simpl; intuition discriminate.
  - simpl. lia.
Defined.

(** ** The cleaning pipeline: when it returns, what it returns *)

Lemma clean_laps_raises (df : DataFrame) :
  lookup_dtype "LapTime" (columns df) <> Some timedelta64 ->
  clean_laps df = Raise dt_error.
Proof.
  intros H. rewrite clean_laps_unfold.
  set (c := mkDF (columns (synthesize df)) (candidate_rows df)).
  assert (Hc : lookup_dtype "LapTime" (columns c)
               = Some match lookup_dtype "LapTime" (columns df) with
                      | Some t => t
                      | None => object_
                      end)
    by (unfold c; cbn [columns]; apply (lookup_synthesize "LapTime" df eq_refl)).
  destruct (pace_filter_raise_cases c) as [_ [H2 _]].
  rewrite (H2 _ Hc); [reflexivity|].
  destruct (lookup_dtype "LapTime" (columns df)) as [t|]; [congruence|discriminate].
Qed.

Lemma clean_laps_ok_dtype (df out : DataFrame) :
  clean_laps df = Ok out ->
  lookup_dtype "LapTime" (columns df) = Some timedelta64.
Proof.
  intros H. destruct (lookup_dtype "LapTime" (columns df)) as [t|] eqn:E.
  - destruct (dtype_eq_dec t timedelta64) as [->|Hne]; [reflexivity|].
    rewrite clean_laps_raises in H by (rewrite E; congruence). discriminate.
  - rewrite clean_laps_raises in H by (rewrite E; discriminate). discriminate.
Qed.

(** X3: [clean_laps] returns a table exactly when the [LapTime] column of
    its input is a duration column; on every other input (column absent or
    of another dtype) it raises the [.dt] accessor error, whatever the
    other columns are. *)
Theorem clean_laps_returns_iff (df : DataFrame) :
  ((exists out, clean_laps df = Ok out) <->
   lookup_dtype "LapTime" (columns df) = Some timedelta64)
  /\ (forall e, clean_laps df = Raise e -> e = dt_error).
Proof.
  split; [split|].
  - intros [out H].
    destruct (lookup_dtype "LapTime" (columns df)) as [t|] eqn:E.
    + destruct (dtype_eq_dec t timedelta64) as [->|Hne]; [reflexivity|].
      rewrite clean_laps_raises in H by (rewrite E; congruence). discriminate.
    + rewrite clean_laps_raises in H by (rewrite E; discriminate). discriminate.
  - apply clean_laps_total.
  - intros e He.
    destruct (lookup_dtype "LapTime" (columns df)) as [t|] eqn:E.
    + destruct (dtype_eq_dec t timedelta64) as [->|Hne].
      * destruct (clean_laps_total df E) as [out Ho]. congruence.
      * rewrite clean_laps_raises in He by (rewrite E; congruence).
        now injection He as <-.
    + rewrite clean_laps_raises in He by (rewrite E; discriminate).
      now injection He as <-.
Qed.

Lemma clean_laps_returns_iff_witness :
  exists out, clean_laps laps_mixed = Ok out.
Proof.
  apply (proj2 (proj1 (clean_laps_returns_iff laps_mixed))). reflexivity.
Defined.

Lemma ensure_column_index (d : DataFrame) (c : string) :
  index (ensure_column d c) = index d.
Proof.
  unfold ensure_column, index. destruct (has_column c d); [reflexivity|].
  unfold assign_NA. cbn [rows]. now rewrite map_map.
Qed.

Lemma fold_ensure_index (cs : list string) (d : DataFrame) :
  index (fold_left ensure_column cs d) = index d.
Proof.
  revert d. induction cs as [|c cs IH]; intros d; simpl; [reflexivity|].
  now rewrite IH, ensure_column_index.
Qed.

Lemma NoDup_filter_labels (f : Row -> bool) (rs : list Row) :
  NoDup (map fst rs) -> NoDup (map fst (filter f rs)).
Proof.
  induction rs as [|r rs IH]; simpl; intros H; [constructor|].
  inversion H as [|? ? Hn Hd]; subst.
  destruct (f r); simpl; [constructor|]; auto.
  intros C. apply Hn. apply in_map_iff in C. destruct C as [x [E Hx]].
  apply filter_In in Hx. rewrite <- E. apply in_map, Hx.
Qed.

Lemma candidate_rows_NoDup (df : DataFrame) :
  NoDup (index df) -> NoDup (map fst (candidate_rows df)).
Proof.
  intros H. unfold candidate_rows. do 3 apply NoDup_filter_labels.
  change (NoDup (index (synthesize df))). unfold synthesize.
  now rewrite fold_ensure_index.
Qed.

Lemma candidate_rows_timed (df : DataFrame) (r : Row) :
  In r (candidate_rows df) -> exists t, LapTime (snd r) = Some t.
Proof.
  intros H. apply candidate_rows_In in H. destruct H as [_ [Ht _]].
  unfold timed_row in Ht. destruct (LapTime (snd r)); [eauto|discriminate].
Qed.

(** What a successful [clean_laps] is made of. *)
Lemma clean_laps_ok_inv (df0 out : DataFrame) :
  clean_laps df0 = Ok out ->
  exists df5,
    per_driver_pace_filter (mkDF (columns (synthesize df0)) (candidate_rows df0))
    = Ok df5
    /\ rows out = map add_seconds (rows df5)
    /\ (exists t, lookup_dtype "TyreLife" (columns df5) = Some t
                  /\ columns out
                     = set_dtype "LapTime_s" float64
                         (if char_in (kind t) "fi" then columns df5
                          else set_dtype "TyreLife" float64 (columns df5))).
Proof.
  rewrite clean_laps_unfold. intros H.
  apply bind_ok in H. destruct H as [df5 [Hp H]].
  apply bind_ok in H. destruct H as [tl [Htl H]].
  apply bind_ok in H. destruct H as [lt [Hlt H]].
  apply bind_ok in H. destruct H as [secs [Hs H]].
  injection H as <-.
  apply column_ok_inv in Htl. destruct Htl as [t [Ht ->]].
  apply column_ok_inv in Hlt. destruct Hlt as [u [_ ->]].
  apply dt_total_seconds_ok_inv in Hs. cbn [s_dtype s_values] in Hs.
  destruct Hs as [-> ->].
  exists df5. split; [exact Hp|]. rewrite assign_seconds_eq.
  unfold with_seconds. cbn [rows columns s_dtype]. split.
  - destruct (char_in (kind t) "fi"); [reflexivity|].
    now rewrite assign_TyreLife_rows.
  - exists t. split; [exact Ht|].
    destruct (char_in (kind t) "fi"); reflexivity.
Qed.

Lemma map_add_seconds_twice (rs : list Row) :
  map add_seconds (map add_seconds rs) = map add_seconds rs.
Proof. rewrite map_map. apply map_ext. intros r. apply add_seconds_twice. Qed.

(** X4: on a raw table with distinct row labels whose [LapTime] is a
    duration column, [clean_laps] returns, in input order and with
    [LapTime_s] filled in, exactly the rows that have a lap time, a green
    status and no pit time, and whose lap time is within the Tukey fence
    computed over those same rows of their driver; the whole-index fallback of
    the pace filter never shows in the pipeline. *)
Theorem clean_laps_rows (df : DataFrame) :
  lookup_dtype "LapTime" (columns df) = Some timedelta64 ->
  NoDup (index df) ->
  exists out,
    clean_laps df = Ok out
    /\ rows out
       = map add_seconds
           (filter (within_fence (candidate_rows df)) (candidate_rows df)).
Proof.
  intros Hlt Hnd. destruct (clean_laps_total df Hlt) as [out Ho].
  exists out. split; [exact Ho|].
  destruct (clean_laps_ok_inv df out Ho) as [df5 [Hp [Hr _]]].
  rewrite Hr.
  set (c := mkDF (columns (synthesize df)) (candidate_rows df)) in *.
  destruct (pace_filter_ok_inv c df5 Hp) as [Hc Hd].
  assert (Hn : NoDup (index c)) by (apply candidate_rows_NoDup, Hnd).
  destruct (candidate_rows df) as [|r0 rs] eqn:E.
  - rewrite (pace_filter_rows_untimed c df5 Hn) by
      (auto; unfold c; cbn [rows]; intros r []).
    reflexivity.
  - assert (Hex : exists r, In r (rows c) /\ LapTime (snd r) <> None).
    { exists r0. split; [now left|].
      destruct (candidate_rows_timed df r0) as [t Ht]; [rewrite E; now left|].
      congruence. }
    rewrite (pace_filter_rows c df5 Hn Hex Hc Hd Hp).
    apply map_add_seconds_twice.
Qed.

Lemma clean_laps_rows_witness :
  exists out,
    clean_laps laps_mixed = Ok out
    /\ rows out
       = map add_seconds
           (filter (within_fence (candidate_rows laps_mixed))
                   (candidate_rows laps_mixed)).
Proof.
  apply (clean_laps_rows laps_mixed).
  - reflexivity.
  - repeat constructor; simpl; intuition discriminate.
Defined.

Lemma lookup_set_dtype_some (c c' : string) (t u : dtype)
    (cs : list (string * dtype)) :
  lookup_dtype c cs = Some t ->
  exists t', lookup_dtype c (set_dtype c' u cs) = Some t'.
Proof.
  intros H. destruct (String.eqb_spec c c') as [->|Hne].
  - rewrite lookup_set_dtype_same. eauto.
  - rewrite lookup_set_dtype_other by exact Hne. eauto.
Qed.

(** X5: the table [clean_laps] returns carries every column of [need],
    [LapTime_s] as a float column and [TyreLife] as a numeric (float or
    integer) column, and each of its rows has a lap time whose value in
    seconds is its [LapTime_s]. *)
Theorem clean_laps_schema (df out : DataFrame) :
  clean_laps df = Ok out ->
  (forall c, In c need -> has_column c out = true)
  /\ lookup_dtype "LapTime_s" (columns out) = Some float64
  /\ (exists t, lookup_dtype "TyreLife" (columns out) = Some t
                /\ char_in (kind t) "fi" = true)
  /\ (forall r, In r (rows out) ->
        exists t, LapTime (snd r) = Some t
                  /\ LapTime_s (snd r) = Some (total_seconds t)).
Proof.
  intros H. destruct (clean_laps_ok_inv df out H) as [df5 [Hp [Hr [t [Ht Hc]]]]].
  pose proof (pace_filter_columns _ _ Hp) as Hc5. cbn [columns] in Hc5.
  split; [|split; [|split]].
  - intros c Hin. apply has_column_lookup. rewrite Hc.
    assert (H5 : exists u, lookup_dtype c (columns df5) = Some u).
    { rewrite Hc5.
      assert (S : str_in c need = true) by (apply str_in_In, Hin).
      eapply lookup_set_dtype_some. apply (lookup_synthesize c df S). }
    destruct H5 as [u Hu].
    destruct (char_in (kind t) "fi").
    + eapply lookup_set_dtype_some. exact Hu.
    + destruct (lookup_set_dtype_some c "TyreLife" u float64 _ Hu) as [u' Hu'].
      eapply lookup_set_dtype_some. exact Hu'.
  - rewrite Hc. apply lookup_set_dtype_same.
  - rewrite Hc. rewrite lookup_set_dtype_other by discriminate.
    destruct (char_in (kind t) "fi") eqn:Ek.
    + exists t. split; [exact Ht | exact Ek].
    + exists float64. split; [apply lookup_set_dtype_same | reflexivity].
  - intros r Hin.
    destruct (clean_laps_rows_inv df out r H Hin) as [r0 [Hr0 ->]].
    destruct (candidate_rows_timed df r0 Hr0) as [t0 Ht0].
    exists t0. cbn [add_seconds snd with_LapTime_s LapTime LapTime_s].
    rewrite Ht0. split; reflexivity.
Qed.

Lemma clean_laps_schema_witness :
  exists out,
    clean_laps laps_two_columns = Ok out
    /\ (forall c, In c need -> has_column c out = true)
    /\ lookup_dtype "LapTime_s" (columns out) = Some float64
    /\ (exists t, lookup_dtype "TyreLife" (columns out) = Some t
                  /\ char_in (kind t) "fi" = true)
    /\ (forall r, In r (rows out) ->
          exists t, LapTime (snd r) = Some t
                    /\ LapTime_s (snd r) = Some (total_seconds t)).
Proof.
  eexists. split; [vm_compute; reflexivity|].
  apply (clean_laps_schema laps_two_columns). vm_compute. reflexivity.
Defined.

(** ** The synthesis of missing columns *)

Lemma ensure_column_present (d : DataFrame) (c : string) :
  has_column c d = true -> ensure_column d c = d.
Proof. intros H. unfold ensure_column. now rewrite H. Qed.

Lemma set_missing_field (c : string) (r : Lap) :
  In c need -> field_missing c (set_missing c r) = true.
Proof.
  unfold need. simpl.
  intros [<-|[<-|[<-|[<-|[<-|[<-|[<-|[<-|[<-|[<-|[]]]]]]]]]]]; reflexivity.
Qed.

Lemma set_missing_keeps_missing (c c' : string) (r : Lap) :
  In c need -> field_missing c r = true ->
  field_missing c (set_missing c' r) = true.
Proof.
  unfold need. simpl. unfold set_missing, with_TyreLife.
  intros [<-|[<-|[<-|[<-|[<-|[<-|[<-|[<-|[<-|[<-|[]]]]]]]]]]] H;
    repeat (match goal with
            | |- context [String.eqb c' ?s] => destruct (String.eqb c' s)
            end);
    first [exact H | reflexivity].
Qed.

Lemma fold_ensure_keeps_missing (c : string) (cs : list string) (d : DataFrame) :
  In c need ->
  (forall r, In r (rows d) -> field_missing c (snd r) = true) ->
  forall r, In r (rows (fold_left ensure_column cs d)) ->
            field_missing c (snd r) = true.
Proof.
  intros Hc. revert d. induction cs as [|c' cs IH]; intros d Hd; [exact Hd|].
  simpl. apply IH. intros r Hr. unfold ensure_column in Hr.
  destruct (has_column c' d); [now apply Hd|].
  unfold assign_NA in Hr. cbn [rows] in Hr. apply in_map_iff in Hr.
  destruct Hr as [r0 [<- Hr0]]. cbn [snd].
  apply set_missing_keeps_missing; auto.
Qed.

Lemma fold_ensure_missing (c : string) (cs : list string) (d : DataFrame) :
  In c need -> In c cs -> has_column c d = false ->
  forall r, In r (rows (fold_left ensure_column cs d)) ->
            field_missing c (snd r) = true.
Proof.
  intros Hc. revert d. induction cs as [|c' cs IH]; intros d Hin Hd; [destruct Hin|].
  simpl. destruct (String.eqb_spec c' c) as [->|Hne].
  - apply fold_ensure_keeps_missing; [exact Hc|].
    unfold ensure_column. rewrite Hd. unfold assign_NA. cbn [rows].
    intros r Hr. apply in_map_iff in Hr. destruct Hr as [r0 [<- _]].
    cbn [snd]. now apply set_missing_field.
  - destruct Hin as [E|Hin]; [congruence|]. apply IH; [exact Hin|].
    apply has_column_false_lookup. rewrite lookup_ensure_column.
    destruct (String.eqb_spec c c'); [congruence|].
    now apply has_column_false_lookup.
Qed.

(** X6: the synthesis loop of [clean_laps] keeps the row labels; a column
    of [need] that the input has keeps its dtype, one that it lacks becomes
    an object column whose value is missing in every row; and a table that
    has all the columns of [need] is left as it is. *)
Theorem synthesize_missing_columns (df : DataFrame) :
  index (synthesize df) = index df
  /\ (forall c t, In c need -> lookup_dtype c (columns df) = Some t ->
                  lookup_dtype c (columns (synthesize df)) = Some t)
  /\ (forall c, In c need -> has_column c df = false ->
                lookup_dtype c (columns (synthesize df)) = Some object_
                /\ forall r, In r (rows (synthesize df)) ->
                             field_missing c (snd r) = true)
  /\ ((forall c, In c need -> has_column c df = true) -> synthesize df = df).
Proof.
  split; [apply fold_ensure_index|]. split; [|split].
  - intros c t Hc Ht.
    rewrite (lookup_synthesize c df (proj2 (str_in_In c need) Hc)), Ht.
    reflexivity.
  - intros c Hc Ha. split.
    + rewrite (lookup_synthesize c df (proj2 (str_in_In c need) Hc)).
      apply has_column_false_lookup in Ha. now rewrite Ha.
    + now apply fold_ensure_missing.
  - unfold synthesize. generalize need.
    induction l as [|c cs IH]; intros H; [reflexivity|].
    simpl. rewrite ensure_column_present by (apply H; now left).
    apply IH. intros c' Hc'. apply H. now right.
Qed.

Lemma synthesize_missing_columns_witness :
  lookup_dtype "LapTime" (columns (synthesize laps_without_LapTime))
  = Some object_
  /\ forall r, In r (rows (synthesize laps_without_LapTime)) ->
               field_missing "LapTime" (snd r) = true.
Proof.
  destruct (synthesize_missing_columns laps_without_LapTime) as [_ [_ [H _]]].
  apply (H "LapTime"); [unfold need; simpl; auto 10 | reflexivity].
Defined.

(** ** Reading the raw lap file *)

Lemma lookup_to_timedelta_col (c col : string) (df : DataFrame) :
  lookup_dtype c (columns (to_timedelta_col df col))
  = if String.eqb c col
    then match lookup_dtype c (columns df) with
         | Some _ => Some timedelta64
         | None => None
         end
    else lookup_dtype c (columns df).
Proof.
  unfold to_timedelta_col. destruct (has_column col df) eqn:H.
  - cbn [columns]. destruct (String.eqb_spec c col) as [->|Hne].
    + apply has_column_lookup in H. destruct H as [t ->].
      apply lookup_set_dtype_same.
    + now apply lookup_set_dtype_other.
  - destruct (String.eqb_spec c col) as [->|Hne]; [|reflexivity].
    apply has_column_false_lookup in H. now rewrite H.
Qed.

Lemma to_timedelta_col_rows (df : DataFrame) (col : string) :
  rows (to_timedelta_col df col) = rows df.
Proof. unfold to_timedelta_col. destruct (has_column col df); reflexivity. Qed.

Lemma lookup_fold_to_timedelta (c : string) (cols : list string) (df : DataFrame) :
  lookup_dtype c (columns (fold_left to_timedelta_col cols df))
  = match lookup_dtype c (columns df) with
    | Some t => Some (if str_in c cols then timedelta64 else t)
    | None => None
    end.
Proof.
  revert df. induction cols as [|col cols IH]; intros df; simpl.
  - destruct (lookup_dtype c (columns df)); reflexivity.
  - rewrite IH, lookup_to_timedelta_col. unfold str_in. cbn [mem_by].
    destruct (String.eqb c col); cbn [orb];
      destruct (lookup_dtype c (columns df)); try reflexivity.
    destruct (mem_by String.eqb c cols); reflexivity.
Qed.

Lemma fold_to_timedelta_rows (cols : list string) (df : DataFrame) :
  rows (fold_left to_timedelta_col cols df) = rows df.
Proof.
  revert df. induction cols as [|col cols IH]; intros df; simpl; [reflexivity|].
  now rewrite IH, to_timedelta_col_rows.
Qed.

(** X7: when the raw file exists and parses, [read_laps] returns its rows
    unchanged with the same columns, [LapTime], [Time], [PitInTime] and
    [PitOutTime] (those present) turned into duration columns and every
    other column keeping its dtype; so the cleaning step that follows
    succeeds exactly when the file has a [LapTime] column. *)
Theorem read_laps_durations (w : World) (df : DataFrame) :
  raw_exists w = true ->
  read_csv w = Ok df ->
  exists raw,
    read_laps w = Ok raw
    /\ rows raw = rows df
    /\ (forall c, has_column c raw = has_column c df)
    /\ (forall c, In c duration_columns -> has_column c df = true ->
                  lookup_dtype c (columns raw) = Some timedelta64)
    /\ (forall c, ~ In c duration_columns ->
                  lookup_dtype c (columns raw) = lookup_dtype c (columns df))
    /\ ((exists cl, clean_laps raw = Ok cl) <-> has_column "LapTime" df = true).
Proof.
  intros He Hr. unfold read_laps. rewrite He, Hr. cbn [negb bind].
  change ["LapTime"; "Time"; "PitInTime"; "PitOutTime"] with duration_columns.
  eexists. split; [reflexivity|].
  assert (Hd : forall c, In c duration_columns -> has_column c df = true ->
                 lookup_dtype c (columns (fold_left to_timedelta_col
                                                    duration_columns df))
                 = Some timedelta64).
  { intros c Hc Hp. rewrite lookup_fold_to_timedelta.
    apply has_column_lookup in Hp. destruct Hp as [t ->].
    now rewrite (proj2 (str_in_In c duration_columns) Hc). }
  split; [apply fold_to_timedelta_rows|]. split; [|split; [exact Hd|split]].
  - intros c.
    destruct (has_column c df) eqn:E.
    + apply has_column_lookup. rewrite lookup_fold_to_timedelta.
      apply has_column_lookup in E. destruct E as [t ->]. eauto.
    + apply has_column_false_lookup. rewrite lookup_fold_to_timedelta.
      apply has_column_false_lookup in E. now rewrite E.
  - intros c Hc. rewrite lookup_fold_to_timedelta.
    destruct (str_in c duration_columns) eqn:E;
      [apply str_in_In in E; contradiction|].
    destruct (lookup_dtype c (columns df)); reflexivity.
  - split.
    + intros [cl Hcl]. apply clean_laps_ok_dtype in Hcl.
      rewrite lookup_fold_to_timedelta in Hcl. apply has_column_lookup.
      destruct (lookup_dtype "LapTime" (columns df)); [eauto|discriminate].
    + intros Hp. apply clean_laps_total.
      apply Hd; [unfold duration_columns; simpl; auto | exact Hp].
Qed.

Lemma read_laps_durations_witness :
  exists raw,
    read_laps world_mixed = Ok raw
    /\ rows raw = rows laps_mixed
    /\ (forall c, has_column c raw
                  = has_column c (mkDF csv_columns (rows laps_mixed)))
    /\ (forall c, In c duration_columns ->
                  has_column c (mkDF csv_columns (rows laps_mixed)) = true ->
                  lookup_dtype c (columns raw) = Some timedelta64)
    /\ (forall c, ~ In c duration_columns ->
                  lookup_dtype c (columns raw) = lookup_dtype c csv_columns)
    /\ ((exists cl, clean_laps raw = Ok cl) <->
        has_column "LapTime" (mkDF csv_columns (rows laps_mixed)) = true).
Proof.
  apply (read_laps_durations world_mixed (mkDF csv_columns (rows laps_mixed)));
    reflexivity.
Defined.

(** ** The green-flag test on numeric status columns *)

Lemma lstrip_no_space (s : string) : no_space s = true -> lstrip s = s.
Proof.
  destruct s as [|a t]; simpl; [reflexivity|].
  rewrite andb_true_iff, negb_true_iff. now intros [-> _].
Qed.

Lemma rstrip_no_space (s : string) : no_space s = true -> rstrip s = s.
Proof.
  induction s as [|a t IH]; simpl; [reflexivity|].
  rewrite andb_true_iff, negb_true_iff. intros [Ha Ht].
  rewrite (IH Ht), Ha. destruct t; reflexivity.
Qed.

Lemma strip_no_space (s : string) : no_space s = true -> strip s = s.
Proof.
  intros H. unfold strip. rewrite (lstrip_no_space s H).
  now apply rstrip_no_space.
Qed.

Lemma no_space_append (s t : string) :
  no_space (s ++ t) = no_space s && no_space t.
Proof.
  induction s as [|a s IH]; simpl; [reflexivity|].
  now rewrite IH, andb_assoc.
Qed.

Lemma no_space_uint (d : Decimal.uint) :
  no_space (NilEmpty.string_of_uint d) = true.
Proof. induction d; simpl; auto. Qed.

Lemma no_space_str_of_Z (z : Z) : no_space (str_of_Z z) = true.
Proof.
  unfold str_of_Z, NilZero.string_of_int, NilZero.string_of_uint.
  destruct (Z.to_int z) as [d|d]; destruct d; simpl;
    try reflexivity; apply no_space_uint.
Qed.

Lemma to_int_not_nil (z : Z) :
  Z.to_int z <> Decimal.Pos Decimal.Nil /\ Z.to_int z <> Decimal.Neg Decimal.Nil.
Proof.
  split; intros E; pose proof (DecimalZ.of_to z) as H; rewrite E in H;
    simpl in H; subst z; discriminate E.
Qed.

Lemma str_of_Z_inj (z z' : Z) : str_of_Z z = str_of_Z z' -> z = z'.
Proof.
  unfold str_of_Z. intros E. apply DecimalZ.to_int_inj.
  destruct (to_int_not_nil z) as [P N], (to_int_not_nil z') as [P' N'].
  pose proof (NilZero.isi _ P N) as H. pose proof (NilZero.isi _ P' N') as H'.
  rewrite E in H. rewrite H in H'. now injection H'.
Qed.

Lemma str_of_Z_nonempty (z : Z) : str_of_Z z <> "".
Proof.
  unfold str_of_Z, NilZero.string_of_int, NilZero.string_of_uint.
  destruct (Z.to_int z) as [d|d] eqn:E; [|discriminate].
  destruct d; simpl; try discriminate.
Qed.

Lemma green_cell_eq (c : cell) :
  cell_isna c || String.eqb (strip (astype_str c)) "1" = green_cell c.
Proof.
  destruct c as [|z|z|s]; cbn [cell_isna astype_str green_cell orb].
  - reflexivity.
  - rewrite (strip_no_space _ (no_space_str_of_Z z)).
    destruct (Z.eqb_spec z 1) as [->|Hne]; [reflexivity|].
    apply String.eqb_neq. intros E. apply Hne.
    apply str_of_Z_inj. exact E.
  - rewrite strip_no_space
      by (rewrite no_space_append, no_space_str_of_Z; reflexivity).
    apply String.eqb_neq. pose proof (str_of_Z_nonempty z) as Hz.
    destruct (str_of_Z z) as [|a u]; [congruence|].
    simpl. intros E. injection E as _ E. destruct u; discriminate E.
  - reflexivity.
Qed.

(** X8: what [is_green] answers on a status column, cell by cell: a missing
    status is green; an integer status is green exactly when it is 1; a
    float status is never green, not even 1.0, because its string form
    ends in [.0]; a text status is green when it is ["1"] up to surrounding
    white space. *)
Theorem is_green_by_cell (t : dtype) (cells : list cell) :
  is_green (mkSeries t cells) = map green_cell cells.
Proof.
  unfold is_green. cbn [s_values].
  induction cells as [|c cells IH]; [reflexivity|].
  cbn [map map2]. rewrite IH. f_equal. apply green_cell_eq.
Qed.

(** ** The stint summary: errors, order, lap range *)

Lemma require_columns_fold_raise (cs : list string) (df : DataFrame) (e : exn) :
  fold_left (fun acc c => _ <- acc ;;
               if has_column c df then Ok tt else Raise (KeyError c))
            cs (Raise e) = Raise e.
Proof. induction cs as [|c cs IH]; simpl; [reflexivity | exact IH]. Qed.

(** The first absent column is the one the [KeyError] names. *)
Lemma require_columns_first_missing (pre post : list string) (c : string)
    (df : DataFrame) :
  (forall x, In x pre -> has_column x df = true) ->
  has_column c df = false ->
  require_columns (pre ++ c :: post) df = Raise (KeyError c).
Proof.
  unfold require_columns. intros Hpre Hc.
  assert (G : forall acc, acc = Ok tt ->
              fold_left (fun acc c => _ <- acc ;;
                           if has_column c df then Ok tt else Raise (KeyError c))
                        (pre ++ c :: post) acc = Raise (KeyError c));
    [|now apply G].
  induction pre as [|x pre IH]; intros acc ->; simpl.
  - rewrite Hc. apply require_columns_fold_raise.
  - rewrite (Hpre x (or_introl eq_refl)). apply IH; [|reflexivity].
    intros y Hy. apply Hpre. now right.
Qed.

Lemma split_first_missing (cs : list string) (df : DataFrame) :
  (forall c, In c cs -> has_column c df = true)
  \/ exists pre c post,
       cs = pre ++ c :: post
       /\ (forall x, In x pre -> has_column x df = true)
       /\ has_column c df = false.
Proof.
  induction cs as [|c cs IH]; [left; intros c []|].
  destruct (has_column c df) eqn:E.
  - destruct IH as [H|[pre [c' [post [-> [Hpre Hc']]]]]].
    + left. intros x [<-|Hx]; auto.
    + right. exists (c :: pre), c', post. split; [reflexivity|].
      split; [|exact Hc']. intros x [<-|Hx]; auto.
  - right. exists [], c, cs. split; [reflexivity|]. split; [intros x []|exact E].
Qed.

Lemma clean_laps_has_columns (df out : DataFrame) (c : string) :
  clean_laps df = Ok out -> In c need \/ c = "LapTime_s" ->
  has_column c out = true.
Proof.
  intros H Hc. destruct (clean_laps_ok_inv df out H) as [df5 [Hp [_ [t [_ Hcols]]]]].
  pose proof (pace_filter_columns _ _ Hp) as Hc5. cbn [columns] in Hc5.
  apply has_column_lookup. rewrite Hcols.
  destruct Hc as [Hin| ->]; [|rewrite lookup_set_dtype_same; eauto].
  assert (H5 : exists u, lookup_dtype c (columns df5) = Some u).
  { rewrite Hc5. eapply lookup_set_dtype_some.
    apply (lookup_synthesize c df (proj2 (str_in_In c need) Hin)). }
  destruct H5 as [u Hu].
  destruct (char_in (kind t) "fi").
  - eapply lookup_set_dtype_some. exact Hu.
  - destruct (lookup_set_dtype_some c "TyreLife" u float64 _ Hu) as [u' Hu'].
    eapply lookup_set_dtype_some. exact Hu'.
Qed.

(** X9: [stint_summary] returns a table exactly when its five columns are
    there; otherwise it raises [KeyError] for the first one that is absent,
    in the order Driver, Stint, Compound, LapNumber, LapTime_s; on a table
    returned by [clean_laps] it never raises. *)
Theorem stint_summary_returns_iff (df : DataFrame) :
  ((exists st, stint_summary df = Ok st) <->
   forall c, In c stint_columns -> has_column c df = true)
  /\ (forall e, stint_summary df = Raise e ->
        exists pre c post,
          stint_columns = pre ++ c :: post
          /\ (forall x, In x pre -> has_column x df = true)
          /\ has_column c df = false /\ e = KeyError c)
  /\ (forall raw, clean_laps raw = Ok df -> exists st, stint_summary df = Ok st).
Proof.
  assert (Hok : (forall c, In c stint_columns -> has_column c df = true) ->
                exists st, stint_summary df = Ok st)
    by (intros H; eexists; apply (stint_summary_eq df H)).
  assert (Hraise : forall pre c post,
             stint_columns = pre ++ c :: post ->
             (forall x, In x pre -> has_column x df = true) ->
             has_column c df = false ->
             stint_summary df = Raise (KeyError c)).
  { intros pre c post E Hpre Hc. unfold stint_summary.
    change ["Driver"; "Stint"; "Compound"; "LapNumber"; "LapTime_s"]
      with stint_columns.
    rewrite E, (require_columns_first_missing pre post c df Hpre Hc).
    reflexivity. }
  split; [split; [|exact Hok]|split].
  - intros [st H].
    destruct (split_first_missing stint_columns df)
      as [Hall|[pre [c [post [E [Hpre Hc]]]]]]; [exact Hall|].
    rewrite (Hraise pre c post E Hpre Hc) in H. discriminate.
  - intros e He.
    destruct (split_first_missing stint_columns df)
      as [Hall|[pre [c [post [E [Hpre Hc]]]]]].
    + destruct (Hok Hall) as [st Hst]. congruence.
    + exists pre, c, post. rewrite (Hraise pre c post E Hpre Hc) in He.
      injection He as <-. auto.
  - intros raw Hcl. apply Hok. intros c Hc.
    apply (clean_laps_has_columns raw df c Hcl).
    unfold stint_columns, need in *. simpl in *. intuition.
Qed.

Lemma stint_summary_returns_iff_witness :
  exists st, stint_summary cleaned_laps = Ok st.
Proof.
  destruct (stint_summary_returns_iff cleaned_laps) as [_ [_ H]].
  apply (H laps_with_outlier). vm_compute. reflexivity.
Defined.



Lemma row_key_summarize (k : StintKey) (g : list Row) :
  row_key (summarize (k, g)) = k.
Proof. destruct k as [[d s] c]. reflexivity. Qed.

Lemma stint_summary_ok_inv (df : DataFrame) (st : list StintRow) :
  stint_summary df = Ok st ->
  st = sort_by driver_stint_leb
         (map summarize (groupby stint_key_eqb stint_key_leb stint_key (rows df))).
Proof.
  intros H. pose proof H as H'. unfold stint_summary in H'.
  apply bind_ok in H'. destruct H' as [u [Hu _]].
  rewrite stint_summary_eq in H by (apply (require_columns_inv _ _ _ Hu)).
  now injection H.
Qed.

Lemma stint_summary_In (df : DataFrame) (st : list StintRow) (s : StintRow) :
  stint_summary df = Ok st -> In s st ->
  (exists r, In r (rows df) /\ stint_key (snd r) = row_key s)
  /\ s = summarize (row_key s, group_of s (rows df)).
Proof.
  intros H Hs. rewrite (stint_summary_ok_inv df st H) in Hs.
  apply (proj1 (sort_by_In _ _ _)) in Hs. apply in_map_iff in Hs.
  destruct Hs as [[k g] [<- Hkg]].
  apply (groupby_keys_In _ _ _ _ _ stint_key_eqb_eq) in Hkg. cbn [fst snd] in Hkg.
  destruct Hkg as [Hex ->]. unfold group_of. rewrite row_key_summarize.
  split; [exact Hex | reflexivity].
Qed.



Lemma present_In {A : Type} (f : Lap -> option A) (g : list Row) (v : A) :
  In v (present f g) <-> exists r, In r g /\ f (snd r) = Some v.
Proof.
  unfold present. rewrite in_flat_map. split.
  - intros [r [Hr Hv]]. destruct (f (snd r)) eqn:E; [|destruct Hv].
    destruct Hv as [<-|[]]. eauto.
  - intros [r [Hr E]]. exists r. rewrite E. split; [exact Hr | now left].
Qed.

Lemma present_length (g : list Row) :
  List.length (present LapNumber g) = List.length (filter has_lap_number g).
Proof.
  unfold present, has_lap_number. induction g as [|r g IH]; [reflexivity|].
  cbn [flat_map filter]. destruct (LapNumber (snd r));
    cbn [isSome app List.length]; now rewrite IH.
Qed.

Lemma fold_min_spec (t : list Z) (v : Z) :
  In (fold_left Z.min t v) (v :: t)
  /\ forall x, In x (v :: t) -> (fold_left Z.min t v <= x)%Z.
Proof.
  revert v. induction t as [|y t IH]; intros v; simpl.
  - split; [now left | intros x [<-|[]]; lia].
  - destruct (IH (Z.min v y)) as [Hin Hle]. split.
    + destruct Hin as [E|Hin]; [|auto].
      rewrite <- E. destruct (Z.min_spec v y) as [[_ ->]|[_ ->]]; auto.
    + intros x Hx.
      assert (L : (fold_left Z.min t (Z.min v y) <= Z.min v y)%Z)
        by (apply Hle; now left).
      destruct Hx as [<-|[<-|Hx]]; [lia | lia | apply Hle; now right].
Qed.

Lemma fold_max_spec (t : list Z) (v : Z) :
  In (fold_left Z.max t v) (v :: t)
  /\ forall x, In x (v :: t) -> (x <= fold_left Z.max t v)%Z.
Proof.
  revert v. induction t as [|y t IH]; intros v; simpl.
  - split; [now left | intros x [<-|[]]; lia].
  - destruct (IH (Z.max v y)) as [Hin Hle]. split.
    + destruct Hin as [E|Hin]; [|auto].
      rewrite <- E. destruct (Z.max_spec v y) as [[_ ->]|[_ ->]]; auto.
    + intros x Hx.
      assert (L : (Z.max v y <= fold_left Z.max t (Z.max v y))%Z)
        by (apply Hle; now left).
      destruct Hx as [<-|[<-|Hx]]; [lia | lia | apply Hle; now right].
Qed.

(** X11: in each row of the stint summary, [laps] is the number of rows of
    the group that have a lap number, [start_lap] and [end_lap] are lap
    numbers that occur in the group, and every lap number of the group lies
    between them. *)
Theorem stint_lap_range (df : DataFrame) (st : list StintRow) (s : StintRow) :
  stint_summary df = Ok st -> In s st ->
  laps s = Z.of_nat (List.length (filter has_lap_number (group_of s (rows df))))
  /\ (forall r n, In r (group_of s (rows df)) -> LapNumber (snd r) = Some n ->
        exists a b, start_lap s = Some a /\ end_lap s = Some b
                    /\ (a <= n <= b)%Z)
  /\ (forall a, start_lap s = Some a ->
        exists r, In r (group_of s (rows df)) /\ LapNumber (snd r) = Some a)
  /\ (forall b, end_lap s = Some b ->
        exists r, In r (group_of s (rows df)) /\ LapNumber (snd r) = Some b).
Proof.
  intros H Hs. destruct (stint_summary_In df st s H Hs) as [_ E].
  set (g := group_of s (rows df)) in *.
  assert (El : laps s = agg_count (present LapNumber g)
               /\ start_lap s = agg_min (present LapNumber g)
               /\ end_lap s = agg_max (present LapNumber g)).
  { rewrite E. destruct (row_key s) as [[d k] c]. repeat split. }
  destruct El as [E1 [E2 E3]]. rewrite E1, E2, E3.
  split; [unfold agg_count; now rewrite present_length|].
  split; [|split].
  - intros r n Hr Hn.
    assert (Hin : In n (present LapNumber g)) by (apply present_In; eauto).
    unfold agg_min, agg_max.
    destruct (present LapNumber g) as [|v t]; [destruct Hin|].
    exists (fold_left Z.min t v), (fold_left Z.max t v).
    split; [reflexivity|]. split; [reflexivity|].
    split; [apply fold_min_spec | apply fold_max_spec]; exact Hin.
  - intros a Ha. apply present_In. unfold agg_min in Ha.
    destruct (present LapNumber g) as [|v t]; [discriminate|].
    injection Ha as <-. apply fold_min_spec.
  - intros b Hb. apply present_In. unfold agg_max in Hb.
    destruct (present LapNumber g) as [|v t]; [discriminate|].
    injection Hb as <-. apply fold_max_spec.
Qed.

Lemma stint_lap_range_witness :
  laps first_stint
  = Z.of_nat (List.length
                (filter has_lap_number (group_of first_stint (rows cleaned_laps))))
  /\ (forall r n, In r (group_of first_stint (rows cleaned_laps)) ->
        LapNumber (snd r) = Some n ->
        exists a b, start_lap first_stint = Some a /\ end_lap first_stint = Some b
                    /\ (a <= n <= b)%Z)
  /\ (forall a, start_lap first_stint = Some a ->
        exists r, In r (group_of first_stint (rows cleaned_laps))
                  /\ LapNumber (snd r) = Some a)
  /\ (forall b, end_lap first_stint = Some b ->
        exists r, In r (group_of first_stint (rows cleaned_laps))
                  /\ LapNumber (snd r) = Some b).
Proof.
  apply (stint_lap_range cleaned_laps cleaned_summary first_stint).
  - vm_compute. reflexivity.
  - vm_compute. left. reflexivity.
Defined.

(** ** The degradation fit: when it returns, what its table holds *)

(** X12: on a table with the three columns it reads, the degradation fit
    returns a table exactly when some compound has at least 20 complete rows
    with at least 3 distinct tyre ages; when no compound qualifies it raises
    [KeyError('Compound')] instead of returning an empty table. *)
Theorem deg_fit_returns_iff
    (polyfit1 : list Q -> list Q -> Q * Q) (sqrt : Q -> Q) (df : DataFrame) :
  (forall c, In c fit_columns -> has_column c df = true) ->
  ((exists fits, simple_deg_fit polyfit1 sqrt df = Ok fits) <->
   exists comp, qualifies (rows df) comp = true)
  /\ ((forall comp, qualifies (rows df) comp = false) ->
      simple_deg_fit polyfit1 sqrt df = Raise (KeyError "Compound")).
Proof.
  intros Hc. split; [split|].
  - intros [fits H]. destruct (simple_deg_fit_ok_inv _ _ _ _ H) as [_ Hne].
    destruct fits as [|f fits]; [congruence|].
    destruct (deg_fit_rows _ _ _ _ H) as [Hin _].
    destruct (proj1 (Hin f) (or_introl eq_refl)) as [comp [Hq _]]. eauto.
  - intros [comp Hq]. exact (deg_fit_total polyfit1 sqrt df comp Hc Hq).
  - apply deg_fit_raises, Hc.
Qed.

Lemma deg_fit_returns_iff_witness :
  (exists fits, simple_deg_fit no_fit no_sqrt cleaned_twenty = Ok fits) <->
  exists comp, qualifies (rows cleaned_twenty) comp = true.
Proof.
  apply (deg_fit_returns_iff no_fit no_sqrt cleaned_twenty).
  intros c Hc. unfold fit_columns in Hc. simpl in Hc.
  destruct Hc as [<-|[<-|[<-|[]]]]; vm_compute; reflexivity.
Defined.

Lemma fit_group_fields (polyfit1 : list Q -> list Q -> Q * Q) (sqrt : Q -> Q)
    (comp : string) (g : list Row) :
  f_Compound (fit_group polyfit1 sqrt comp g) = comp
  /\ n (fit_group polyfit1 sqrt comp g) = Z.of_nat (List.length g).
Proof. unfold fit_group. destruct (polyfit1 _ _). split; reflexivity. Qed.

Lemma fit_leb_false (a b : FitRow) : fit_leb a b = false -> fit_leb b a = true.
Proof. apply string_leb_false. Qed.

Lemma fit_leb_trans (a b c : FitRow) :
  fit_leb a b = true -> fit_leb b c = true -> fit_leb a c = true.
Proof. apply string_leb_trans. Qed.

(** X13: a table returned by the degradation fit holds exactly the fits of
    the qualifying compounds, one row per compound, sorted by compound name
    ascending; the sample count [n] of a row is the number of complete rows
    of its compound, hence at least 20. *)
Theorem deg_fit_table
    (polyfit1 : list Q -> list Q -> Q * Q) (sqrt : Q -> Q)
    (df : DataFrame) (fits : list FitRow) :
  simple_deg_fit polyfit1 sqrt df = Ok fits ->
  (forall f, In f fits <->
             exists comp, qualifies (rows df) comp = true
                          /\ f = fit_group polyfit1 sqrt comp
                                   (compound_group (rows df) comp))
  /\ NoDup (map f_Compound fits)
  /\ StronglySorted (fun a b => fit_leb a b = true) fits
  /\ (forall f, In f fits ->
        n f = Z.of_nat (List.length (compound_group (rows df) (f_Compound f)))
        /\ (20 <= n f)%Z).
Proof.
  intros H. destruct (deg_fit_rows _ _ _ _ H) as [Hin Hnd].
  split; [exact Hin|]. split; [exact Hnd|]. split.
  - destruct (simple_deg_fit_ok_inv _ _ _ _ H) as [-> _].
    apply sort_by_sorted; [apply fit_leb_false | apply fit_leb_trans].
  - intros f Hf. destruct (proj1 (Hin f) Hf) as [comp [Hq ->]].
    destruct (fit_group_fields polyfit1 sqrt comp (compound_group (rows df) comp))
      as [-> ->].
    split; [reflexivity|].
    unfold qualifies in Hq. apply andb_true_iff in Hq. destruct Hq as [Hq _].
    apply Nat.leb_le in Hq. lia.
Qed.

Lemma deg_fit_table_witness :
  exists fits,
    simple_deg_fit no_fit no_sqrt cleaned_twenty = Ok fits
    /\ (forall f, In f fits <->
               exists comp, qualifies (rows cleaned_twenty) comp = true
                            /\ f = fit_group no_fit no_sqrt comp
                                     (compound_group (rows cleaned_twenty) comp))
    /\ NoDup (map f_Compound fits)
    /\ StronglySorted (fun a b => fit_leb a b = true) fits
    /\ (forall f, In f fits ->
          n f = Z.of_nat (List.length
                            (compound_group (rows cleaned_twenty) (f_Compound f)))
          /\ (20 <= n f)%Z).
Proof.
  eexists. split; [vm_compute; reflexivity|].
  apply (deg_fit_table no_fit no_sqrt cleaned_twenty). vm_compute. reflexivity.
Defined.

(** ** The cleaning job: what a run leaves behind *)

Lemma print_all_eq (ls : list string) (p : Proc) :
  print_all ls p = (Ok tt, mkProc (stdout p ++ ls) (stderr p) (files p)).
Proof.
  revert p. induction ls as [|l ls IH]; intros p.
  - simpl. unfold io_ret. rewrite app_nil_r. now destruct p.
  - cbn [print_all]. unfold io_bind, print. rewrite IH. cbn [stdout stderr files].
    now rewrite <- app_assoc.
Qed.

(** X14: when the output directory can be made, the raw file read and
    cleaned, both tables computed and all three files written, [main] ends
    with status 0, prints nothing on the error stream, writes the cleaned
    laps, the stint summary and the fit table under their names in that
    order, and prints the three summary lines followed by one line per fitted
    compound. *)
Theorem main_success
    (polyfit1 : list Q -> list Q -> Q * Q) (sqrt : Q -> Q)
    (format_f : nat -> Q -> string)
    (w : World) (raw cl : DataFrame) (st : list StintRow) (deg : list FitRow) :
  mkdir_out w = None ->
  read_laps w = Ok raw ->
  clean_laps raw = Ok cl ->
  stint_summary cl = Ok st ->
  simple_deg_fit polyfit1 sqrt cl = Ok deg ->
  (forall name, to_csv_fails w name = None) ->
  main polyfit1 sqrt format_f w
  = (mkProc
       ([("ok: clean laps -> data/processed/clean_laps_hun_2022.csv ["
          ++ len_str (rows cl) ++ " rows]")%string;
         ("ok: stint summary -> data/processed/stint_summary_hun_2022.csv ["
          ++ len_str st ++ " rows]")%string;
         "ok: degradation fit -> data/processed/deg_compound_fit_hun_2022.csv"]
        ++ map (fit_line format_f) deg)
       []
       [("clean_laps_hun_2022.csv", CleanLaps cl);
        ("stint_summary_hun_2022.csv", StintSummary st);
        ("deg_compound_fit_hun_2022.csv", DegFit deg)],
     0%Z).
Proof.
  intros Hm Hr Hc Hs Hd Hw.
  unfold main, job, io_bind, io_lift, to_csv, print.
  rewrite Hm, Hr, Hc, Hs, Hd, !Hw. cbn [stdout stderr files app].
  rewrite print_all_eq. reflexivity.
Qed.

Lemma main_success_witness :
  exists cl st deg,
    clean_laps twenty_laps = Ok cl
    /\ stint_summary cl = Ok st
    /\ simple_deg_fit no_fit no_sqrt cl = Ok deg
    /\ main no_fit no_sqrt no_format world_twenty
       = (mkProc
            ([("ok: clean laps -> data/processed/clean_laps_hun_2022.csv ["
               ++ len_str (rows cl) ++ " rows]")%string;
              ("ok: stint summary -> data/processed/stint_summary_hun_2022.csv ["
               ++ len_str st ++ " rows]")%string;
              "ok: degradation fit -> data/processed/deg_compound_fit_hun_2022.csv"]
             ++ map (fit_line no_format) deg)
            []
            [("clean_laps_hun_2022.csv", CleanLaps cl);
             ("stint_summary_hun_2022.csv", StintSummary st);
             ("deg_compound_fit_hun_2022.csv", DegFit deg)],
          0%Z).
Proof.
  eexists. eexists. eexists.
  split; [vm_compute; reflexivity|].
  split; [vm_compute; reflexivity|].
  split; [vm_compute; reflexivity|].
  apply (main_success no_fit no_sqrt no_format world_twenty twenty_laps);
    try reflexivity; vm_compute; reflexivity.
Defined.

(** X15: every run of [main] ends in one of two ways.  With status 0: the
    error stream is empty and exactly the three output files were written,
    in order.  With status 1: nothing was printed on the output stream, the
    error stream holds the single line [error: ...] of the exception, and
    the files written are a proper prefix of the three; when no write
    fails, a failing run writes no file at all. *)
Theorem main_outcome
    (polyfit1 : list Q -> list Q -> Q * Q) (sqrt : Q -> Q)
    (format_f : nat -> Q -> string) (w : World) :
  ((snd (main polyfit1 sqrt format_f w) = 0%Z
    /\ stderr (fst (main polyfit1 sqrt format_f w)) = []
    /\ map fst (files (fst (main polyfit1 sqrt format_f w))) = output_names)
   \/ (snd (main polyfit1 sqrt format_f w) = 1%Z
       /\ stdout (fst (main polyfit1 sqrt format_f w)) = []
       /\ (exists e, stderr (fst (main polyfit1 sqrt format_f w))
                     = [("error: " ++ exn_str e)%string])
       /\ exists k, (k < 3)%nat
                    /\ map fst (files (fst (main polyfit1 sqrt format_f w)))
                       = firstn k output_names))
  /\ ((forall name, to_csv_fails w name = None) ->
      snd (main polyfit1 sqrt format_f w) = 1%Z ->
      files (fst (main polyfit1 sqrt format_f w)) = []).
Proof.
  unfold main, job, io_bind, io_lift, to_csv, print.
  destruct (mkdir_out w) as [e|].
  { split; [right|intros _ _; reflexivity].
    cbn. split; [reflexivity|]. split; [reflexivity|].
    split; [eexists; reflexivity|]. exists 0%nat. split; [lia|reflexivity]. }
  destruct (read_laps w) as [raw|e].
  2:{ split; [right|intros _ _; reflexivity].
      cbn. split; [reflexivity|]. split; [reflexivity|].
    split; [eexists; reflexivity|]. exists 0%nat. split; [lia|reflexivity]. }
  destruct (clean_laps raw) as [cl|e].
  2:{ split; [right|intros _ _; reflexivity].
      cbn. split; [reflexivity|]. split; [reflexivity|].
    split; [eexists; reflexivity|]. exists 0%nat. split; [lia|reflexivity]. }
  destruct (stint_summary cl) as [st|e].
  2:{ split; [right|intros _ _; reflexivity].
      cbn. split; [reflexivity|]. split; [reflexivity|].
    split; [eexists; reflexivity|]. exists 0%nat. split; [lia|reflexivity]. }
  destruct (simple_deg_fit polyfit1 sqrt cl) as [deg|e].
  2:{ split; [right|intros _ _; reflexivity].
      cbn. split; [reflexivity|]. split; [reflexivity|].
    split; [eexists; reflexivity|]. exists 0%nat. split; [lia|reflexivity]. }
  destruct (to_csv_fails w "clean_laps_hun_2022.csv") as [e|] eqn:E1.
  { split; [right|intros H; rewrite H in E1; discriminate].
    cbn. split; [reflexivity|]. split; [reflexivity|].
    split; [eexists; reflexivity|]. exists 0%nat. split; [lia|reflexivity]. }
  destruct (to_csv_fails w "stint_summary_hun_2022.csv") as [e|] eqn:E2.
  { split; [right|intros H; rewrite H in E2; discriminate].
    cbn. split; [reflexivity|]. split; [reflexivity|].
    split; [eexists; reflexivity|]. exists 1%nat. split; [lia|reflexivity]. }
  destruct (to_csv_fails w "deg_compound_fit_hun_2022.csv") as [e|] eqn:E3.
  { split; [right|intros H; rewrite H in E3; discriminate].
    cbn. split; [reflexivity|]. split; [reflexivity|].
    split; [eexists; reflexivity|]. exists 2%nat. split; [lia|reflexivity]. }
  cbn [stdout stderr files app]. rewrite print_all_eq.
  split; [left|intros _ H; discriminate H].
  cbn. split; [reflexivity|]. split; reflexivity.
Qed.

Lemma main_outcome_witness :
  files (fst (main no_fit no_sqrt no_format world_nineteen)) = [].
Proof.
  apply (proj2 (main_outcome no_fit no_sqrt no_format world_nineteen)).
  - reflexivity.
  - vm_compute. reflexivity.
Defined.

(** ** The pit-stop table: errors, columns, rows *)

Lemma rename_col_inj (c c' : string) :
  In c pit_cols -> In c' pit_cols -> rename_col c = rename_col c' -> c = c'.
Proof.
  unfold pit_cols. simpl.
  intros [<-|[<-|[<-|[<-|[<-|[<-|[<-|[<-|[<-|[<-|[<-|[]]]]]]]]]]]];
    intros [<-|[<-|[<-|[<-|[<-|[<-|[<-|[<-|[<-|[<-|[<-|[]]]]]]]]]]]];
    intros E; try reflexivity; discriminate E.
Qed.

Lemma renamed_in (laps : DataFrame) (c : string) :
  In c pit_cols ->
  str_in (rename_col c)
         (map rename_col (filter (fun c => has_column c laps) pit_cols))
  = has_column c laps.
Proof.
  intros Hc. destruct (has_column c laps) eqn:E.
  - apply str_in_In, in_map, filter_In. auto.
  - destruct (str_in _ _) eqn:S; [|reflexivity].
    apply str_in_In, in_map_iff in S. destruct S as [c' [Er Hc']].
    apply filter_In in Hc'. destruct Hc' as [Hc' Hh].
    rewrite (rename_col_inj c' c Hc' Hc Er) in Hh. congruence.
Qed.

Lemma str_in_app (x : string) (l m : list string) :
  str_in x (l ++ m) = str_in x l || str_in x m.
Proof.
  unfold str_in. induction l as [|y l IH]; simpl; [reflexivity|].
  now rewrite IH, orb_assoc.
Qed.

Lemma require_names_app_raise (a b names : list string) (e : exn) :
  require_names a names = Raise e -> require_names (a ++ b) names = Raise e.
Proof.
  induction a as [|c a IH]; simpl; [discriminate|].
  destruct (str_in c names); auto.
Qed.

(** The table [pit_table_from_laps] returns, with its column list. *)
Lemma pit_table_from_laps_columns (laps : DataFrame) :
  (forall c, In c pit_required -> has_column c laps = true) ->
  exists pt,
    pit_table_from_laps laps = Ok pt
    /\ pit_columns pt
       = pit_order
           ++ filter (fun c => negb (str_in c pit_order))
                (map rename_col (filter (fun c => has_column c laps) pit_cols)
                     ++ ["Stop"])
    /\ pit_rows pt
       = map2 mk_pit
           (sort_by pit_leb (filter in_lap_row (rows laps)))
           (map (option_map (fun c => c + 1)%Z)
                (cumcount []
                   (map (fun r => Driver (snd r))
                        (sort_by pit_leb (filter in_lap_row (rows laps)))))).
Proof.
  intros H. destruct (pit_table_from_laps_eq laps H) as [order Hrun].
  eexists. split; [exact Hrun|]. cbn [pit_columns pit_rows].
  split; [|reflexivity].
  unfold pit_table_from_laps in Hrun.
  destruct (lookup_dtype "PitInTime" (columns laps)); [|discriminate].
  cbn [bind] in Hrun.
  apply bind_ok in Hrun. destruct Hrun as [u [_ Hrun]].
  apply bind_ok in Hrun. destruct Hrun as [v [_ Hrun]].
  now injection Hrun.
Qed.

(** X16: [pit_table_from_laps] returns a table exactly when the lap table
    has the columns Driver, Team, LapNumber, PitInTime and PitOutTime; without
    [PitInTime] it raises the [AttributeError] of calling [notna] on [None],
    and without one of the others a [KeyError]. *)
Theorem pit_table_returns_iff (laps : DataFrame) :
  ((exists pt, pit_table_from_laps laps = Ok pt) <->
   forall c, In c pit_required -> has_column c laps = true)
  /\ (has_column "PitInTime" laps = false ->
      pit_table_from_laps laps = Raise none_notna)
  /\ (forall e, pit_table_from_laps laps = Raise e ->
                e = none_notna \/ exists c, e = KeyError c).
Proof.
  assert (Hin : forall c, In c pit_cols ->
                  str_in (rename_col c)
                         (map rename_col
                              (filter (fun c => has_column c laps) pit_cols))
                  = has_column c laps) by apply renamed_in.
  pose proof (Hin "Driver" ltac:(unfold pit_cols; simpl; auto)) as HD.
  pose proof (Hin "Team" ltac:(unfold pit_cols; simpl; auto)) as HT.
  pose proof (Hin "LapNumber" ltac:(unfold pit_cols; simpl; auto)) as HL.
  pose proof (Hin "PitInTime" ltac:(unfold pit_cols; simpl; auto 6)) as HI.
  pose proof (Hin "PitOutTime" ltac:(unfold pit_cols; simpl; auto 6)) as HO.
  change (rename_col "Driver") with "Driver" in HD.
  change (rename_col "Team") with "Team" in HT.
  change (rename_col "LapNumber") with "InLap" in HL.
  change (rename_col "PitInTime") with "InTime" in HI.
  change (rename_col "PitOutTime") with "OutTime" in HO.
  assert (Hcases :
            (forall c, In c pit_required -> has_column c laps = true)
            \/ (has_column "PitInTime" laps = false
                /\ pit_table_from_laps laps = Raise none_notna)
            \/ (exists c, pit_table_from_laps laps = Raise (KeyError c))).
  { destruct (has_column "PitInTime" laps) eqn:EI.
    2:{ right. left. split; [reflexivity|]. unfold pit_table_from_laps.
        apply has_column_false_lookup in EI. now rewrite EI. }
    pose proof EI as EI'. apply has_column_lookup in EI'. destruct EI' as [t Ht].
    destruct (has_column "Driver" laps) eqn:ED.
    2:{ right. right. exists "Driver". unfold pit_table_from_laps.
        rewrite Ht. cbn [bind require_names]. now rewrite HD. }
    destruct (has_column "LapNumber" laps) eqn:EL.
    2:{ right. right. exists "InLap". unfold pit_table_from_laps.
        rewrite Ht. cbn [bind require_names]. now rewrite HD, HL. }
    destruct (has_column "Team" laps) eqn:ET.
    2:{ right. right. exists "Team". unfold pit_table_from_laps.
        rewrite Ht. cbn [bind require_names]. rewrite HD, HL. cbn [bind].
        rewrite (require_names_app_raise pit_order _ _ (KeyError "Team"));
          [reflexivity|].
        unfold pit_order. cbn [require_names].
        rewrite !str_in_app, HD, HT. reflexivity. }
    destruct (has_column "PitOutTime" laps) eqn:EO.
    2:{ right. right. exists "OutTime". unfold pit_table_from_laps.
        rewrite Ht. cbn [bind require_names]. rewrite HD, HL. cbn [bind].
        rewrite (require_names_app_raise pit_order _ _ (KeyError "OutTime"));
          [reflexivity|].
        unfold pit_order. cbn [require_names].
        rewrite !str_in_app, HD, HT, HL, HI, HO.
        change (str_in "Stop" ["Stop"]) with true. rewrite orb_true_r.
        reflexivity. }
    left. unfold pit_required. simpl.
    intros c [<-|[<-|[<-|[<-|[<-|[]]]]]]; assumption. }
  split; [split|split].
  - intros [pt Hpt]. destruct Hcases as [Hall|[[_ Hr]|[c Hr]]]; [exact Hall| |];
      rewrite Hr in Hpt; discriminate.
  - intros Hall. destruct (pit_table_from_laps_eq laps Hall) as [o Ho]. eauto.
  - intros EI. destruct Hcases as [Hall|[[_ Hr]|[c Hr]]]; [|exact Hr|].
    + rewrite Hall in EI; [discriminate | unfold pit_required; simpl; auto].
    + unfold pit_table_from_laps in *. apply has_column_false_lookup in EI.
      now rewrite EI.
  - intros e He. destruct Hcases as [Hall|[[_ Hr]|[c Hr]]].
    + destruct (pit_table_from_laps_eq laps Hall) as [o Ho]. congruence.
    + left. congruence.
    + right. exists c. congruence.
Qed.

Lemma pit_table_returns_iff_witness :
  exists pt, pit_table_from_laps laps_few_columns = Ok pt.
Proof.
  apply (proj2 (proj1 (pit_table_returns_iff laps_few_columns))).
  intros c Hc. unfold pit_required in Hc. simpl in Hc.
  destruct Hc as [<-|[<-|[<-|[<-|[<-|[]]]]]]; reflexivity.
Defined.

(** X17: the columns of the pit-stop table are Driver, Team, Stop, InLap,
    InTime, OutTime, followed by those of Stint, Compound, TyreLife,
    FreshTyre, Time and LapTime that the lap table has, in that order. *)
Theorem pit_table_column_order (laps : DataFrame) :
  (forall c, In c pit_required -> has_column c laps = true) ->
  exists pt,
    pit_table_from_laps laps = Ok pt
    /\ pit_columns pt
       = pit_order ++ filter (fun c => has_column c laps) pit_optional.
Proof.
  intros H. destruct (pit_table_from_laps_columns laps H) as [pt [Hrun [Hc _]]].
  exists pt. split; [exact Hrun|]. rewrite Hc. f_equal.
  unfold pit_cols, pit_optional. cbn [filter].
  rewrite (H "Driver"), (H "Team"), (H "LapNumber"), (H "PitInTime"),
    (H "PitOutTime") by (unfold pit_required; simpl; auto 6).
  destruct (has_column "Stint" laps), (has_column "Compound" laps),
    (has_column "TyreLife" laps), (has_column "FreshTyre" laps),
    (has_column "Time" laps), (has_column "LapTime" laps); reflexivity.
Qed.

Lemma pit_table_column_order_witness :
  exists pt,
    pit_table_from_laps laps_few_columns = Ok pt
    /\ pit_columns pt
       = pit_order ++ filter (fun c => has_column c laps_few_columns) pit_optional.
Proof.
  apply (pit_table_column_order laps_few_columns).
  intros c Hc. unfold pit_required in Hc. simpl in Hc.
  destruct Hc as [<-|[<-|[<-|[<-|[<-|[]]]]]]; reflexivity.
Defined.

Lemma erase_stop_map2 (l : list Row) (st : list (option Z)) :
  List.length st = List.length l ->
  map erase_stop (map2 mk_pit l st) = map (fun r => mk_pit r None) l.
Proof.
  revert st. induction l as [|a l IH]; intros [|s st] H; simpl in *;
    try reflexivity; try discriminate.
  now rewrite IH by lia.
Qed.

(** X18: the pit-stop table holds each row of the lap table that has a
    pit-in time exactly once, with its label and values, and no other row;
    a lap table without any pit-in time gives an empty pit-stop table, not
    an error. *)
Theorem pit_table_rows (laps : DataFrame) :
  (forall c, In c pit_required -> has_column c laps = true) ->
  exists pt,
    pit_table_from_laps laps = Ok pt
    /\ Permutation (map erase_stop (pit_rows pt))
                   (map (fun r => mk_pit r None) (filter in_lap_row (rows laps)))
    /\ ((forall r, In r (rows laps) -> PitInTime (snd r) = None) ->
        pit_rows pt = []).
Proof.
  intros H. destruct (pit_table_from_laps_columns laps H) as [pt [Hrun [_ Hr]]].
  exists pt. split; [exact Hrun|]. rewrite Hr. split.
  - rewrite erase_stop_map2
      by (now rewrite length_map, cumcount_length, length_map).
    apply Permutation_map, sort_by_perm.
  - intros Hnone.
    assert (E : filter in_lap_row (rows laps) = []).
    { rewrite <- (filter_ext_In (fun _ => false)).
      - clear. induction (rows laps); simpl; auto.
      - intros r Hin. unfold in_lap_row. now rewrite (Hnone r Hin). }
    rewrite E. reflexivity.
Qed.

Lemma pit_table_rows_witness :
  exists pt,
    pit_table_from_laps laps_with_pits = Ok pt
    /\ Permutation (map erase_stop (pit_rows pt))
                   (map (fun r => mk_pit r None)
                        (filter in_lap_row (rows laps_with_pits)))
    /\ ((forall r, In r (rows laps_with_pits) -> PitInTime (snd r) = None) ->
        pit_rows pt = []).
Proof.
  apply (pit_table_rows laps_with_pits).
  intros c Hc. unfold pit_required in Hc. simpl in Hc.
  destruct Hc as [<-|[<-|[<-|[<-|[<-|[]]]]]]; reflexivity.
Defined.

(** ** The fetch job: what a run leaves behind *)

Lemma driver_names_ok (txt : list (option string) -> string) (laps : DataFrame) :
  has_column "Driver" laps = true ->
  (forall r, In r (rows laps) -> Driver (snd r) <> None) ->
  driver_names txt laps
  = Ok (String.concat ", "
          (sort_by String.leb
             (flat_map (fun d => match d with Some v => [v] | None => [] end)
                (unique_by key_eqb (map (fun r => Driver (snd r)) (rows laps)))))).
Proof.
  intros Hc Hall. apply has_column_lookup in Hc. destruct Hc as [t Ht].
  unfold driver_names, column. rewrite Ht. cbn [bind s_values].
  assert (F : forallb isSome
                (unique_by key_eqb (map (fun r => Driver (snd r)) (rows laps)))
              = true).
  { apply forallb_forall. intros d Hd.
    apply (proj1 (unique_by_In key_eqb key_eqb_eq _ _)) in Hd.
    apply in_map_iff in Hd. destruct Hd as [r [<- Hr]].
    specialize (Hall r Hr). destruct (Driver (snd r)); [reflexivity|congruence]. }
  now rewrite F.
Qed.

Lemma driver_names_type_error (txt : list (option string) -> string)
    (laps : DataFrame) (r : Row) :
  has_column "Driver" laps = true ->
  In r (rows laps) -> Driver (snd r) = None ->
  driver_names txt laps
  = Raise (OtherError "TypeError"
             (txt (unique_by key_eqb (map (fun r => Driver (snd r)) (rows laps))))).
Proof.
  intros Hc Hr Hd. apply has_column_lookup in Hc. destruct Hc as [t Ht].
  unfold driver_names, column. rewrite Ht. cbn [bind s_values].
  destruct (forallb isSome _) eqn:F; [|reflexivity].
  rewrite forallb_forall in F.
  assert (Hin : In None (unique_by key_eqb
                           (map (fun r => Driver (snd r)) (rows laps)))).
  { apply (proj2 (unique_by_In key_eqb key_eqb_eq _ _)).
    apply in_map_iff. exists r. auto. }
  specialize (F None Hin). discriminate F.
Qed.

(** X19: when both directories can be made, the provider returns the laps
    of the 2022 Hungarian race, the lap table has the pit-table columns and
    a driver name in every row, and both writes succeed, the fetcher ends
    with status 0 having written the lap file and then the pit-stop file,
    and prints its five lines, the drivers listed once each in ascending
    order. *)
Theorem fetch_success (txt : list (option string) -> string)
    (w : FetchWorld) (laps : DataFrame) (pits : PitTable) :
  mkdir_cache w = None -> mkdir_raw w = None ->
  provider w 2022%Z "Hungary" "R" = Ok laps ->
  pit_table_from_laps laps = Ok pits ->
  has_column "Driver" laps = true ->
  (forall r, In r (rows laps) -> Driver (snd r) <> None) ->
  (forall name, fetch_to_csv_fails w name = None) ->
  fetch_main txt w
  = (mkFetchProc
       ["ok: 2022 Hungarian GP (Race) loaded";
        ("ok: laps -> data/raw/laps_hun_2022.csv ["
         ++ str_of_Z (Z.of_nat (List.length (rows laps))) ++ " rows]")%string;
        "ok: pits -> data/raw/pitstops_hun_2022.csv";
        ("ok: drivers -> "
         ++ String.concat ", "
              (sort_by String.leb
                 (flat_map (fun d => match d with Some v => [v] | None => [] end)
                    (unique_by key_eqb
                       (map (fun r => Driver (snd r)) (rows laps))))))%string;
        "cache: fastf1_cache"]
       []
       [("laps_hun_2022.csv", RawLaps laps);
        ("pitstops_hun_2022.csv", PitStops pits)],
     0%Z).
Proof.
  intros Hc Hr Hp Hpit Hd Hall Hw.
  unfold fetch_main, fetch_job, fio_bind, fio_lift, fetch_to_csv, fetch_print,
    ensure_paths, load_race.
  rewrite Hc, Hr, Hp, Hpit, !Hw, (driver_names_ok txt laps Hd Hall).
  reflexivity.
Qed.

Lemma fetch_success_witness :
  exists pits out,
    pit_table_from_laps laps_with_pits = Ok pits
    /\ fetch_main no_text (fetch_world laps_with_pits) = (out, 0%Z)
    /\ f_stdout out
       = ["ok: 2022 Hungarian GP (Race) loaded";
          "ok: laps -> data/raw/laps_hun_2022.csv [6 rows]";
          "ok: pits -> data/raw/pitstops_hun_2022.csv";
          "ok: drivers -> HAM, VER";
          "cache: fastf1_cache"]
    /\ f_files out = [("laps_hun_2022.csv", RawLaps laps_with_pits);
                      ("pitstops_hun_2022.csv", PitStops pits)].
Proof.
  eexists. eexists. split; [vm_compute; reflexivity|].
  rewrite (fetch_success no_text (fetch_world laps_with_pits) laps_with_pits _
             eq_refl eq_refl eq_refl eq_refl eq_refl).
  - split; [reflexivity|]. split; reflexivity.
  - intros r [<-|[<-|[<-|[<-|[<-|[<-|[]]]]]]]; discriminate.
  - reflexivity.
Defined.

(** X20: the fetcher writes the lap file before it derives the pit-stop
    table: when that derivation raises (a lap table without one of the
    pit-table columns), the run ends with status 1 and the error line,
    prints nothing, and leaves the lap file written without a pit-stop
    file. *)
Theorem fetch_keeps_lap_file (txt : list (option string) -> string)
    (w : FetchWorld) (laps : DataFrame) (e : exn) :
  mkdir_cache w = None -> mkdir_raw w = None ->
  provider w 2022%Z "Hungary" "R" = Ok laps ->
  fetch_to_csv_fails w "laps_hun_2022.csv" = None ->
  pit_table_from_laps laps = Raise e ->
  fetch_main txt w
  = (mkFetchProc [] [("error: " ++ exn_str e)%string]
                 [("laps_hun_2022.csv", RawLaps laps)],
     1%Z).
Proof.
  intros Hc Hr Hp Hw Hpit.
  unfold fetch_main, fetch_job, fio_bind, fio_lift, fetch_to_csv, fetch_print,
    ensure_paths, load_race.
  rewrite Hc, Hr, Hp, Hw, Hpit. reflexivity.
Qed.

Lemma fetch_keeps_lap_file_witness :
  fetch_main no_text (fetch_world laps_no_pit_in)
  = (mkFetchProc [] ["error: 'NoneType' object has no attribute 'notna'"]
                 [("laps_hun_2022.csv", RawLaps laps_no_pit_in)],
     1%Z).
Proof.
  apply (fetch_keeps_lap_file no_text (fetch_world laps_no_pit_in)
           laps_no_pit_in none_notna); reflexivity.
Defined.

(** X21: a lap whose driver name is missing makes the fetcher fail after
    both files are written: the driver list cannot be sorted and joined, the
    run ends with status 1 and a [TypeError] line, and nothing is
    printed. *)
Theorem fetch_fails_on_missing_driver (txt : list (option string) -> string)
    (w : FetchWorld) (laps : DataFrame) (pits : PitTable) (r : Row) :
  mkdir_cache w = None -> mkdir_raw w = None ->
  provider w 2022%Z "Hungary" "R" = Ok laps ->
  pit_table_from_laps laps = Ok pits ->
  has_column "Driver" laps = true ->
  In r (rows laps) -> Driver (snd r) = None ->
  (forall name, fetch_to_csv_fails w name = None) ->
  exists msg,
    fetch_main txt w
    = (mkFetchProc [] [("error: " ++ msg)%string]
                   [("laps_hun_2022.csv", RawLaps laps);
                    ("pitstops_hun_2022.csv", PitStops pits)],
       1%Z).
Proof.
  intros Hc Hr Hp Hpit Hd Hin Hn Hw.
  unfold fetch_main, fetch_job, fio_bind, fio_lift, fetch_to_csv, fetch_print,
    ensure_paths, load_race.
  rewrite Hc, Hr, Hp, Hpit, !Hw, (driver_names_type_error txt laps r Hd Hin Hn).
  eexists. reflexivity.
Qed.

Lemma fetch_fails_on_missing_driver_witness :
  exists msg pits,
    fetch_main no_text (fetch_world laps_nameless)
    = (mkFetchProc [] [("error: " ++ msg)%string]
                   [("laps_hun_2022.csv", RawLaps laps_nameless);
                    ("pitstops_hun_2022.csv", PitStops pits)],
       1%Z).
Proof.
  destruct (fetch_fails_on_missing_driver no_text (fetch_world laps_nameless)
              laps_nameless
              (match pit_table_from_laps laps_nameless with
               | Ok p => p
               | Raise _ => mkPitTable [] []
               end)
              (6%Z, mkLap None None (Some 3%Z) None None None None None None NA
                          None None None))
    as [msg H]; try reflexivity.
  - simpl. auto 10.
  - exists msg. eexists. exact H.
Defined.

(** X22: every run of the fetcher ends in one of two ways.  With status 0:
    the error stream is empty, five lines were printed and the lap file and
    the pit-stop file were written, in that order.  With status 1: nothing
    was printed, the error stream holds the single line [error: ...] of the
    exception, and the files written are the first zero, one or two of the
    two; nothing is written when a directory cannot be made or the provider
    raises. *)
Theorem fetch_outcome (txt : list (option string) -> string) (w : FetchWorld) :
  ((snd (fetch_main txt w) = 0%Z
    /\ f_stderr (fst (fetch_main txt w)) = []
    /\ List.length (f_stdout (fst (fetch_main txt w))) = 5%nat
    /\ map fst (f_files (fst (fetch_main txt w))) = fetch_names)
   \/ (snd (fetch_main txt w) = 1%Z
       /\ f_stdout (fst (fetch_main txt w)) = []
       /\ (exists e, f_stderr (fst (fetch_main txt w))
                     = [("error: " ++ exn_str e)%string])
       /\ exists k, (k <= 2)%nat
                    /\ map fst (f_files (fst (fetch_main txt w)))
                       = firstn k fetch_names))
  /\ (forall e, ensure_paths w = Raise e
                \/ (ensure_paths w = Ok tt
                    /\ provider w 2022%Z "Hungary" "R" = Raise e) ->
                fetch_main txt w
                = (mkFetchProc [] [("error: " ++ exn_str e)%string] [], 1%Z)).
Proof.
  unfold fetch_main, fetch_job, fio_bind, fio_lift, fetch_to_csv, fetch_print,
    load_race.
  destruct (ensure_paths w) as [[]|e0].
  2:{ split.
      - right. cbn. split; [reflexivity|]. split; [reflexivity|].
        split; [eexists; reflexivity|]. exists 0%nat. split; [lia|reflexivity].
      - intros e [H|[H _]]; [injection H as <-; reflexivity | discriminate]. }
  destruct (provider w 2022%Z "Hungary" "R") as [laps|e0].
  2:{ split.
      - right. cbn. split; [reflexivity|]. split; [reflexivity|].
        split; [eexists; reflexivity|]. exists 0%nat. split; [lia|reflexivity].
      - intros e [H|[_ H]]; [discriminate | injection H as <-; reflexivity]. }
  split; [|intros e [H|[_ H]]; discriminate].
  destruct (fetch_to_csv_fails w "laps_hun_2022.csv") as [e0|].
  { right. cbn. split; [reflexivity|]. split; [reflexivity|].
    split; [eexists; reflexivity|]. exists 0%nat. split; [lia|reflexivity]. }
  destruct (pit_table_from_laps laps) as [pits|e0].
  2:{ right. cbn. split; [reflexivity|]. split; [reflexivity|].
      split; [eexists; reflexivity|]. exists 1%nat. split; [lia|reflexivity]. }
  destruct (fetch_to_csv_fails w "pitstops_hun_2022.csv") as [e0|].
  { right. cbn. split; [reflexivity|]. split; [reflexivity|].
    split; [eexists; reflexivity|]. exists 1%nat. split; [lia|reflexivity]. }
  destruct (driver_names txt laps) as [drivers|e0].
  2:{ right. cbn. split; [reflexivity|]. split; [reflexivity|].
      split; [eexists; reflexivity|]. exists 2%nat. split; [lia|reflexivity]. }
  left. cbn. split; [reflexivity|]. split; [reflexivity|]. split; reflexivity.
Qed.

Lemma fetch_outcome_witness :
  fetch_main no_text
    (mkFetchWorld None (Some (OtherError "PermissionError" "denied"))
                  (hungary_2022 laps_with_pits) (fun _ => None))
  = (mkFetchProc [] ["error: denied"] [], 1%Z).
Proof.
  apply (proj2 (fetch_outcome no_text
                  (mkFetchWorld None (Some (OtherError "PermissionError" "denied"))
                                (hungary_2022 laps_with_pits) (fun _ => None)))
               (OtherError "PermissionError" "denied")).
  left. reflexivity.
Defined.
